(** * s1-cinema: the batch 480p converter ([convert.py])

    A shallow embedding of the per-file conversion engine: output naming,
    the stream prober, the compliance classifier, the command builder, the
    execution and fallback controller and the batch loop, over a tree model
    of the filesystem and explicit oracles for the external tools. *)

From Stdlib Require Import ZArith String Ascii List Lia QArith Qround Qminmax.
From stdpp Require Import base option list gmap strings pretty.

Set Warnings "-register-all".

Local Open Scope string_scope.
Local Open Scope Z_scope.
Local Open Scope list_scope.

(** ** Python strings

    Python [str] values are modelled as Rocq strings; only the operations
    the converter uses are embedded. *)
Module PyStr.

(** [s.startswith(prefix)] *)
Fixpoint startswith (s pre : string) : bool :=
  match pre, s with
  | EmptyString, _ => true
  | String c pre', String d s' => if Ascii.eqb c d then startswith s' pre' else false
  | String _ _, EmptyString => false
  end.

(** [sub in s] *)
Fixpoint contains (sub s : string) : bool :=
  if startswith s sub then true
  else match s with
       | EmptyString => false
       | String _ s' => contains sub s'
       end.

(** the characters of [s], last first *)
Fixpoint rev (s : string) : string :=
  match s with
  | EmptyString => EmptyString
  | String c s' => rev s' +:+ String c EmptyString
  end.

(** [s.endswith(suffix)] *)
Definition endswith (s suf : string) : bool := startswith (rev s) (rev suf).

(** [c.lower()] for one character: only 'A'..'Z' change. *)
Definition lower_ascii (c : ascii) : ascii :=
  let n := nat_of_ascii c in
  if (Nat.leb 65 n && Nat.leb n 90)%bool then ascii_of_nat (n + 32) else c.

(** [s.lower()] *)
Fixpoint lower (s : string) : string :=
  match s with
  | EmptyString => EmptyString
  | String c s' => String (lower_ascii c) (lower s')
  end.

(** [s.rfind(".")]: the index of the last dot, if any. *)
Fixpoint rfind_dot (s : string) : option nat :=
  match s with
  | EmptyString => None
  | String c s' =>
      match rfind_dot s' with
      | Some i => Some (S i)
      | None => if Ascii.eqb c "."%char then Some O else None
      end
  end.

(** [s[:n]] *)
Fixpoint take (n : nat) (s : string) : string :=
  match n, s with
  | O, _ => EmptyString
  | S n', String c s' => String c (take n' s')
  | S _, EmptyString => EmptyString
  end.

End PyStr.

(** ** Paths

    A [pathlib.Path] is the list of its components below the filesystem
    root (relative paths are read as resolved against the working
    directory); a component is a plain name. *)
Definition Path := list string.

Module PyPath.

(** [p.name]: the final component, or the empty string. *)
Definition name (p : Path) : string := List.last p "".

(** [p.parent] *)
Definition parent (p : Path) : Path := removelast p.

(** [p / s]; joining the empty string leaves the path as it is. *)
Definition join (p : Path) (s : string) : Path :=
  if decide (s = "") then p else p ++ [s].

(** [p / q] for a relative path [q] *)
Definition join_path (p q : Path) : Path := p ++ q.

(** [p.stem]: the final component without its last suffix; a leading dot or
    a trailing dot does not start a suffix. *)
Definition stem (p : Path) : string :=
  let n := name p in
  match PyStr.rfind_dot n with
  | Some i => if (Nat.ltb 0 i && Nat.ltb i (String.length n - 1))%bool
              then PyStr.take i n else n
  | None => n
  end.

(** [p.relative_to(root)]: [None] stands for the [ValueError] raised when
    [p] does not lie under [root]. *)
Fixpoint relative_to (p root : Path) : option Path :=
  match root, p with
  | [], _ => Some p
  | r :: root', c :: p' => if decide (r = c) then relative_to p' root' else None
  | _ :: _, [] => None
  end.

End PyPath.

(** ** The filesystem

    A tree: a regular file or a directory with named entries. A file has no
    children and every entry hangs below a directory by construction. *)
Inductive Node :=
  | File
  | Dir (entries : gmap string Node).

Module FS.

(** the node at path [p] below [n] *)
Fixpoint lookup (p : Path) (n : Node) : option Node :=
  match p with
  | [] => Some n
  | k :: p' =>
      match n with
      | Dir m => match m !! k with Some c => lookup p' c | None => None end
      | File => None
      end
  end.

(** [p.exists()] *)
Definition exists_ (p : Path) (n : Node) : bool :=
  match lookup p n with Some _ => true | None => false end.

(** [p.is_dir()] *)
Definition is_dir (p : Path) (n : Node) : bool :=
  match lookup p n with Some (Dir _) => true | _ => false end.

(** a chain of new, otherwise empty directories *)
Fixpoint chain (p : Path) : Node :=
  match p with
  | [] => Dir ∅
  | k :: p' => Dir {[ k := chain p' ]}
  end.

(** [p.mkdir(parents=True, exist_ok=True)]: missing directories along [p]
    are created; [None] stands for the [OSError] raised when a component of
    [p] is a regular file. *)
Fixpoint mkdir_parents (p : Path) (n : Node) : option Node :=
  match n with
  | File => None
  | Dir m =>
      match p with
      | [] => Some n
      | k :: p' =>
          match m !! k with
          | None => Some (Dir (<[k := chain p']> m))
          | Some c =>
              match mkdir_parents p' c with
              | Some c' => Some (Dir (<[k := c']> m))
              | None => None
              end
          end
      end
  end.

(** place node [x] at path [p], replacing what is there; the parent of [p]
    has to be a directory. *)
Fixpoint put (p : Path) (x : Node) (n : Node) : option Node :=
  match p, n with
  | [k], Dir m => Some (Dir (<[k := x]> m))
  | k :: p', Dir m =>
      match m !! k with
      | Some c =>
          match put p' x c with
          | Some c' => Some (Dir (<[k := c']> m))
          | None => None
          end
      | None => None
      end
  | _, _ => None
  end.

(** take the node at path [p] out of the tree: the node and what is left. *)
Fixpoint detach (p : Path) (n : Node) : option (Node * Node) :=
  match p, n with
  | [k], Dir m =>
      match m !! k with
      | Some x => Some (x, Dir (delete k m))
      | None => None
      end
  | k :: p', Dir m =>
      match m !! k with
      | Some c =>
          match detach p' c with
          | Some (x, c') => Some (x, Dir (<[k := c']> m))
          | None => None
          end
      | None => None
      end
  | _, _ => None
  end.

(** [p.unlink()]: removes a regular file; [None] stands for the [OSError]
    raised when [p] is missing or a directory. *)
Definition unlink (p : Path) (n : Node) : option Node :=
  match detach p n with
  | Some (File, n') => Some n'
  | _ => None
  end.

(** What a process that writes its output file at [p] leaves behind: a
    regular file at [p] when the parent is a directory and [p] is not one. *)
Definition write_file (p : Path) (n : Node) : Node :=
  if is_dir p n then n
  else match put p File n with Some n' => n' | None => n end.

(** [os.rename(src, dst)] *)
Definition rename (src dst : Path) (n : Node) : option Node :=
  match detach src n with
  | Some (x, n') =>
      match x, lookup dst n' with
      | Dir _, Some File => None
      | File, Some (Dir _) => None
      | _, _ => put dst x n'
      end
  | None => None
  end.

(** [shutil.move(src, dst)]: into [dst] when that is a directory, else a
    rename onto [dst]; [None] stands for the error raised. *)
Definition move (src dst : Path) (n : Node) : option Node :=
  if is_dir dst n then
    let real_dst := dst ++ [PyPath.name src] in
    if exists_ real_dst n then None else rename src real_dst n
  else rename src dst n.

End FS.

(** ** Parsed JSON

    What [json.loads] returns: [None], a bool, an int, a str, a list or a
    dict with string keys. (Floats do not occur in the fields read here.) *)
Inductive json :=
  | JNull
  | JBool (b : bool)
  | JInt (z : Z)
  | JStr (s : string)
  | JList (l : list json)
  | JDict (d : gmap string json).

(** Python truthiness, as used by [if x], [not x] and [x or y]. *)
Definition truthy (v : json) : bool :=
  match v with
  | JNull => false
  | JBool b => b
  | JInt z => negb (z =? 0)
  | JStr s => negb (String.eqb s "")
  | JList l => match l with [] => false | _ => true end
  | JDict d => negb (bool_decide (d = ∅))
  end.

(** ** Exceptions and results *)
Inductive Exc :=
  | KeyboardInterrupt
  | ValueError
  | OSError
  | AttributeError
  | TypeError
  | KeyError
  | IndexError.

(** [except Exception] catches everything here but [KeyboardInterrupt],
    which derives from [BaseException] only. *)
Definition is_Exception (e : Exc) : bool :=
  match e with KeyboardInterrupt => false | _ => true end.

Inductive result (A : Type) :=
  | Ret (a : A)
  | Raise (e : Exc).
Arguments Ret {A} a.
Arguments Raise {A} e.

(** ** Process-wide configuration (lines 18-30 of the source) *)
Definition CRF : Z := 18.
Definition PRESET : string := "medium".
Definition TUNE_ANIMATION : bool := true.
Definition LEVEL : string := "3.0".
Definition OVERWRITE : bool := false.
Definition SKIP_IF_ALREADY_480P : bool := true.
Definition COPY_ATTACHMENTS : bool := true.
Definition MAX_MUXING_QUEUE_SIZE : string := "4096".

(** ** Command lines

    An argument is a literal string or [str(p)] of a path [p]. *)
Inductive Arg :=
  | Str (s : string)
  | PathStr (p : Path).

(** the output file of an ffmpeg command line: its last argument *)
Definition output_of (cmd : list Arg) : option Path :=
  match List.last cmd (Str "") with
  | PathStr p => Some p
  | Str _ => None
  end.

(** ** The host: the tools and the machine the converter runs on *)

(** How a run of the external engine ends: [Popen] fails to start it, or it
    runs ([wrote]: it leaves its output file behind) until it exits with a
    code or the user interrupts the wait. *)
Inductive Ending :=
  | Exited (rc : Z)
  | Interrupted.

Inductive EngineRun :=
  | SpawnFailed
  | Ran (wrote : bool) (e : Ending).

(** What [subprocess.check_output(...).decode()] followed by [json.loads]
    yields: an exception is raised ([KeyboardInterrupt] when the user
    interrupts; an [Exception] when the tool is missing, exits non-zero or
    prints undecodable or unparseable output), or a parsed value. *)
Inductive ProbeRun :=
  | ProbeRaised (e : Exc)
  | ProbeParsed (data : json).

Record Host := {
  HWACCEL : option string;          (* detect_hwaccel(), line 118 *)
  TEMP_DIR : Path;                  (* line 119 *)
  uuid4_hex : nat → string;         (* the draws of uuid.uuid4().hex *)
  ffprobe_run : nat → list Arg → ProbeRun;
  engine_run : nat → list Arg → EngineRun;
}.

(** Observable events: every process launch, every [p.terminate()], and
    what [run_cmd] handed back for an engine run. *)
Inductive Event :=
  | Spawn (cmd : list Arg)
  | Terminate
  | Returned (rc : Z).

(** The world a task runs in: the filesystem, a clock that advances at every
    consultation of the host, and the events so far. *)
Record World := {
  fs : Node;
  clock : nat;
  log : list Event;
}.

Definition set_fs (n : Node) (w : World) : World :=
  {| fs := n; clock := clock w; log := log w |}.
Definition tick (w : World) : World :=
  {| fs := fs w; clock := S (clock w); log := log w |}.
Definition emit (e : Event) (w : World) : World :=
  {| fs := fs w; clock := clock w; log := log w ++ [e] |}.

(** ** The state-and-exception monad of the embedding *)
Definition M (A : Type) : Type := World → World * result A.

Definition ret {A} (a : A) : M A := λ w, (w, Ret a).
Definition raise {A} (e : Exc) : M A := λ w, (w, Raise e).
Definition bind {A B} (m : M A) (f : A → M B) : M B :=
  λ w, match m w with
       | (w', Ret a) => f a w'
       | (w', Raise e) => (w', Raise e)
       end.
Definition get_fs : M Node := λ w, (w, Ret (fs w)).
(** an [option]-returning filesystem operation; [None] raises [e] *)
Definition fs_op (e : Exc) (f : Node → option Node) : M unit :=
  λ w, match f (fs w) with
       | Some n => (set_fs n w, Ret tt)
       | None => (w, Raise e)
       end.

Notation "'let*' x ':=' m 'in' k" := (bind m (λ x, k))
  (at level 10, x binder, m at level 100, k at level 200).
Notation "m ';;' k" := (bind m (λ _, k))
  (at level 100, k at level 200, right associativity).

(** [try: m except Exception: h] *)
Definition try_except_Exception {A} (m h : M A) : M A :=
  λ w, match m w with
       | (w', Raise e) => if is_Exception e then h w' else (w', Raise e)
       | r => r
       end.

(** lift a pure computation that may raise *)
Definition lift {A} (r : result A) : M A := λ w, (w, r).

(** ** Output naming (lines 71-78) *)

Definition base_with_suffix (base suffix : string) : string :=
  if PyStr.endswith base suffix then base else base +:+ suffix.

Definition make_output_path (in_file in_root out_root : Path) : M Path :=
  match PyPath.relative_to in_file in_root with
  | None => raise ValueError
  | Some rel =>
      let out_dir :=
        PyPath.join_path (PyPath.join out_root (PyPath.name in_root)) (PyPath.parent rel) in
      fs_op OSError (FS.mkdir_parents out_dir) ;;
      ret (PyPath.join out_dir (base_with_suffix (PyPath.stem rel) "_480p" +:+ ".mkv"))
  end.

(** ** Dictionary and string operations on parsed JSON *)

(** [v.get(k)]: only a dict has [get]. *)
Definition py_get (v : json) (k : string) : result json :=
  match v with
  | JDict d => Ret (default JNull (d !! k))
  | _ => Raise AttributeError
  end.

(** [v or d] *)
Definition py_or (v d : json) : json := if truthy v then v else d.

(** [v.lower()]: only a str has [lower]. *)
Definition py_lower (v : json) : result string :=
  match v with
  | JStr s => Ret (PyStr.lower s)
  | _ => Raise AttributeError
  end.

(** [v[0]] *)
Definition py_index0 (v : json) : result json :=
  match v with
  | JList (x :: _) => Ret x
  | JList [] => Raise IndexError
  | JStr (String c _) => Ret (JStr (String c EmptyString))
  | JStr EmptyString => Raise IndexError
  | JDict _ => Raise KeyError
  | _ => Raise TypeError
  end.

(** [v <= bound] for an int bound; a bool compares as 0 or 1. *)
Definition py_le (v : json) (bound : Z) : result bool :=
  match v with
  | JInt z => Ret (z <=? bound)
  | JBool b => Ret ((if b then 1 else 0) <=? bound)
  | _ => Raise TypeError
  end.

(** [v is not None] *)
Definition is_not_None (v : json) : bool :=
  match v with JNull => false | _ => true end.

(** ** The compliance classifier (lines 90-97) *)
Definition already_satisfies_480p (info : json) : result bool :=
  if negb (truthy info) then Ret false
  else
    match py_get info "width" with Raise e => Raise e | Ret w =>
    match py_get info "height" with Raise e => Raise e | Ret h =>
    match py_get info "pix_fmt" with Raise e => Raise e | Ret pix0 =>
    match py_lower (py_or pix0 (JStr "")) with Raise e => Raise e | Ret pix =>
    match py_get info "codec_name" with Raise e => Raise e | Ret codec0 =>
    match py_lower (py_or codec0 (JStr "")) with Raise e => Raise e | Ret codec =>
      if negb (is_not_None w) then Ret false
      else if negb (is_not_None h) then Ret false
      else match py_le w 854 with Raise e => Raise e | Ret false => Ret false | Ret true =>
           match py_le h 480 with Raise e => Raise e | Ret false => Ret false | Ret true =>
             if negb (PyStr.contains "h264" codec) then Ret false
             else Ret (bool_decide (pix = "yuv420p") || bool_decide (pix = "yuvj420p"))
           end end
    end end end end end end.

(** ** The command builder (lines 122-142) *)
Definition vf_chain : string :=
  "scale=trunc(iw*min(854/iw\,480/ih)/2)*2:trunc(ih*min(854/iw\,480/ih)/2)*2,setsar=1".

Definition build_ffmpeg_command (in_file out_file : Path) (hwaccel : option string)
  : list Arg :=
  let cmd := [Str "ffmpeg"; Str "-hide_banner"; Str "-loglevel"; Str "error"; Str "-stats"] in
  let cmd := cmd ++ match hwaccel with
                    | Some h => if String.eqb h "" then [] else [Str "-hwaccel"; Str h]
                    | None => []
                    end in
  let cmd := cmd ++ [Str "-i"; PathStr in_file; Str "-map"; Str "0";
                     Str "-map_metadata"; Str "0"; Str "-map_chapters"; Str "0"] in
  let cmd := cmd ++ [Str "-c:v"; Str "libx264"; Str "-profile:v"; Str "baseline";
                     Str "-level:v"; Str LEVEL; Str "-pix_fmt"; Str "yuv420p";
                     Str "-vf"; Str vf_chain; Str "-preset"; Str PRESET;
                     Str "-crf"; Str (pretty CRF)] in
  let cmd := cmd ++ (if TUNE_ANIMATION then [Str "-tune"; Str "animation"] else []) in
  let cmd := cmd ++ [Str "-c:a"; Str "aac"; Str "-b:a"; Str "160k"; Str "-ac"; Str "2"] in
  let cmd := cmd ++ [Str "-c:s"; Str "copy"] in
  let cmd := cmd ++ (if COPY_ATTACHMENTS then [Str "-c:t"; Str "copy"] else []) in
  cmd ++ [Str "-max_muxing_queue_size"; Str MAX_MUXING_QUEUE_SIZE; Str "-threads"; Str "0";
          Str (if negb OVERWRITE then "-n" else "-y"); PathStr out_file].

(** the remux command line of [convert_one] (lines 171-180) *)
Definition remux_command (in_file temp_name : Path) : list Arg :=
  let cmd := [Str "ffmpeg"; Str "-hide_banner"; Str "-loglevel"; Str "error"; Str "-stats";
              Str "-i"; PathStr in_file;
              Str "-map"; Str "0"; Str "-map_metadata"; Str "0"; Str "-map_chapters"; Str "0";
              Str "-c:v"; Str "copy";
              Str "-c:a"; Str "aac"; Str "-b:a"; Str "160k"; Str "-ac"; Str "2";
              Str "-c:s"; Str "copy"] in
  let cmd := cmd ++ (if COPY_ATTACHMENTS then [Str "-c:t"; Str "copy"] else []) in
  cmd ++ [Str "-max_muxing_queue_size"; Str MAX_MUXING_QUEUE_SIZE; Str "-threads"; Str "0";
          Str (if negb OVERWRITE then "-n" else "-y"); PathStr temp_name].

Definition ffprobe_command (path : Path) : list Arg :=
  [Str "ffprobe"; Str "-v"; Str "error"; Str "-select_streams"; Str "v:0";
   Str "-show_entries"; Str "stream=width,height,pix_fmt,codec_name";
   Str "-of"; Str "json"; PathStr path].

(** [bool(x)] of an [Optional[str]] *)
Definition truthy_opt (o : option string) : bool :=
  match o with
  | Some s => negb (String.eqb s "")
  | None => false
  end.

(** the outcome strings of [convert_one]: "exists-skip",
    "remuxed-audio-converted", "encoded" and "error(<rc>)" *)
Inductive Status :=
  | ExistsSkip
  | RemuxedAudioConverted
  | Encoded
  | Error (rc : Z).

Definition Outcome : Type := Path * Path * Status.

Section Converter.

Variable host : Host.

(** ** The stream prober (lines 80-88) *)

(** [subprocess.check_output(cmd, ...).decode()] and [json.loads] *)
Definition probe_json (cmd : list Arg) : M json :=
  λ w, let w1 := tick (emit (Spawn cmd) w) in
       match ffprobe_run host (clock w) cmd with
       | ProbeRaised e => (w1, Raise e)
       | ProbeParsed data => (w1, Ret data)
       end.

Definition ffprobe_info (path : Path) : M json :=
  let cmd := ffprobe_command path in
  try_except_Exception
    (let* data := probe_json cmd in
     let* v := lift (py_get data "streams") in
     let streams := py_or v (JList []) in
     if truthy streams then lift (py_index0 streams) else ret (JDict ∅))
    (ret (JDict ∅)).

(** ** Running the engine (lines 144-158) *)
Definition run_cmd (cmd : list Arg) : M Z :=
  λ w, let w1 := tick (emit (Spawn cmd) w) in
       match engine_run host (clock w) cmd with
       | SpawnFailed => (emit (Returned 1) w1, Ret 1)
       | Ran wrote e =>
           let w2 := match wrote, output_of cmd with
                     | true, Some p => set_fs (FS.write_file p (fs w1)) w1
                     | _, _ => w1
                     end in
           match e with
           | Exited rc => (emit (Returned rc) w2, Ret rc)
           | Interrupted => (emit (Returned 130) (emit Terminate w2), Ret 130)
           end
       end.

(** [TEMP_DIR / f"{uuid.uuid4().hex}.tmp.mkv"] *)
Definition temp_path (u : string) : Path :=
  PyPath.join (TEMP_DIR host) (u +:+ ".tmp.mkv").

Definition new_temp_name : M Path :=
  λ w, (tick w, Ret (temp_path (uuid4_hex host (clock w)))).

(** [if temp_name.exists(): temp_name.unlink()] *)
Definition unlink_if_exists (p : Path) : M unit :=
  let* n := get_fs in
  if FS.exists_ p n then fs_op OSError (FS.unlink p) else ret tt.

(** [shutil.move(str(temp_name), out_file)] *)
Definition shutil_move (src dst : Path) : M unit :=
  fs_op OSError (FS.move src dst).

(** ** The execution and fallback controller (lines 160-208) *)

(** lines 189-208: the full encode path *)
Definition full_encode (in_file out_file : Path) : M Outcome :=
  let* temp_name := new_temp_name in
  let tried_hw := HWACCEL host in
  let* rc :=
    (if truthy_opt tried_hw then
       let* rc := run_cmd (build_ffmpeg_command in_file temp_name tried_hw) in
       if negb (rc =? 0) then
         unlink_if_exists temp_name ;;
         run_cmd (build_ffmpeg_command in_file temp_name None)
       else ret rc
     else run_cmd (build_ffmpeg_command in_file temp_name None)) in
  if rc =? 0 then
    shutil_move temp_name out_file ;;
    ret (in_file, out_file, Encoded)
  else
    unlink_if_exists temp_name ;;
    ret (in_file, out_file, Error rc).

(** lines 170-187: the remux attempt; [Some] is the early return *)
Definition try_remux (in_file out_file : Path) : M (option Outcome) :=
  let* temp_name := new_temp_name in
  let* rc := run_cmd (remux_command in_file temp_name) in
  if rc =? 0 then
    shutil_move temp_name out_file ;;
    ret (Some (in_file, out_file, RemuxedAudioConverted))
  else
    unlink_if_exists temp_name ;;
    ret None.

Definition convert_one (in_root in_file out_root : Path) : M Outcome :=
  let* out_file := make_output_path in_file in_root out_root in
  let* n := get_fs in
  if (FS.exists_ out_file n && negb OVERWRITE)%bool then
    ret (in_file, out_file, ExistsSkip)
  else
    let* early :=
      (if SKIP_IF_ALREADY_480P then
         let* info := ffprobe_info in_file in
         let* ok := lift (already_satisfies_480p info) in
         if ok then try_remux in_file out_file else ret None
       else ret None) in
    match early with
    | Some r => ret r
    | None => full_encode in_file out_file
    end.

(** ** The batch loop of [main] (lines 217-242) *)
Record Tally := {
  done_ : Z;
  skipped : Z;
  remuxed : Z;
  errors : Z;
}.

Definition count (s : Status) (t : Tally) : Tally :=
  match s with
  | Encoded => {| done_ := done_ t + 1; skipped := skipped t; remuxed := remuxed t; errors := errors t |}
  | RemuxedAudioConverted => {| done_ := done_ t; skipped := skipped t; remuxed := remuxed t + 1; errors := errors t |}
  | ExistsSkip => {| done_ := done_ t; skipped := skipped t + 1; remuxed := remuxed t; errors := errors t |}
  | Error _ => {| done_ := done_ t; skipped := skipped t; remuxed := remuxed t; errors := errors t + 1 |}
  end.

Definition count_exception (t : Tally) : Tally :=
  {| done_ := done_ t; skipped := skipped t; remuxed := remuxed t; errors := errors t + 1 |}.

(** The loop over the tasks; the third component lists what was reported
    for each task the loop reached, in order. *)
Fixpoint main_loop (tasks : list (Path * Path)) (outdir : Path) (t : Tally) (w : World)
  : World * Tally * list (result Outcome) :=
  match tasks with
  | [] => (w, t, [])
  | (root, f) :: rest =>
      match convert_one root f outdir w with
      | (w', Ret (i, o, status)) =>
          let '(w'', t', rs) := main_loop rest outdir (count status t) w' in
          (w'', t', Ret (i, o, status) :: rs)
      | (w', Raise KeyboardInterrupt) => (w', t, [Raise KeyboardInterrupt])
      | (w', Raise e) =>
          let '(w'', t', rs) := main_loop rest outdir (count_exception t) w' in
          (w'', t', Raise e :: rs)
      end
  end.

End Converter.

(** ** Stream profiles

    A stream profile is the dict the prober returns; a field is present
    when the key holds a value of its type (an int for the dimensions, a
    str for the names), and missing when the key is absent or null. *)
Definition field_int (d : gmap string json) (k : string) : option Z :=
  match d !! k with
  | Some (JInt z) => Some z
  | _ => None
  end.

Definition field_str (d : gmap string json) (k : string) : option string :=
  match d !! k with
  | Some (JStr s) => Some s
  | _ => None
  end.

Definition int_field_ok (d : gmap string json) (k : string) : Prop :=
  d !! k = None ∨ d !! k = Some JNull ∨ ∃ z, d !! k = Some (JInt z).

Definition str_field_ok (d : gmap string json) (k : string) : Prop :=
  d !! k = None ∨ d !! k = Some JNull ∨ ∃ s, d !! k = Some (JStr s).

(** every field of the profile is missing or of its type *)
Definition well_typed_profile (d : gmap string json) : Prop :=
  int_field_ok d "width" ∧ int_field_ok d "height" ∧
  str_field_ok d "pix_fmt" ∧ str_field_ok d "codec_name".

(** The compliance condition as the specification words it: names are
    compared as they are. *)
Definition spec_compliant (d : gmap string json) : bool :=
  match field_int d "width", field_int d "height",
        field_str d "codec_name", field_str d "pix_fmt" with
  | Some w, Some h, Some codec, Some pix =>
      (w <=? 854) && (h <=? 480) && PyStr.contains "h264" codec
      && (bool_decide (pix = "yuv420p") || bool_decide (pix = "yuvj420p"))
  | _, _, _, _ => false
  end.

(** The compliance condition with names compared after lowercasing. *)
Definition compliant (d : gmap string json) : bool :=
  match field_int d "width", field_int d "height",
        field_str d "codec_name", field_str d "pix_fmt" with
  | Some w, Some h, Some codec, Some pix =>
      (w <=? 854) && (h <=? 480) && PyStr.contains "h264" (PyStr.lower codec)
      && (bool_decide (PyStr.lower pix = "yuv420p")
          || bool_decide (PyStr.lower pix = "yuvj420p"))
  | _, _, _, _ => false
  end.

(** ** The scale filter

    The arithmetic expressions of the [scale] filter in [vf_chain], with
    the engine's variables [iw] and [ih]. *)
Inductive Expr :=
  | Iw
  | Ih
  | Num (z : Z)
  | Mul (a b : Expr)
  | Div (a b : Expr)
  | Min (a b : Expr)
  | Trunc (a : Expr).

(** the expression in the engine's syntax ([*] and [/] associate to the
    left; the comma of [min] is escaped inside a filter chain) *)
Fixpoint show (e : Expr) : string :=
  match e with
  | Iw => "iw"
  | Ih => "ih"
  | Num z => pretty z
  | Mul a b => show a +:+ "*" +:+ show b
  | Div a b => show a +:+ "/" +:+ show b
  | Min a b => "min(" +:+ show a +:+ "\," +:+ show b +:+ ")"
  | Trunc a => "trunc(" +:+ show a +:+ ")"
  end.

(** rounding toward zero, as a rational *)
Definition Qtrunc (q : Q) : Q := inject_Z (Z.quot (Qnum q) (Zpos (Qden q))).

(** the value of an expression for an input of [iw] by [ih] pixels, in
    exact rational arithmetic *)
Fixpoint eval (iw ih : Z) (e : Expr) : Q :=
  match e with
  | Iw => inject_Z iw
  | Ih => inject_Z ih
  | Num z => inject_Z z
  | Mul a b => (eval iw ih a * eval iw ih b)%Q
  | Div a b => (eval iw ih a / eval iw ih b)%Q
  | Min a b => Qmin (eval iw ih a) (eval iw ih b)
  | Trunc a => Qtrunc (eval iw ih a)
  end.

Definition fit : Expr := Min (Div (Num 854) Iw) (Div (Num 480) Ih).
Definition scale_w : Expr := Mul (Trunc (Div (Mul Iw fit) (Num 2))) (Num 2).
Definition scale_h : Expr := Mul (Trunc (Div (Mul Ih fit) (Num 2))) (Num 2).

(** The scaling rule as the specification words it. *)
Definition spec_scale (iw ih : Z) : Q :=
  Qmin (inject_Z 854 / inject_Z iw)%Q (inject_Z 480 / inject_Z ih)%Q.
Definition spec_out_w (iw ih : Z) : Z :=
  2 * Qfloor (inject_Z iw * spec_scale iw ih / inject_Z 2)%Q.
Definition spec_out_h (iw ih : Z) : Z :=
  2 * Qfloor (inject_Z ih * spec_scale iw ih / inject_Z 2)%Q.

(** ** Probe failures

    Parsed probe output has a first stream when it is a dict whose
    "streams" entry is a non-empty sequence. *)
Definition has_first_stream (data : json) : bool :=
  match data with
  | JDict d =>
      match d !! "streams" with
      | Some (JList (_ :: _)) => true
      | Some (JStr (String _ _)) => true
      | _ => false
      end
  | _ => false
  end.

(** A probe fails when the tool cannot be run, exits with an error, prints
    output that cannot be decoded or parsed, or reports no stream. *)
Definition probe_failure (r : ProbeRun) : bool :=
  match r with
  | ProbeRaised e => is_Exception e
  | ProbeParsed data => negb (has_first_stream data)
  end.

(** the command lines launched, in order *)
Definition spawned (evs : list Event) : list (list Arg) :=
  omap (λ e, match e with Spawn c => Some c | _ => None end) evs.

(** the number of [p.terminate()] calls *)
Definition terminations (evs : list Event) : nat :=
  length (omap (λ e, match e with Terminate => Some tt | _ => None end) evs).

(** ** What sits at a path *)

(** what sits at a path: nothing, a regular file or a directory *)
Inductive Kind := KFile | KDir.

Global Instance Kind_eq_dec : EqDecision Kind.
Proof. solve_decision. Defined.

Definition kind_of (n : Node) : Kind :=
  match n with File => KFile | Dir _ => KDir end.

Definition kind (p : Path) (n : Node) : option Kind :=
  kind_of <$> FS.lookup p n.

(** only the path [t] may have changed between two filesystems *)
Definition touched_only (t : Path) (n n' : Node) : Prop :=
  ∀ q, q ≠ t → kind q n' = kind q n.

(** the artifact [t] was promoted to the absent destination [o] *)
Definition committed (t o : Path) (n n' : Node) : Prop :=
  is_Some (kind o n') ∧ kind t n' = None ∧ ¬ o `prefix_of` t ∧
  (∀ q, kind q n = None → ¬ o `prefix_of` q → kind q n' = None) ∧
  (∀ q k, kind q n = Some k → ¬ t `prefix_of` q → kind q n' = Some k).

(** the events of one engine run *)
Definition run_events (cmd : list Arg) (rc : Z) (evs : list Event) : Prop :=
  evs = [Spawn cmd; Returned rc] ∨ evs = [Spawn cmd; Terminate; Returned rc].

(** the directory and the file name of the output, for a source at [rel]
    below its root *)
Definition out_dir (in_root out_root rel : Path) : Path :=
  PyPath.join_path (PyPath.join out_root (PyPath.name in_root)) (PyPath.parent rel).

Definition out_name (rel : Path) : string :=
  base_with_suffix (PyPath.stem rel) "_480p" +:+ ".mkv".

(** the output path of a task, as a function of the task alone *)
Definition output_path (in_file in_root out_root : Path) : option Path :=
  match PyPath.relative_to in_file in_root with
  | Some rel => Some (out_dir in_root out_root rel ++ [out_name rel])
  | None => None
  end.

(** The output path as the specification words it:
    <output_root>/<root_name>/<relative_dir>/<stem>_480p.mkv. *)
Definition spec_output_path (in_file in_root out_root : Path) : option Path :=
  match PyPath.relative_to in_file in_root with
  | Some rel =>
      Some (PyPath.join_path (PyPath.join out_root (PyPath.name in_root)) (PyPath.parent rel)
            ++ [PyPath.stem rel +:+ "_480p.mkv"])
  | None => None
  end.

(** ** Outcomes of the stages of a conversion *)

Section Outcomes.
Variable host : Host.

(** how the remux attempt into [t] can end *)
Definition remux_outcome (i o t : Path) (n n' : Node) (evs : list Event)
    (r : result (option Outcome)) : Prop :=
  ∃ rc, run_events (remux_command i t) rc evs ∧
    ((rc = 0 ∧ ((r = Ret (Some (i, o, RemuxedAudioConverted)) ∧ committed t o n n') ∨
                (r = Raise OSError ∧ touched_only t n n'))) ∨
     (rc ≠ 0 ∧ ((r = Ret None ∧ touched_only t n n' ∧ kind t n' = None) ∨
                (r = Raise OSError ∧ touched_only t n n' ∧ kind t n = Some KDir)))).

(** the events of a full encode that ran to its last exit code [rc] *)
Definition encode_events (i t : Path) (rc : Z) (evs : list Event) : Prop :=
  if truthy_opt (HWACCEL host) then
    (rc = 0 ∧ run_events (build_ffmpeg_command i t (HWACCEL host)) 0 evs) ∨
    (∃ rc1 e1 e2, rc1 ≠ 0 ∧ evs = e1 ++ e2 ∧
       run_events (build_ffmpeg_command i t (HWACCEL host)) rc1 e1 ∧
       run_events (build_ffmpeg_command i t None) rc e2)
  else run_events (build_ffmpeg_command i t None) rc evs.

(** how the full encode into [t] can end *)
Definition encode_outcome (i o t : Path) (n n' : Node) (evs : list Event)
    (r : result Outcome) : Prop :=
  (∃ rc, encode_events i t rc evs ∧
     ((rc = 0 ∧ ((r = Ret (i, o, Encoded) ∧ committed t o n n') ∨
                 (r = Raise OSError ∧ touched_only t n n'))) ∨
      (rc ≠ 0 ∧ ((r = Ret (i, o, Error rc) ∧ touched_only t n n' ∧ kind t n' = None) ∨
                 (r = Raise OSError ∧ touched_only t n n' ∧ kind t n = Some KDir))))) ∨
  (∃ rc1, rc1 ≠ 0 ∧ truthy_opt (HWACCEL host) = true ∧
     run_events (build_ffmpeg_command i t (HWACCEL host)) rc1 evs ∧
     r = Raise OSError ∧ touched_only t n n' ∧ kind t n = Some KDir).

Variables in_root in_file out_root : Path.

(** The ways a call of [convert_one] from world [w] can go. *)
Inductive conversion (w : World) : World → result Outcome → Prop :=
  | conv_not_under_root :
      output_path in_file in_root out_root = None →
      conversion w w (Raise ValueError)
  | conv_mkdir_fails rel :
      PyPath.relative_to in_file in_root = Some rel →
      FS.mkdir_parents (out_dir in_root out_root rel) (fs w) = None →
      conversion w w (Raise OSError)
  | conv_skip rel o n0 :
      PyPath.relative_to in_file in_root = Some rel →
      output_path in_file in_root out_root = Some o →
      FS.mkdir_parents (out_dir in_root out_root rel) (fs w) = Some n0 →
      FS.exists_ o n0 = true →
      conversion w (set_fs n0 w) (Ret (in_file, o, ExistsSkip))
  | conv_probe_raises rel o n0 w' e :
      PyPath.relative_to in_file in_root = Some rel →
      output_path in_file in_root out_root = Some o →
      FS.mkdir_parents (out_dir in_root out_root rel) (fs w) = Some n0 →
      kind o n0 = None →
      fs w' = n0 → log w' = log w ++ [Spawn (ffprobe_command in_file)] →
      conversion w w' (Raise e)
  | conv_encode rel o n0 w' r evs :
      PyPath.relative_to in_file in_root = Some rel →
      output_path in_file in_root out_root = Some o →
      FS.mkdir_parents (out_dir in_root out_root rel) (fs w) = Some n0 →
      kind o n0 = None →
      log w' = log w ++ Spawn (ffprobe_command in_file) :: evs →
      encode_outcome in_file o (temp_path host (uuid4_hex host (S (clock w))))
        n0 (fs w') evs r →
      conversion w w' r
  | conv_remux_done rel o n0 w' x evs :
      PyPath.relative_to in_file in_root = Some rel →
      output_path in_file in_root out_root = Some o →
      FS.mkdir_parents (out_dir in_root out_root rel) (fs w) = Some n0 →
      kind o n0 = None →
      log w' = log w ++ Spawn (ffprobe_command in_file) :: evs →
      remux_outcome in_file o (temp_path host (uuid4_hex host (S (clock w))))
        n0 (fs w') evs (Ret (Some x)) →
      conversion w w' (Ret x)
  | conv_remux_raises rel o n0 w' e evs :
      PyPath.relative_to in_file in_root = Some rel →
      output_path in_file in_root out_root = Some o →
      FS.mkdir_parents (out_dir in_root out_root rel) (fs w) = Some n0 →
      kind o n0 = None →
      log w' = log w ++ Spawn (ffprobe_command in_file) :: evs →
      remux_outcome in_file o (temp_path host (uuid4_hex host (S (clock w))))
        n0 (fs w') evs (Raise e) →
      conversion w w' (Raise e)
  | conv_remux_encode rel o n0 n1 w' r evs1 evs2 :
      PyPath.relative_to in_file in_root = Some rel →
      output_path in_file in_root out_root = Some o →
      FS.mkdir_parents (out_dir in_root out_root rel) (fs w) = Some n0 →
      kind o n0 = None →
      log w' = log w ++ Spawn (ffprobe_command in_file) :: evs1 ++ evs2 →
      remux_outcome in_file o (temp_path host (uuid4_hex host (S (clock w))))
        n0 n1 evs1 (Ret None) →
      encode_outcome in_file o
        (temp_path host (uuid4_hex host (S (S (S (clock w))))))
        n1 (fs w') evs2 r →
      conversion w w' r.

End Outcomes.

(** ** Reading the event log *)

(** the kinds of external invocation *)
Inductive Invocation :=
  | Probe
  | Remux
  | EncodeHw
  | EncodeSw.

(** does the literal argument [s] occur in the command line? *)
Definition has_arg (s : string) (cmd : list Arg) : bool :=
  existsb (λ a, match a with Str x => String.eqb x s | PathStr _ => false end) cmd.

(** the kind of a command line: the probe tool, or the engine copying the
    video (remux) or encoding it with or without an acceleration
    directive *)
Definition classify (cmd : list Arg) : Invocation :=
  match cmd with
  | Str "ffprobe" :: _ => Probe
  | _ => if has_arg "libx264" cmd
         then if has_arg "-hwaccel" cmd then EncodeHw else EncodeSw
         else Remux
  end.

(** the kinds of the engine invocations among the events, in order *)
Definition engine_runs (evs : list Event) : list Invocation :=
  omap (λ e, match e with
             | Spawn c => match classify c with Probe => None | k => Some k end
             | _ => None
             end) evs.

(** the temp artifact paths handed to the engine, in order *)
Definition artifacts (evs : list Event) : list Path :=
  omap (λ e, match e with
             | Spawn c => match classify c with Probe => None | _ => output_of c end
             | _ => None
             end) evs.

(** the events a call added to the log *)
Definition new_events (w w' : World) : list Event :=
  drop (length (log w)) (log w').

(** the events after the first remux invocation, when that one failed *)
Fixpoint after_failed_remux (evs : list Event) : option (list Event) :=
  match evs with
  | [] => None
  | Spawn c :: rest =>
      match classify c with
      | Remux =>
          match rest with
          | Returned rc :: post => if rc =? 0 then None else Some post
          | Terminate :: Returned rc :: post => if rc =? 0 then None else Some post
          | _ => None
          end
      | _ => after_failed_remux rest
      end
  | _ :: rest => after_failed_remux rest
  end.

(** no artifact of the list is left in the filesystem of [w'] *)
Definition clean (w' : World) (l : list Path) : Prop :=
  Forall (λ t, FS.exists_ t (fs w') = false) l.

(** the engine invocations among the events, each with the temp artifact
    path it writes to *)
Definition attempts (evs : list Event) : list (Invocation * Path) :=
  omap (λ e, match e with
             | Spawn c =>
                 match classify c, output_of c with
                 | Probe, _ => None
                 | k, Some t => Some (k, t)
                 | _, None => None
                 end
             | _ => None
             end) evs.

(** the attempts of one encode stage into [t] *)
Definition encode_attempts (t : Path) (l : list (Invocation * Path)) : Prop :=
  l = [(EncodeHw, t)] ∨ l = [(EncodeSw, t)] ∨ l = [(EncodeHw, t); (EncodeSw, t)].

(** no temp artifact path runs through [q] *)
Definition outside_temp (host : Host) (q : Path) : Prop :=
  ∀ u, ¬ temp_path host u `prefix_of` q.

(** ** Sample hosts and worlds *)

(** a host with a hardware backend on which the user interrupts every
    engine run; the probe reports nothing *)
Definition interrupting_host : Host :=
  {| HWACCEL := Some "vaapi";
     TEMP_DIR := ["tmp"; "Temp"];
     uuid4_hex := λ n, pretty n;
     ffprobe_run := λ _ _, ProbeParsed (JDict ∅);
     engine_run := λ _ _, Ran false Interrupted |}.

(** the same host with an engine that exits with code 130 by itself *)
Definition exit130_host : Host :=
  {| HWACCEL := Some "vaapi";
     TEMP_DIR := ["tmp"; "Temp"];
     uuid4_hex := λ n, pretty n;
     ffprobe_run := λ _ _, ProbeParsed (JDict ∅);
     engine_run := λ _ _, Ran false (Exited 130) |}.

Definition two_files_world : World :=
  {| fs := Dir {[ "tmp" := Dir {[ "Temp" := Dir ∅ ]};
                  "in" := Dir {[ "a.mp4" := File; "b.mp4" := File ]} ]};
     clock := 0; log := [] |}.

Definition two_tasks : list (Path * Path) :=
  [(["in"], ["in"; "a.mp4"]); (["in"], ["in"; "b.mp4"])].

Definition tally0 : Tally := {| done_ := 0; skipped := 0; remuxed := 0; errors := 0 |}.

(** a host whose tools are all missing *)
Definition bare_host : Host :=
  {| HWACCEL := None;
     TEMP_DIR := ["tmp"; "Temp"];
     uuid4_hex := λ n, pretty n;
     ffprobe_run := λ _ _, ProbeRaised OSError;
     engine_run := λ _ _, SpawnFailed |}.

Definition empty_world : World := {| fs := Dir ∅; clock := 0; log := [] |}.

(** a host without a hardware backend whose engine always succeeds; the
    probe reports nothing *)
Definition working_host : Host :=
  {| HWACCEL := None;
     TEMP_DIR := ["tmp"; "Temp"];
     uuid4_hex := λ n, pretty n;
     ffprobe_run := λ _ _, ProbeParsed (JDict ∅);
     engine_run := λ _ _, Ran true (Exited 0) |}.

(** a host with a hardware backend on which every engine run fails, and
    whose probe reports a compliant stream *)
Definition failing_host : Host :=
  {| HWACCEL := Some "vaapi";
     TEMP_DIR := ["tmp"; "Temp"];
     uuid4_hex := λ n, pretty n;
     ffprobe_run := λ _ _,
       ProbeParsed (JDict {[ "streams" :=
         JList [JDict {[ "width" := JInt 640; "height" := JInt 360;
                         "codec_name" := JStr "h264"; "pix_fmt" := JStr "yuv420p" ]}] ]});
     engine_run := λ _ _, Ran true (Exited 1) |}.

(** a world in which the output of in/a.mp4 is already there *)
Definition converted_world : World :=
  {| fs := Dir {[ "tmp" := Dir {[ "Temp" := Dir ∅ ]};
                  "in" := Dir {[ "a.mp4" := File ]};
                  "out" := Dir {[ "in" := Dir {[ "a_480p.mkv" := File ]} ]} ]};
     clock := 0; log := [] |}.

(** a profile the classifier accepts although its codec name is upper case *)
Definition upper_case_profile : gmap string json :=
  {[ "width" := JInt 640; "height" := JInt 360;
     "codec_name" := JStr "H264"; "pix_fmt" := JStr "yuv420p" ]}.

(** ** The summary of a batch *)

(** the number of tasks the summary line accounts for *)
Definition total (t : Tally) : Z := done_ t + skipped t + remuxed t + errors t.

(** the results that are counted: all but the interrupt that ends the loop *)
Definition counted (rs : list (result Outcome)) : list (result Outcome) :=
  List.filter (λ r, match r with Raise KeyboardInterrupt => false | _ => true end) rs.

Definition is_status (f : Status → bool) (r : result Outcome) : bool :=
  match r with Ret (_, _, st) => f st | Raise _ => false end.

Definition tally_of (rs : list (result Outcome)) : Tally :=
  {| done_ := Z.of_nat (length (List.filter
        (is_status (λ st, match st with Encoded => true | _ => false end)) rs));
     skipped := Z.of_nat (length (List.filter
        (is_status (λ st, match st with ExistsSkip => true | _ => false end)) rs));
     remuxed := Z.of_nat (length (List.filter
        (is_status (λ st, match st with RemuxedAudioConverted => true | _ => false end)) rs));
     errors := Z.of_nat (length (List.filter
        (λ r, match r with
              | Ret (_, _, Error _) => true
              | Raise KeyboardInterrupt => false
              | Raise _ => true
              | _ => false
              end) rs)) |}.

Definition tally_add (a b : Tally) : Tally :=
  {| done_ := done_ a + done_ b; skipped := skipped a + skipped b;
     remuxed := remuxed a + remuxed b; errors := errors a + errors b |}.

(** what the prober hands back at a given clock reading *)
Definition probed (host : Host) (path : Path) (c : nat) : result json :=
  (ffprobe_info host path {| fs := Dir ∅; clock := c; log := [] |}).2.

(** a host on which the user interrupts the probe *)
Definition probe_interrupted_host : Host :=
  {| HWACCEL := None;
     TEMP_DIR := ["tmp"; "Temp"];
     uuid4_hex := λ n, pretty n;
     ffprobe_run := λ _ _, ProbeRaised KeyboardInterrupt;
     engine_run := λ _ _, Ran true (Exited 0) |}.

(** ** More Python strings (ASCII text) *)
Module PyText.

(** [c.isspace()] for an ASCII character *)
Definition is_space (c : ascii) : bool :=
  let n := nat_of_ascii c in
  ((Nat.leb 9 n && Nat.leb n 13) || (Nat.leb 28 n && Nat.leb n 32))%bool.

(** [s.lstrip()] *)
Fixpoint lstrip (s : string) : string :=
  match s with
  | String c s' => if is_space c then lstrip s' else s
  | EmptyString => EmptyString
  end.

(** [s.strip()] *)
Definition strip (s : string) : string :=
  PyStr.rev (lstrip (PyStr.rev (lstrip s))).

(** [s.lstrip(ch)] for a one-character set *)
Fixpoint lstrip_char (ch : ascii) (s : string) : string :=
  match s with
  | String c s' => if Ascii.eqb c ch then lstrip_char ch s' else s
  | EmptyString => EmptyString
  end.

(** [s.strip(ch)] for a one-character set *)
Definition strip_char (ch : ascii) (s : string) : string :=
  PyStr.rev (lstrip_char ch (PyStr.rev (lstrip_char ch s))).

(** the characters of [s] up to the first white space *)
Fixpoint first_token (s : string) : string :=
  match s with
  | String c s' => if is_space c then EmptyString else String c (first_token s')
  | EmptyString => EmptyString
  end.

End PyText.

(** ** The capability detector (lines 99-116) *)

(** the names a listing of the engine's backends yields: one per line that
    is not blank and does not start with "hardware" or "available" *)
Definition hwaccels_found (out : list string) : list string :=
  omap (λ ln,
          if (negb (String.eqb (PyText.strip ln) "")
              && negb (PyStr.startswith (PyStr.lower ln) "hardware"
                       || PyStr.startswith (PyStr.lower ln) "available"))%bool
          then Some (PyStr.lower (PyText.first_token (PyText.strip ln)))
          else None) out.

(** the preference order, by platform ([win]: [sys.platform] starts with
    "win") *)
Definition hwaccel_preference (win : bool) : list string :=
  if win then ["d3d11va"; "dxva2"; "qsv"; "cuvid"; "nvdec"; "cuda"; "amf"; "vaapi"]
  else ["vaapi"; "qsv"; "cuvid"; "nvdec"; "cuda"; "d3d11va"; "dxva2"; "amf"].

(** [query]: the lines [ffmpeg -hide_banner -hwaccels] printed, or the
    exception raised while running it *)
Definition detect_hwaccel (win : bool) (query : result (list string))
  : result (option string) :=
  match query with
  | Ret out =>
      let found := hwaccels_found out in
      Ret (List.find (λ p, bool_decide (p ∈ found)) (hwaccel_preference win))
  | Raise e => if is_Exception e then Ret None else Raise e
  end.

(** ** Collecting the sources (lines 32, 58-69) *)

Definition VIDEO_EXTS : list string :=
  [".mkv"; ".mp4"; ".webm"; ".webem"; ".mov"; ".m4v"; ".avi"; ".flv"; ".ts"; ".m2ts";
   ".mts"; ".mxf"; ".dat"].

(** [s[n:]] *)
Fixpoint str_drop (n : nat) (s : string) : string :=
  match n, s with
  | O, _ => s
  | S n', String _ s' => str_drop n' s'
  | S _, EmptyString => EmptyString
  end.

(** [p.suffix]: the last suffix of the final component, with its dot; a
    leading dot or a trailing dot does not start a suffix. *)
Definition suffix (p : Path) : string :=
  let n := PyPath.name p in
  match PyStr.rfind_dot n with
  | Some i => if (Nat.ltb 0 i && Nat.ltb i (String.length n - 1))%bool
              then str_drop i n else ""
  | None => ""
  end.

(** [p.is_file()] *)
Definition is_file (p : Path) (n : Node) : bool :=
  match FS.lookup p n with Some File => true | _ => false end.

Definition is_video_file (path : Path) (n : Node) : bool :=
  (is_file path n && bool_decide (PyStr.lower (suffix path) ∈ VIDEO_EXTS))%bool.

Section Walk.

(** The order in which a directory lists its entries is the system's. *)
Variable scandir_order : ∀ A : Type, list (string * A) → list (string * A).

(** [os.walk(top)] below a directory node, top-down: the directory itself
    with the names of its subdirectories and of its other entries, then the
    subdirectories in the listed order. *)
Fixpoint walk (top : Path) (n : Node) : list (Path * list string * list string) :=
  match n with
  | File => []
  | Dir m =>
      let entries :=
        scandir_order _
          (map_fold (λ k c acc, (k, (kind_of c, walk (top ++ [k]) c)) :: acc) [] m) in
      let dirs := omap (λ e, match e.2.1 with KDir => Some e.1 | KFile => None end) entries in
      let nondirs := omap (λ e, match e.2.1 with KFile => Some e.1 | KDir => None end) entries in
      (top, dirs, nondirs)
        :: flat_map (λ e, match e.2.1 with KDir => e.2.2 | KFile => [] end) entries
  end.

(** [os.walk(root)]: a root that is missing or is no directory cannot be
    listed, and the error is ignored. *)
Definition os_walk (root : Path) (n : Node) : list (Path * list string * list string) :=
  match FS.lookup root n with
  | Some c => walk root c
  | None => []
  end.

Definition collect_video_files (roots : list Path) (n : Node) : list (Path * Path) :=
  flat_map (λ root,
    flat_map (λ '(dirpath, _, filenames),
      omap (λ fn, let p := PyPath.join dirpath fn in
                  if is_video_file p n then Some (root, p) else None) filenames)
      (os_walk root n)) roots.

End Walk.

(** the listing of a directory at [top], each entry with its kind and the
    walk below it *)
Definition entries (scandir_order : ∀ A : Type, list (string * A) → list (string * A))
    (top : Path) (m : gmap string Node) :=
  scandir_order _
    (map_fold (λ k c acc, (k, (kind_of c, walk scandir_order (top ++ [k]) c)) :: acc) [] m).

(** the number of nodes of a tree *)
Fixpoint node_size (n : Node) : nat :=
  match n with
  | File => 1
  | Dir m => S (map_fold (λ _ c acc, node_size c + acc)%nat 0%nat m)
  end.

(** a small tree of sources *)
Definition sample_tree : Node :=
  Dir {[ "in" := Dir {[ "a.MKV" := File; "notes.txt" := File;
                        "s1" := Dir {[ "e1.mp4" := File; ".mkv" := File; "x." := File ]} ]} ]}.

(** ** The prompts and [main] (lines 34-56, 210-242) *)

(** a typed line without the white space around it, then without double
    quotes, then without single quotes at its ends *)
Definition unquote (s : string) : string :=
  PyText.strip_char "'"%char (PyText.strip_char (ascii_of_nat 34) (PyText.strip s)).

(** how a run of [main] ends *)
Inductive MainEnd :=
  | EndOfInput                      (* [input()] raised [EOFError] *)
  | OutputDirError                  (* the output directory could not be made *)
  | NoVideoFiles                    (* "No video files found." *)
  | Summary (t : Tally) (reports : list (result Outcome)).

Section Main.

Variable host : Host.
Variable scandir_order : ∀ A : Type, list (string * A) → list (string * A).
(** [Path.cwd()] *)
Variable cwd : Path.
(** [Path(line).expanduser()], for a non-empty line *)
Variable to_path : string → Path.

(** The loop of [prompt_input_dirs] over the lines left on standard input:
    the directories gathered and the lines not read. At the end of the
    input [input()] raises [EOFError] and the loop stops. *)
Fixpoint read_input_dirs (stdin : list string) (inputs : list Path) (first : bool) (n : Node)
  : list Path * list string :=
  match stdin with
  | [] => (if inputs is [] then [cwd] else inputs, [])
  | raw :: rest =>
      let line := unquote raw in
      if String.eqb line "" then
        if first then ([cwd], rest)
        else (if inputs is [] then [cwd] else inputs, rest)
      else
        let p := to_path line in
        read_input_dirs rest
          (if (FS.exists_ p n && FS.is_dir p n)%bool then inputs ++ [p] else inputs) false n
  end.

Definition prompt_input_dirs (stdin : list string) (n : Node) : list Path * list string :=
  read_input_dirs stdin [] true n.

(** the directories among the paths typed on the given lines *)
Definition typed_dirs (typed : list string) (n : Node) : list Path :=
  List.filter (λ p, FS.is_dir p n) (map (λ l, to_path (unquote l)) typed).

(** [prompt_output_dir]: [None] for the [EOFError] of [input()] at the end
    of the input; otherwise the lines left and the directory, or the
    [OSError] of [mkdir]. *)
Definition prompt_output_dir (stdin : list string) (n : Node)
  : option (list string * option (Path * Node)) :=
  match stdin with
  | [] => None
  | raw :: rest =>
      let out := unquote raw in
      let outp := if String.eqb out "" then cwd else to_path out in
      Some (rest, match FS.mkdir_parents outp n with
                  | Some n' => Some (outp, n')
                  | None => None
                  end)
  end.

(** [main]: the two prompts, the collection on the filesystem as the output
    prompt left it, then the batch loop. What the run prints is not
    modelled; the progress line of line 221 evaluates
    [f.relative_to(root)] outside the [try], which is defined for every
    collected task. An [EOFError] or [OSError] of the output prompt is not
    caught and ends the run. *)
Definition main (stdin : list string) (w : World) : World * MainEnd :=
  let '(inputs, stdin1) := prompt_input_dirs stdin (fs w) in
  match prompt_output_dir stdin1 (fs w) with
  | None => (w, EndOfInput)
  | Some (_, None) => (w, OutputDirError)
  | Some (_, Some (outdir, n1)) =>
      let w1 := set_fs n1 w in
      let tasks := collect_video_files scandir_order inputs (fs w1) in
      if tasks is [] then (w1, NoVideoFiles)
      else
        let '(w2, t, rs) := main_loop host tasks outdir tally0 w1 in
        (w2, Summary t rs)
  end.

End Main.

(** a world with two sources that differ in their extension only *)
Definition same_stem_world : World :=
  {| fs := Dir {[ "tmp" := Dir {[ "Temp" := Dir ∅ ]};
                  "in" := Dir {[ "a.mp4" := File; "a.mkv" := File ]} ]};
     clock := 0; log := [] |}.

Definition same_stem_tasks : list (Path * Path) :=
  [(["in"], ["in"; "a.mp4"]); (["in"], ["in"; "a.mkv"])].

(** * Properties *)

(** ** The compliance classifier *)

Lemma classifier_empty : already_satisfies_480p (JDict ∅) = Ret false.
Proof. reflexivity. Qed.

Lemma lower_or_str s : py_lower (py_or (JStr s) (JStr "")) = Ret (PyStr.lower s).
Proof. destruct s; reflexivity. Qed.

Lemma lower_or_null : py_lower (py_or JNull (JStr "")) = Ret "".
Proof. reflexivity. Qed.

Lemma classifier_on_typed (d : gmap string json) :
  well_typed_profile d → already_satisfies_480p (JDict d) = Ret (compliant d).
Proof.
  intros (Hw & Hh & Hp & Hc).
  unfold already_satisfies_480p, compliant, field_int, field_str, py_get.
  destruct (decide (d = ∅)) as [->|Hne].
  { reflexivity. }
  replace (truthy (JDict d)) with true
    by (simpl; by rewrite bool_decide_eq_false_2).
  cbn [negb].
  destruct Hw as [Hw|[Hw|[w Hw]]], Hh as [Hh|[Hh|[h Hh]]],
           Hp as [Hp|[Hp|[p Hp]]], Hc as [Hc|[Hc|[c Hc]]];
    rewrite Hw, Hh, Hp, Hc; unfold default, id;
    rewrite ?lower_or_str, ?lower_or_null;
    cbn [is_not_None negb py_le]; try reflexivity.
  all: destruct (w <=? 854); [|reflexivity]; destruct (h <=? 480); [|reflexivity];
       cbn [andb]; try reflexivity.
  all: destruct (PyStr.contains "h264" _); reflexivity.
Qed.

Lemma compliant_true_iff (d : gmap string json) :
  compliant d = true ↔
  ∃ w h codec pix,
    field_int d "width" = Some w ∧ field_int d "height" = Some h ∧
    field_str d "codec_name" = Some codec ∧ field_str d "pix_fmt" = Some pix ∧
    w ≤ 854 ∧ h ≤ 480 ∧ PyStr.contains "h264" (PyStr.lower codec) = true ∧
    (PyStr.lower pix = "yuv420p" ∨ PyStr.lower pix = "yuvj420p").
Proof.
  unfold compliant. split.
  - destruct (field_int d "width") as [w|]; [|done].
    destruct (field_int d "height") as [h|]; [|done].
    destruct (field_str d "codec_name") as [c|]; [|done].
    destruct (field_str d "pix_fmt") as [p|]; [|done].
    rewrite !andb_true_iff, orb_true_iff, !bool_decide_eq_true, !Z.leb_le.
    intros [[[? ?] ?] ?]. by exists w, h, c, p.
  - intros (w & h & c & p & -> & -> & -> & -> & ? & ? & ? & ?).
    rewrite !andb_true_iff, orb_true_iff, !bool_decide_eq_true, !Z.leb_le. done.
Qed.

(** C4, as amended: on a profile whose fields are missing or of their type,
    the classifier returns true exactly when width and height are present
    with width ≤ 854 and height ≤ 480, the lowercased codec name contains
    "h264" and the lowercased pixel format is yuv420p or yuvj420p; a missing
    field gives false. *)
Theorem classifier_iff_lowercased (d : gmap string json) :
  well_typed_profile d →
  ∃ b, already_satisfies_480p (JDict d) = Ret b ∧
    (b = true ↔
     ∃ w h codec pix,
       field_int d "width" = Some w ∧ field_int d "height" = Some h ∧
       field_str d "codec_name" = Some codec ∧ field_str d "pix_fmt" = Some pix ∧
       w ≤ 854 ∧ h ≤ 480 ∧ PyStr.contains "h264" (PyStr.lower codec) = true ∧
       (PyStr.lower pix = "yuv420p" ∨ PyStr.lower pix = "yuvj420p")).
Proof.
  intros Hd. exists (compliant d). split.
  - by apply classifier_on_typed.
  - apply compliant_true_iff.
Qed.

Lemma classifier_iff_lowercased_witness :
  ∃ b, already_satisfies_480p (JDict upper_case_profile) = Ret b ∧
    (b = true ↔
     ∃ w h codec pix,
       field_int upper_case_profile "width" = Some w ∧
       field_int upper_case_profile "height" = Some h ∧
       field_str upper_case_profile "codec_name" = Some codec ∧
       field_str upper_case_profile "pix_fmt" = Some pix ∧
       w ≤ 854 ∧ h ≤ 480 ∧ PyStr.contains "h264" (PyStr.lower codec) = true ∧
       (PyStr.lower pix = "yuv420p" ∨ PyStr.lower pix = "yuvj420p")).
Proof.
  apply (classifier_iff_lowercased upper_case_profile).
  repeat split; right; right; eexists; vm_compute; reflexivity.
Defined.

(** C4 as stated fails: the codec name "H264" does not contain "h264", yet
    the classifier accepts the profile. *)
Lemma classifier_accepts_upper_case :
  ¬ (already_satisfies_480p (JDict upper_case_profile) = Ret true ↔
     spec_compliant upper_case_profile = true).
Proof.
  intros [H _].
  assert (E : already_satisfies_480p (JDict upper_case_profile) = Ret true)
    by (vm_compute; reflexivity).
  apply H in E. vm_compute in E. discriminate.
Qed.

(** ** The scaling rule *)

Lemma inject_Z_pos z : 0 < z → (0 < inject_Z z)%Q.
Proof. intros H. unfold Qlt. simpl. lia. Qed.

Lemma spec_scale_pos iw ih : 0 < iw → 0 < ih → (0 < spec_scale iw ih)%Q.
Proof.
  intros Hw Hh. unfold spec_scale.
  apply Q.min_glb_lt; apply Qlt_shift_div_l; try (by apply inject_Z_pos);
    rewrite Qmult_0_l; by apply inject_Z_pos.
Qed.

Lemma scaled_w_le iw ih : 0 < iw → 0 < ih →
  (inject_Z iw * spec_scale iw ih <= inject_Z 854)%Q.
Proof.
  intros Hw Hh.
  assert (E : (inject_Z 854 == inject_Z iw * (inject_Z 854 / inject_Z iw))%Q).
  { field. intros E. apply inject_Z_pos in Hw. rewrite E in Hw. by apply Qlt_irrefl in Hw. }
  rewrite E. apply Qmult_le_l; [by apply inject_Z_pos|]. apply Q.le_min_l.
Qed.

Lemma scaled_h_le iw ih : 0 < iw → 0 < ih →
  (inject_Z ih * spec_scale iw ih <= inject_Z 480)%Q.
Proof.
  intros Hw Hh.
  assert (E : (inject_Z 480 == inject_Z ih * (inject_Z 480 / inject_Z ih))%Q).
  { field. intros E. apply inject_Z_pos in Hh. rewrite E in Hh. by apply Qlt_irrefl in Hh. }
  rewrite E. apply Qmult_le_l; [by apply inject_Z_pos|]. apply Q.le_min_r.
Qed.

Lemma Qtrunc_floor q : (0 <= q)%Q → Qtrunc q = inject_Z (Qfloor q).
Proof.
  intros H. unfold Qtrunc, Qfloor. destruct q as [n d]. simpl.
  unfold Qle in H. simpl in H. f_equal. apply Z.quot_div_nonneg; lia.
Qed.

Lemma half_nonneg q : (0 <= q)%Q → (0 <= q / inject_Z 2)%Q.
Proof. intros H. apply Qle_shift_div_l; [done|]. by rewrite Qmult_0_l. Qed.

Lemma floor_half_bounds q b :
  (0 <= q)%Q → (q <= inject_Z (2 * b))%Q →
  0 ≤ 2 * Qfloor (q / inject_Z 2) ≤ 2 * b ∧ (inject_Z (2 * Qfloor (q / inject_Z 2)) <= q)%Q.
Proof.
  intros H0 Hb. split; [split|].
  - assert (0 ≤ Qfloor (q / inject_Z 2)); [|lia].
    change 0 with (Qfloor (inject_Z 0)) at 1. apply Qfloor_resp_le. by apply half_nonneg.
  - assert (Qfloor (q / inject_Z 2) ≤ b); [|lia].
    rewrite <- (Qfloor_Z b). apply Qfloor_resp_le.
    apply Qle_shift_div_r; [done|]. by rewrite <- inject_Z_mult, Z.mul_comm.
  - rewrite inject_Z_mult.
    assert (E : (q == inject_Z 2 * (q / inject_Z 2))%Q) by (field; done).
    rewrite E at 2. apply Qmult_le_l; [done|]. apply Qfloor_le.
Qed.

Lemma vf_chain_show :
  vf_chain = "scale=" +:+ show scale_w +:+ ":" +:+ show scale_h +:+ ",setsar=1".
Proof. vm_compute. reflexivity. Qed.

Lemma vf_of_build i o h :
  ∃ pre post, build_ffmpeg_command i o h = pre ++ [Str "-vf"; Str vf_chain] ++ post.
Proof.
  destruct (truthy_opt h) eqn:E.
  - exists (take 23 (build_ffmpeg_command i o h)), (drop 25 (build_ffmpeg_command i o h)).
    destruct h as [s|]; [|done]. unfold build_ffmpeg_command. simpl in E.
    destruct (String.eqb s ""); [done|]. reflexivity.
  - exists (take 21 (build_ffmpeg_command i o h)), (drop 23 (build_ffmpeg_command i o h)).
    unfold build_ffmpeg_command.
    destruct h as [s|]; [|reflexivity]. simpl in E.
    destruct (String.eqb s ""); [|done]. reflexivity.
Qed.

Lemma eval_scale_w iw ih : 0 < iw → 0 < ih →
  (eval iw ih scale_w == inject_Z (spec_out_w iw ih))%Q.
Proof.
  intros Hw Hh. unfold spec_out_w. cbn [eval scale_w fit].
  fold (spec_scale iw ih). rewrite Qtrunc_floor.
  - by rewrite inject_Z_mult, Qmult_comm.
  - apply half_nonneg. apply Qmult_le_0_compat.
    + apply Qlt_le_weak. by apply inject_Z_pos.
    + apply Qlt_le_weak. by apply spec_scale_pos.
Qed.

Lemma eval_scale_h iw ih : 0 < iw → 0 < ih →
  (eval iw ih scale_h == inject_Z (spec_out_h iw ih))%Q.
Proof.
  intros Hw Hh. unfold spec_out_h. cbn [eval scale_h fit].
  fold (spec_scale iw ih). rewrite Qtrunc_floor.
  - by rewrite inject_Z_mult, Qmult_comm.
  - apply half_nonneg. apply Qmult_le_0_compat.
    + apply Qlt_le_weak. by apply inject_Z_pos.
    + apply Qlt_le_weak. by apply spec_scale_pos.
Qed.

Lemma Qfloor_frac a b : 0 < b → Qfloor (inject_Z a / inject_Z b) = a / b.
Proof.
  intros Hb. destruct b as [|b|b]; try lia.
  assert (E : (inject_Z a / inject_Z (Z.pos b) == a # b)%Q).
  { unfold Qeq, Qdiv, Qmult, Qinv, inject_Z. simpl. lia. }
  rewrite E. reflexivity.
Qed.

Lemma scale_cases iw ih : 0 < iw → 0 < ih →
  (854 * ih ≤ 480 * iw ∧ (spec_scale iw ih == inject_Z 854 / inject_Z iw)%Q) ∨
  (480 * iw < 854 * ih ∧ (spec_scale iw ih == inject_Z 480 / inject_Z ih)%Q).
Proof.
  intros Hw Hh. unfold spec_scale.
  destruct iw as [|iw|iw], ih as [|ih|ih]; try lia.
  destruct (Q.min_spec (inject_Z 854 / inject_Z (Z.pos iw)) (inject_Z 480 / inject_Z (Z.pos ih)))
    as [[Hlt E]|[Hle E]].
  - left. split; [|exact E]. revert Hlt. unfold Qlt, Qdiv, Qmult, Qinv, inject_Z. simpl. lia.
  - destruct (Z_le_gt_dec (854 * Z.pos ih) (480 * Z.pos iw)) as [L|G].
    + left. split; [exact L|]. rewrite E.
      revert Hle. unfold Qle, Qeq, Qdiv, Qmult, Qinv, inject_Z. simpl. lia.
    + right. split; [lia|exact E].
Qed.

Lemma spec_out_closed iw ih : 0 < iw → 0 < ih →
  (854 * ih ≤ 480 * iw ∧ spec_out_w iw ih = 854 ∧ spec_out_h iw ih = 2 * ((854 * ih) / (2 * iw))) ∨
  (480 * iw < 854 * ih ∧ spec_out_w iw ih = 2 * ((480 * iw) / (2 * ih)) ∧ spec_out_h iw ih = 480).
Proof.
  intros Hw Hh.
  assert (Nw : ¬ (inject_Z iw == 0)%Q) by (unfold Qeq; simpl; lia).
  assert (Nh : ¬ (inject_Z ih == 0)%Q) by (unfold Qeq; simpl; lia).
  unfold spec_out_w, spec_out_h.
  destruct (scale_cases iw ih Hw Hh) as [[L E]|[L E]]; [left|right]; (split; [exact L|]);
    rewrite E.
  - split.
    + assert (X : (inject_Z iw * (inject_Z 854 / inject_Z iw) / inject_Z 2 == inject_Z 427)%Q)
        by (field; done).
      rewrite X. by rewrite Qfloor_Z.
    + assert (X : (inject_Z ih * (inject_Z 854 / inject_Z iw) / inject_Z 2
                   == inject_Z (854 * ih) / inject_Z (2 * iw))%Q)
        by (rewrite !inject_Z_mult; field; done).
      rewrite X. rewrite Qfloor_frac by lia. done.
  - split.
    + assert (X : (inject_Z iw * (inject_Z 480 / inject_Z ih) / inject_Z 2
                   == inject_Z (480 * iw) / inject_Z (2 * ih))%Q)
        by (rewrite !inject_Z_mult; field; done).
      rewrite X. rewrite Qfloor_frac by lia. done.
    + assert (X : (inject_Z ih * (inject_Z 480 / inject_Z ih) / inject_Z 2 == inject_Z 240)%Q)
        by (field; done).
      rewrite X. by rewrite Qfloor_Z.
Qed.



Example scale_1920_1080 : (spec_out_w 1920 1080, spec_out_h 1920 1080) = (852, 480).
Proof. vm_compute. reflexivity. Qed.

(** ** The stream prober *)

Lemma first_stream_none (data : json) :
  has_first_stream data = false →
  match py_get data "streams" with
  | Ret v => if truthy (py_or v (JList [])) then
               match py_index0 (py_or v (JList [])) with
               | Ret _ => false
               | Raise e => is_Exception e
               end
             else true
  | Raise e => is_Exception e
  end = true.
Proof.
  destruct data as [| | | | |d]; try reflexivity.
  simpl. destruct (d !! "streams") as [[|b|z|s|l|d']|]; simpl; try done.
  - by destruct b.
  - by destruct z.
  - by destruct s.
  - by destruct l.
  - intros _. unfold py_or. destruct (truthy (JDict d')) eqn:E; [by rewrite E|done].
Qed.

(** C8: unless the user interrupts it, the prober returns a value for every
    file; on every probe failure (the tool cannot be run or exits with an
    error, its output cannot be decoded or parsed, or it reports no stream)
    that value is the empty profile. *)
Theorem ffprobe_info_never_raises (host : Host) (path : Path) (w : World) :
  ffprobe_run host (clock w) (ffprobe_command path) ≠ ProbeRaised KeyboardInterrupt →
  (∃ v, (ffprobe_info host path w).2 = Ret v) ∧
  (probe_failure (ffprobe_run host (clock w) (ffprobe_command path)) = true →
   (ffprobe_info host path w).2 = Ret (JDict ∅)).
Proof.
  intros Hk.
  unfold ffprobe_info, try_except_Exception, bind, probe_json, lift, ret.
  destruct (ffprobe_run host (clock w) (ffprobe_command path)) as [e|data].
  - destruct e; try done; simpl; eauto.
  - simpl. destruct (has_first_stream data) eqn:Hs.
    + split; [|done].
      destruct data as [| | | | |d]; try done. simpl in *.
      destruct (d !! "streams") as [[|b|z|s|[|x l]|d']|]; try done; simpl.
      * destruct s; [done|]. simpl. eauto.
      * eauto.
    + apply first_stream_none in Hs.
      destruct (py_get data "streams") as [v|e]; simpl.
      * destruct (truthy (py_or v (JList []))).
        -- destruct (py_index0 (py_or v (JList []))) as [x|e]; [done|].
           simpl. rewrite Hs. simpl. eauto.
        -- simpl. eauto.
      * rewrite Hs. simpl. eauto.
Qed.

Lemma ffprobe_info_never_raises_witness :
  (∃ v, (ffprobe_info bare_host ["in"; "a.mp4"] empty_world).2 = Ret v) ∧
  (probe_failure (ffprobe_run bare_host (clock empty_world)
                    (ffprobe_command ["in"; "a.mp4"])) = true →
   (ffprobe_info bare_host ["in"; "a.mp4"] empty_world).2 = Ret (JDict ∅)).
Proof.
  apply (ffprobe_info_never_raises bare_host ["in"; "a.mp4"] empty_world).
  simpl. discriminate.
Defined.

(** ** Strings and output naming *)

Lemma append_cons (x : ascii) (a b : string) : String x a +:+ b = String x (a +:+ b).
Proof. reflexivity. Qed.

Lemma append_assoc (a b c : string) : (a +:+ b) +:+ c = a +:+ (b +:+ c).
Proof. induction a as [|x a IH]; [done|]. by rewrite !append_cons, IH. Qed.

Lemma append_nil_r (a : string) : a +:+ "" = a.
Proof. induction a as [|x a IH]; [done|]. by rewrite append_cons, IH. Qed.

Lemma rev_append (a b : string) : PyStr.rev (a +:+ b) = PyStr.rev b +:+ PyStr.rev a.
Proof.
  induction a as [|x a IH].
  - change ("" +:+ b) with b. by rewrite append_nil_r.
  - rewrite append_cons. simpl. by rewrite IH, append_assoc.
Qed.

Lemma rev_involutive (a : string) : PyStr.rev (PyStr.rev a) = a.
Proof.
  induction a as [|x a IH]; simpl; [done|].
  by rewrite rev_append, IH.
Qed.

Lemma startswith_spec (s pre : string) :
  PyStr.startswith s pre = true ↔ ∃ r, s = pre +:+ r.
Proof.
  revert s. induction pre as [|c pre IH]; intros s; simpl.
  - split; [by exists s | by destruct s].
  - destruct s as [|d s].
    + split; [done|]. by intros [r ?].
    + simpl. destruct (Ascii.eqb c d) eqn:Ecd.
      * apply Ascii.eqb_eq in Ecd. subst d. rewrite IH.
        split; intros [r E]; exists r; [by rewrite E | by injection E].
      * apply Ascii.eqb_neq in Ecd. split; [done|].
        intros [r E]. injection E as E1 E2. done.
Qed.

Lemma endswith_spec (s suf : string) :
  PyStr.endswith s suf = true ↔ ∃ a, s = a +:+ suf.
Proof.
  unfold PyStr.endswith. rewrite startswith_spec. split.
  - intros [r E]. exists (PyStr.rev r).
    rewrite <- (rev_involutive s), E, rev_append. by rewrite rev_involutive.
  - intros [a ->]. exists (PyStr.rev a). by rewrite rev_append.
Qed.

Lemma base_with_suffix_ends (base suffix : string) :
  ∃ a, base_with_suffix base suffix = a +:+ suffix.
Proof.
  unfold base_with_suffix. destruct (PyStr.endswith base suffix) eqn:E.
  - by apply endswith_spec.
  - by exists base.
Qed.

(** a temp artifact is never named like an output file *)
Lemma temp_name_not_output_name (u base : string) :
  u +:+ ".tmp.mkv" ≠ base_with_suffix base "_480p" +:+ ".mkv".
Proof.
  destruct (base_with_suffix_ends base "_480p") as [a ->].
  intros E. apply (f_equal PyStr.rev) in E.
  rewrite !rev_append in E. vm_compute in E. discriminate.
Qed.

Lemma join_nonempty (p : Path) (s : string) : s ≠ "" → PyPath.join p s = p ++ [s].
Proof. intros H. unfold PyPath.join. by destruct (decide (s = "")). Qed.

Lemma append_nonempty (a b : string) : b ≠ "" → a +:+ b ≠ "".
Proof. intros H. destruct a; [done|]. rewrite append_cons. discriminate. Qed.

Lemma make_output_path_run (in_file in_root out_root rel : Path) :
  PyPath.relative_to in_file in_root = Some rel →
  let dir := PyPath.join out_root (PyPath.name in_root) ++ PyPath.parent rel in
  let file := if PyStr.endswith (PyPath.stem rel) "_480p"
              then PyPath.stem rel +:+ ".mkv"
              else PyPath.stem rel +:+ "_480p.mkv" in
  ∀ w,
    match FS.mkdir_parents dir (fs w) with
    | Some n => make_output_path in_file in_root out_root w = (set_fs n w, Ret (dir ++ [file]))
    | None => make_output_path in_file in_root out_root w = (w, Raise OSError)
    end.
Proof.
  intros Hrel dir file w.
  unfold make_output_path, bind, fs_op, ret. rewrite Hrel.
  unfold PyPath.join_path. fold dir.
  destruct (FS.mkdir_parents dir (fs w)) as [n|]; [|done].
  rewrite join_nonempty by (apply append_nonempty; discriminate).
  do 3 f_equal. unfold file, base_with_suffix.
  destruct (PyStr.endswith (PyPath.stem rel) "_480p"); [done|].
  by rewrite append_assoc.
Qed.

(** C9, as amended: for a source file under its root the output path is
    <output_root>/<root_name>/<relative_dir>/<stem>_480p.mkv, except that a
    stem which already ends in "_480p" is not suffixed again (the file is
    then <stem>.mkv); the path depends on the task alone: in every world
    the call either returns this path, having created the directory, or
    raises because a component of the directory is a regular file. *)
Theorem make_output_path_deterministic (in_file in_root out_root rel : Path) :
  PyPath.relative_to in_file in_root = Some rel →
  let dir := PyPath.join out_root (PyPath.name in_root) ++ PyPath.parent rel in
  let file := if PyStr.endswith (PyPath.stem rel) "_480p"
              then PyPath.stem rel +:+ ".mkv"
              else PyPath.stem rel +:+ "_480p.mkv" in
  ∀ w,
    match FS.mkdir_parents dir (fs w) with
    | Some n => make_output_path in_file in_root out_root w = (set_fs n w, Ret (dir ++ [file]))
    | None => make_output_path in_file in_root out_root w = (w, Raise OSError)
    end.
Proof. apply make_output_path_run. Qed.

Lemma make_output_path_deterministic_witness :
  make_output_path ["in"; "s1"; "ep.mp4"] ["in"] ["out"] empty_world
  = (set_fs (Dir {[ "out" := Dir {[ "in" := Dir {[ "s1" := Dir ∅ ]} ]} ]}) empty_world,
     Ret ["out"; "in"; "s1"; "ep_480p.mkv"]).
Proof.
  exact (make_output_path_deterministic ["in"; "s1"; "ep.mp4"] ["in"] ["out"] ["s1"; "ep.mp4"]
           eq_refl empty_world).
Defined.

(** C9 as stated fails on a file whose stem already ends in "_480p": the
    output is ep_480p.mkv, not ep_480p_480p.mkv. *)
Lemma output_path_not_suffixed_twice :
  (make_output_path ["in"; "ep_480p.mp4"] ["in"] ["out"] empty_world).2
  = Ret ["out"; "in"; "ep_480p.mkv"] ∧
  spec_output_path ["in"; "ep_480p.mp4"] ["in"] ["out"]
  = Some ["out"; "in"; "ep_480p_480p.mkv"].
Proof. split; vm_compute; reflexivity. Qed.

(** ** User cancellation *)

(** C7 (the code departs from it): the user interrupts every engine run of
    a batch of two files. Each interrupted process is terminated, but
    [run_cmd] hands back 130 like an exit code: the hardware attempt is
    followed by the software fallback, the task is reported as error(130),
    exactly as when the engine itself exits with 130, and the loop goes on
    to the second file. *)
Theorem interrupt_is_swallowed :
  let '(w, t, rs) := main_loop interrupting_host two_tasks ["out"] tally0 two_files_world in
  rs = [Ret (["in"; "a.mp4"], ["out"; "in"; "a_480p.mkv"], Error 130);
        Ret (["in"; "b.mp4"], ["out"; "in"; "b_480p.mkv"], Error 130)] ∧
  errors t = 2 ∧
  length (spawned (log w)) = 6%nat ∧
  terminations (log w) = 4%nat ∧
  rs = (main_loop exit130_host two_tasks ["out"] tally0 two_files_world).2.
Proof. vm_compute. repeat split; reflexivity. Qed.

(** ** The filesystem *)

Lemma exists_kind p n :
  FS.exists_ p n = match kind p n with Some _ => true | None => false end.
Proof. unfold FS.exists_, kind. by destruct (FS.lookup p n). Qed.

Lemma is_dir_kind p n :
  FS.is_dir p n = match kind p n with Some KDir => true | _ => false end.
Proof. unfold FS.is_dir, kind. by destruct (FS.lookup p n) as [[|m]|]. Qed.

Lemma lookup_app p q n :
  FS.lookup (p ++ q) n = FS.lookup p n ≫= FS.lookup q.
Proof.
  revert n. induction p as [|k p IH]; intros n; simpl; [done|].
  destruct n as [|m]; [done|]. destruct (m !! k); [apply IH|done].
Qed.

Lemma lookup_file_below p r n :
  FS.lookup p n = Some File → r ≠ [] → FS.lookup (p ++ r) n = None.
Proof. intros H Hr. rewrite lookup_app, H. simpl. by destruct r. Qed.

Lemma lookup_none_below p r n : FS.lookup p n = None → FS.lookup (p ++ r) n = None.
Proof. intros H. by rewrite lookup_app, H. Qed.

Lemma exists_prefix p q n : p `prefix_of` q → FS.exists_ q n = true → FS.exists_ p n = true.
Proof.
  intros [r ->]. unfold FS.exists_. rewrite lookup_app.
  by destruct (FS.lookup p n).
Qed.

Lemma kind_root_dir m : kind [] (Dir m) = Some KDir.
Proof. done. Qed.

Lemma kind_cons k q (m : gmap string Node) :
  kind (k :: q) (Dir m) = match m !! k with Some c => kind q c | None => None end.
Proof. unfold kind. simpl. by destruct (m !! k). Qed.

Lemma prefix_cons_inv (k : string) (p q : Path) : (k :: p) `prefix_of` (k :: q) ↔ p `prefix_of` q.
Proof.
  split; intros [r E]; exists r; [by injection E | by rewrite E].
Qed.

(** *** put *)
Lemma put_cons k p x (m : gmap string Node) :
  p ≠ [] →
  FS.put (k :: p) x (Dir m) =
  match m !! k with
  | Some c => match FS.put p x c with Some c' => Some (Dir (<[k := c']> m)) | None => None end
  | None => None
  end.
Proof. intros H. destruct p; [done|]. reflexivity. Qed.

Lemma put_lookup p x n n' : FS.put p x n = Some n' → FS.lookup p n' = Some x.
Proof.
  revert n n'. induction p as [|k p IH]; intros n n' H; [done|].
  destruct n as [|m]; [by destruct p|].
  destruct p as [|k' p'].
  - simpl in H. injection H as <-. simpl. by rewrite lookup_insert_eq.
  - rewrite put_cons in H by done. destruct (m !! k) as [c|]; [|done].
    destruct (FS.put (k' :: p') x c) as [c'|] eqn:E; [|done].
    injection H as <-. change (FS.lookup (k :: k' :: p') (Dir (<[k:=c']> m)))
      with (match <[k:=c']> m !! k with Some c => FS.lookup (k' :: p') c | None => None end).
    rewrite lookup_insert_eq. by apply IH in E.
Qed.

Lemma put_kind_frame p x n n' q :
  FS.put p x n = Some n' → ¬ p `prefix_of` q → kind q n' = kind q n.
Proof.
  revert n n' q. induction p as [|k p IH]; intros n n' q H Hq; [done|].
  destruct n as [|m]; [by destruct p|].
  destruct p as [|k' p'].
  - simpl in H. injection H as <-. destruct q as [|j q]; [done|].
    rewrite !kind_cons. destruct (decide (k = j)) as [->|Hne].
    + exfalso. apply Hq. by exists q.
    + by rewrite lookup_insert_ne.
  - rewrite put_cons in H by done. destruct (m !! k) as [c|] eqn:Ek; [|done].
    destruct (FS.put (k' :: p') x c) as [c'|] eqn:E; [|done].
    injection H as <-. destruct q as [|j q]; [done|].
    rewrite !kind_cons. destruct (decide (k = j)) as [->|Hne].
    + rewrite lookup_insert_eq, Ek. eapply IH; [done|].
      intros Hp. apply Hq. by apply prefix_cons_inv.
    + by rewrite lookup_insert_ne.
Qed.

(** *** detach *)
Lemma detach_cons k p (m : gmap string Node) :
  p ≠ [] →
  FS.detach (k :: p) (Dir m) =
  match m !! k with
  | Some c => match FS.detach p c with
              | Some (x, c') => Some (x, Dir (<[k := c']> m))
              | None => None
              end
  | None => None
  end.
Proof. intros H. destruct p; [done|]. reflexivity. Qed.

Lemma detach_lookup p x n n' : FS.detach p n = Some (x, n') → FS.lookup p n = Some x.
Proof.
  revert n n'. induction p as [|k p IH]; intros n n' H; [by destruct n|].
  destruct n as [|m]; [by destruct p|].
  destruct p as [|k' p'].
  - simpl in *. destruct (m !! k); [|done]. by injection H as -> _.
  - rewrite detach_cons in H by done. simpl. destruct (m !! k) as [c|]; [|done].
    destruct (FS.detach (k' :: p') c) as [[y c']|] eqn:E; [|done].
    injection H as -> _. by apply IH in E.
Qed.

Lemma detach_gone p x n n' r : FS.detach p n = Some (x, n') → FS.lookup (p ++ r) n' = None.
Proof.
  revert x n n'. induction p as [|k p IH]; intros x n n' H; [by destruct n|].
  destruct n as [|m]; [by destruct p|].
  destruct p as [|k' p'].
  - simpl in *. destruct (m !! k); [|done]. injection H as _ <-.
    by rewrite lookup_delete_eq.
  - rewrite detach_cons in H by done. destruct (m !! k) as [c|]; [|done].
    destruct (FS.detach (k' :: p') c) as [[y c']|] eqn:E; [|done].
    injection H as _ <-.
    change (FS.lookup ((k :: k' :: p') ++ r) (Dir (<[k:=c']> m)))
      with (match <[k:=c']> m !! k with
            | Some c => FS.lookup ((k' :: p') ++ r) c | None => None end).
    rewrite lookup_insert_eq. by apply IH in E.
Qed.

Lemma detach_kind_frame p x n n' q :
  FS.detach p n = Some (x, n') → ¬ p `prefix_of` q → kind q n' = kind q n.
Proof.
  revert x n n' q. induction p as [|k p IH]; intros x n n' q H Hq; [by destruct n|].
  destruct n as [|m]; [by destruct p|].
  destruct p as [|k' p'].
  - simpl in H. destruct (m !! k) eqn:Ek; [|done]. injection H as _ <-.
    destruct q as [|j q]; [done|].
    rewrite !kind_cons. destruct (decide (k = j)) as [->|Hne].
    + exfalso. apply Hq. by exists q.
    + by rewrite lookup_delete_ne.
  - rewrite detach_cons in H by done. destruct (m !! k) as [c|] eqn:Ek; [|done].
    destruct (FS.detach (k' :: p') c) as [[y c']|] eqn:E; [|done].
    injection H as _ <-. destruct q as [|j q]; [done|].
    rewrite !kind_cons. destruct (decide (k = j)) as [->|Hne].
    + rewrite lookup_insert_eq, Ek. eapply IH; [done|].
      intros Hp. apply Hq. by apply prefix_cons_inv.
    + by rewrite lookup_insert_ne.
Qed.

Lemma kind_app p r n : kind (p ++ r) n = FS.lookup p n ≫= kind r.
Proof. unfold kind. rewrite lookup_app. by destruct (FS.lookup p n). Qed.

Lemma kind_below_not_dir p r n : kind p n ≠ Some KDir → r ≠ [] → kind (p ++ r) n = None.
Proof.
  intros H Hr. rewrite kind_app. unfold kind in H.
  destruct (FS.lookup p n) as [[|m]|]; simpl in *; try done. by destruct r.
Qed.

Lemma kind_prefix_dir p q n k :
  p `prefix_of` q → p ≠ q → kind q n = Some k → kind p n = Some KDir.
Proof.
  intros [r ->] Hne H. destruct (decide (kind p n = Some KDir)) as [|Hn]; [done|].
  rewrite kind_below_not_dir in H; [done|done|]. intros ->. by rewrite app_nil_r in Hne.
Qed.

(** *** mkdir *)
Lemma kind_chain q p k : kind q (FS.chain p) = Some k → q `prefix_of` p ∧ k = KDir.
Proof.
  revert q. induction p as [|j p IH]; intros q H.
  - destruct q as [|i q]; simpl in *; [injection H as <-; split; [by exists []|done]|].
    rewrite kind_cons, lookup_empty in H. done.
  - destruct q as [|i q]; [injection H as <-; split; [by exists (j :: p)|done]|].
    simpl in H. rewrite kind_cons in H.
    destruct (decide (j = i)) as [->|Hne].
    + rewrite lookup_singleton_eq in H. apply IH in H as [Hp ->].
      split; [by apply prefix_cons_inv|done].
    + by rewrite lookup_singleton_ne in H.
Qed.

Lemma kind_chain_self p : kind p (FS.chain p) = Some KDir.
Proof.
  induction p as [|j p IH]; [done|]. simpl. rewrite kind_cons.
  by rewrite lookup_singleton_eq.
Qed.

Lemma mkdir_id p n : kind p n = Some KDir → FS.mkdir_parents p n = Some n.
Proof.
  revert n. induction p as [|k p IH]; intros n H.
  - by destruct n.
  - destruct n as [|m]; [done|]. rewrite kind_cons in H. simpl.
    destruct (m !! k) as [c|] eqn:Ek; [|done].
    rewrite (IH c H). by rewrite insert_id.
Qed.

Lemma mkdir_is_dir p n n' : FS.mkdir_parents p n = Some n' → kind p n' = Some KDir.
Proof.
  revert n n'. induction p as [|k p IH]; intros n n' H.
  - destruct n; [done|]. by injection H as <-.
  - destruct n as [|m]; [done|]. simpl in H.
    destruct (m !! k) as [c|] eqn:Ek.
    + destruct (FS.mkdir_parents p c) as [c'|] eqn:E; [|done]. injection H as <-.
      rewrite kind_cons, lookup_insert_eq. by apply IH in E.
    + injection H as <-. rewrite kind_cons, lookup_insert_eq. apply kind_chain_self.
Qed.

Lemma mkdir_kind_mono p n n' q k :
  FS.mkdir_parents p n = Some n' → kind q n = Some k → kind q n' = Some k.
Proof.
  revert n n' q. induction p as [|j p IH]; intros n n' q H Hq.
  - destruct n; [done|]. by injection H as <-.
  - destruct n as [|m]; [done|]. simpl in H.
    destruct q as [|i q]; [by destruct (m !! j) as [c|]; [destruct (FS.mkdir_parents p c)|];
                             simplify_eq|].
    rewrite kind_cons in Hq.
    destruct (m !! j) as [c|] eqn:Ej.
    + destruct (FS.mkdir_parents p c) as [c'|] eqn:E; [|done]. injection H as <-.
      rewrite kind_cons. destruct (decide (j = i)) as [->|Hne].
      * rewrite lookup_insert_eq. rewrite Ej in Hq. by eapply IH.
      * by rewrite lookup_insert_ne.
    + injection H as <-. rewrite kind_cons. destruct (decide (j = i)) as [->|Hne].
      * by rewrite Ej in Hq.
      * by rewrite lookup_insert_ne.
Qed.

Lemma mkdir_kind_new p n n' q k :
  FS.mkdir_parents p n = Some n' → kind q n' = Some k →
  kind q n = Some k ∨ (q `prefix_of` p ∧ k = KDir).
Proof.
  revert n n' q. induction p as [|j p IH]; intros n n' q H Hq.
  - destruct n; [done|]. injection H as <-. by left.
  - destruct n as [|m]; [done|]. simpl in H.
    destruct q as [|i q].
    { left. by destruct (m !! j) as [c|]; [destruct (FS.mkdir_parents p c)|]; simplify_eq. }
    destruct (m !! j) as [c|] eqn:Ej.
    + destruct (FS.mkdir_parents p c) as [c'|] eqn:E; [|done]. injection H as <-.
      rewrite kind_cons in Hq. rewrite kind_cons.
      destruct (decide (j = i)) as [->|Hne].
      * rewrite lookup_insert_eq in Hq. rewrite Ej.
        destruct (IH _ _ _ E Hq) as [?|[? ?]]; [by left|right].
        split; [by apply prefix_cons_inv|done].
      * rewrite lookup_insert_ne in Hq by done. by left.
    + injection H as <-. rewrite kind_cons in Hq. rewrite kind_cons.
      destruct (decide (j = i)) as [->|Hne].
      * rewrite lookup_insert_eq in Hq. apply kind_chain in Hq as [? ?].
        right. split; [by apply prefix_cons_inv|done].
      * rewrite lookup_insert_ne in Hq by done. by left.
Qed.

Lemma kind_prefix_some p q n k :
  p `prefix_of` q → kind q n = Some k → is_Some (kind p n).
Proof.
  intros [r ->] H. rewrite kind_app in H. unfold kind.
  destruct (FS.lookup p n); [eauto|done].
Qed.

Lemma put_kind_self p x n n' : FS.put p x n = Some n' → kind p n' = Some (kind_of x).
Proof. intros H. unfold kind. by rewrite (put_lookup _ _ _ _ H). Qed.

(** *** write_file *)
Lemma write_file_kind_other t n q : q ≠ t → kind q (FS.write_file t n) = kind q n.
Proof.
  intros Hq. unfold FS.write_file. rewrite is_dir_kind.
  destruct (kind t n) as [[|]|] eqn:Et; try done.
  - destruct (FS.put t File n) as [n'|] eqn:E; [|done].
    destruct (decide (t `prefix_of` q)) as [[r ->]|Hp]; [|by eapply put_kind_frame].
    assert (r ≠ []) by (intros ->; by rewrite app_nil_r in Hq).
    rewrite (kind_below_not_dir t r n) by (done || congruence).
    rewrite kind_app, (put_lookup _ _ _ _ E). simpl. by destruct r.
  - destruct (FS.put t File n) as [n'|] eqn:E; [|done].
    destruct (decide (t `prefix_of` q)) as [[r ->]|Hp]; [|by eapply put_kind_frame].
    assert (r ≠ []) by (intros ->; by rewrite app_nil_r in Hq).
    rewrite (kind_below_not_dir t r n) by (done || congruence).
    rewrite kind_app, (put_lookup _ _ _ _ E). simpl. by destruct r.
Qed.

Lemma write_file_kind_self t n :
  kind t (FS.write_file t n) = kind t n ∨
  (kind t n = None ∧ kind t (FS.write_file t n) = Some KFile).
Proof.
  unfold FS.write_file. rewrite is_dir_kind.
  destruct (kind t n) as [[|]|] eqn:Et; try (by left).
  - destruct (FS.put t File n) as [n'|] eqn:E; [|by left].
    left. by rewrite (put_kind_self _ _ _ _ E).
  - destruct (FS.put t File n) as [n'|] eqn:E; [|by left].
    right. split; [done|]. by rewrite (put_kind_self _ _ _ _ E).
Qed.

(** *** unlink *)
Lemma unlink_spec t n n' :
  FS.unlink t n = Some n' →
  kind t n = Some KFile ∧ kind t n' = None ∧ ∀ q, q ≠ t → kind q n' = kind q n.
Proof.
  unfold FS.unlink. intros H.
  destruct (FS.detach t n) as [[[|m] n1]|] eqn:E; try done. injection H as ->.
  assert (Lt := detach_lookup _ _ _ _ E).
  split; [by unfold kind; rewrite Lt|]. split.
  - unfold kind. by rewrite <- (app_nil_r t), (detach_gone _ _ _ _ [] E).
  - intros q Hq. destruct (decide (t `prefix_of` q)) as [[r ->]|Hp];
      [|by eapply detach_kind_frame].
    assert (r ≠ []) by (intros ->; by rewrite app_nil_r in Hq).
    unfold kind at 1. rewrite (detach_gone _ _ _ _ r E).
    by rewrite kind_app, Lt; destruct r.
Qed.

(** *** move *)
Lemma move_commit src dst n n' :
  kind dst n = None → FS.move src dst n = Some n' →
  is_Some (kind dst n') ∧ kind src n' = None ∧ ¬ dst `prefix_of` src ∧
  (∀ q, kind q n = None → ¬ dst `prefix_of` q → kind q n' = None) ∧
  (∀ q k, kind q n = Some k → ¬ src `prefix_of` q → kind q n' = Some k).
Proof.
  intros Hd. unfold FS.move. rewrite is_dir_kind, Hd. unfold FS.rename.
  destruct (FS.detach src n) as [[x n1]|] eqn:E; [|done].
  assert (Hd1 : kind dst n1 = None).
  { destruct (decide (src `prefix_of` dst)) as [[r ->]|Hp].
    - unfold kind. by rewrite (detach_gone _ _ _ _ r E).
    - by rewrite (detach_kind_frame _ _ _ _ _ E Hp). }
  assert (Ld1 : FS.lookup dst n1 = None).
  { unfold kind in Hd1. by destruct (FS.lookup dst n1). }
  rewrite Ld1. intros P.
  assert (P' : FS.put dst x n1 = Some n') by (by destruct x).
  clear P. assert (Ls := detach_lookup _ _ _ _ E).
  assert (Hnp : ¬ dst `prefix_of` src).
  { intros Hp. assert (Ks : kind src n = Some (kind_of x)) by (by unfold kind; rewrite Ls).
    destruct (kind_prefix_some _ _ _ _ Hp Ks) as [? ?]. congruence. }
  split; [|split; [|split; [done|split]]].
  - rewrite (put_kind_self _ _ _ _ P'). eauto.
  - rewrite (put_kind_frame _ _ _ _ _ P' Hnp).
    unfold kind. by rewrite <- (app_nil_r src), (detach_gone _ _ _ _ [] E).
  - intros q Hq Hp. rewrite (put_kind_frame _ _ _ _ _ P' Hp).
    destruct (decide (src `prefix_of` q)) as [[r ->]|Hs].
    + unfold kind. by rewrite (detach_gone _ _ _ _ r E).
    + by rewrite (detach_kind_frame _ _ _ _ _ E Hs).
  - intros q k Hq Hs.
    assert (Hp : ¬ dst `prefix_of` q).
    { intros Hp. destruct (kind_prefix_some _ _ _ _ Hp Hq) as [? ?]. congruence. }
    rewrite (put_kind_frame _ _ _ _ _ P' Hp).
    by rewrite (detach_kind_frame _ _ _ _ _ E Hs).
Qed.

(** ** The steps of the controller *)

Lemma touched_only_refl t n : touched_only t n n.
Proof. by intros q _. Qed.

Lemma touched_only_trans t n1 n2 n3 :
  touched_only t n1 n2 → touched_only t n2 n3 → touched_only t n1 n3.
Proof. intros H1 H2 q Hq. by rewrite H2, H1. Qed.

Lemma write_file_touched t n : touched_only t n (FS.write_file t n).
Proof. intros q Hq. by apply write_file_kind_other. Qed.

Lemma write_file_dir t n :
  kind t (FS.write_file t n) = Some KDir ↔ kind t n = Some KDir.
Proof.
  destruct (write_file_kind_self t n) as [->|[E1 E2]]; [done|].
  rewrite E1, E2. split; done.
Qed.

Lemma detach_some p x n :
  FS.lookup p n = Some x → p ≠ [] → ∃ n', FS.detach p n = Some (x, n').
Proof.
  revert n. induction p as [|k p IH]; intros n H Hp; [done|].
  destruct n as [|m]; [done|]. simpl in H.
  destruct (m !! k) as [c|] eqn:Ek; [|done].
  destruct p as [|k' p'].
  - simpl in *. injection H as ->. rewrite Ek. eauto.
  - rewrite detach_cons by done. rewrite Ek.
    destruct (IH c H) as [c' ->]; [done|]. eauto.
Qed.

Section Steps.
Variable host : Host.

Lemma run_cmd_spec (cmd : list Arg) (t : Path) (w : World) :
  output_of cmd = Some t →
  ∃ rc evs n',
    run_cmd host cmd w = ({| fs := n'; clock := S (clock w); log := log w ++ evs |}, Ret rc) ∧
    run_events cmd rc evs ∧ touched_only t (fs w) n' ∧
    (kind t n' = Some KDir ↔ kind t (fs w) = Some KDir).
Proof.
  intros Ho. unfold run_cmd. rewrite Ho.
  destruct (engine_run host (clock w) cmd) as [|wrote [rc|]].
  - exists 1, [Spawn cmd; Returned 1], (fs w). unfold emit, tick; simpl.
    rewrite <- app_assoc. split; [done|]. split; [by left|].
    split; [apply touched_only_refl|done].
  - destruct wrote.
    + exists rc, [Spawn cmd; Returned rc], (FS.write_file t (fs w)).
      unfold emit, tick, set_fs; simpl. rewrite <- app_assoc.
      split; [done|]. split; [by left|].
      split; [apply write_file_touched|apply write_file_dir].
    + exists rc, [Spawn cmd; Returned rc], (fs w).
      unfold emit, tick, set_fs; simpl. rewrite <- app_assoc.
      split; [done|]. split; [by left|]. split; [apply touched_only_refl|done].
  - destruct wrote.
    + exists 130, [Spawn cmd; Terminate; Returned 130], (FS.write_file t (fs w)).
      unfold emit, tick, set_fs; simpl. rewrite <- !app_assoc.
      split; [done|]. split; [by right|].
      split; [apply write_file_touched|apply write_file_dir].
    + exists 130, [Spawn cmd; Terminate; Returned 130], (fs w).
      unfold emit, tick, set_fs; simpl. rewrite <- !app_assoc.
      split; [done|]. split; [by right|]. split; [apply touched_only_refl|done].
Qed.

Lemma unlink_if_exists_spec (t : Path) (w : World) :
  t ≠ [] →
  (∃ n', unlink_if_exists t w = (set_fs n' w, Ret tt) ∧
         kind t n' = None ∧ touched_only t (fs w) n' ∧ kind t (fs w) ≠ Some KDir) ∨
  (unlink_if_exists t w = (w, Raise OSError) ∧ kind t (fs w) = Some KDir).
Proof.
  intros Ht. unfold unlink_if_exists, bind, get_fs, fs_op, ret. rewrite exists_kind.
  destruct (kind t (fs w)) as [k|] eqn:Ek.
  - destruct (FS.unlink t (fs w)) as [n'|] eqn:Eu.
    + left. exists n'. apply unlink_spec in Eu as (K & ? & ?).
      split; [done|]. split; [done|]. split; [done|]. congruence.
    + right. split; [done|]. destruct k; [|done]. exfalso.
      unfold FS.unlink in Eu. unfold kind in Ek.
      destruct (FS.lookup t (fs w)) as [[|m]|] eqn:El; try done.
      destruct (detach_some _ _ _ El Ht) as [n' E]. by rewrite E in Eu.
  - left. exists (fs w). destruct w. unfold set_fs; simpl in *.
    split; [done|]. split; [done|]. split; [apply touched_only_refl|done].
Qed.

Lemma shutil_move_spec (t o : Path) (w : World) :
  kind o (fs w) = None →
  (∃ n', shutil_move t o w = (set_fs n' w, Ret tt) ∧ committed t o (fs w) n') ∨
  shutil_move t o w = (w, Raise OSError).
Proof.
  intros Ho. unfold shutil_move, fs_op.
  destruct (FS.move t o (fs w)) as [n'|] eqn:E; [|by right].
  left. exists n'. split; [done|].
  by apply move_commit.
Qed.
End Steps.

Lemma output_of_remux i t : output_of (remux_command i t) = Some t.
Proof. reflexivity. Qed.

Lemma output_of_build i t h : output_of (build_ffmpeg_command i t h) = Some t.
Proof.
  unfold build_ffmpeg_command. destruct h as [s|]; [|reflexivity].
  destruct (String.eqb s ""); reflexivity.
Qed.

Section Stages.
Variable host : Host.

Lemma try_remux_spec (i o : Path) (w : World) :
  let t := temp_path host (uuid4_hex host (clock w)) in
  kind o (fs w) = None → t ≠ o → t ≠ [] →
  ∃ w' r evs,
    try_remux host i o w = (w', r) ∧ log w' = log w ++ evs ∧
    clock w' = S (S (clock w)) ∧ remux_outcome i o t (fs w) (fs w') evs r.
Proof.
  intros t Ho Hto Ht.
  unfold try_remux, bind, new_temp_name. fold t.
  destruct (run_cmd_spec host (remux_command i t) t (tick w) (output_of_remux i t))
    as (rc & evs & n1 & E & Hev & Ht1 & Hd1).
  rewrite E. simpl in Ht1, Hd1.
  assert (Ho1 : kind o n1 = None) by (rewrite Ht1; done).
  destruct (rc =? 0) eqn:Erc.
  - apply Z.eqb_eq in Erc. subst rc.
    set (w1 := {| fs := n1; clock := S (clock (tick w)); log := log (tick w) ++ evs |}).
    destruct (shutil_move_spec t o w1 Ho1) as [(n' & Em & Hc)|Em]; rewrite Em.
    + eexists _, _, evs. split; [reflexivity|]. split; [done|]. split; [done|].
      exists 0. split; [done|]. left. split; [done|]. left. split; [done|].
      simpl. destruct Hc as (C1 & C2 & C3 & C4 & C5).
      split; [done|]. split; [done|]. split; [done|]. split.
      * intros q Hq Hp. destruct (decide (q = t)) as [->|Hne]; [done|].
        apply C4; [|done]. by rewrite Ht1.
      * intros q k Hq Hp. apply C5; [|done]. rewrite Ht1; [done|].
        intros ->. by apply Hp.
    + eexists _, _, evs. split; [reflexivity|]. split; [done|]. split; [done|].
      exists 0. split; [done|]. left. split; [done|]. right. done.
  - apply Z.eqb_neq in Erc.
    set (w1 := {| fs := n1; clock := S (clock (tick w)); log := log (tick w) ++ evs |}).
    destruct (unlink_if_exists_spec t w1 Ht) as [(n' & Eu & K & Hu & _)|[Eu K]];
      rewrite Eu.
    + eexists _, _, evs. split; [reflexivity|]. split; [done|]. split; [done|].
      exists rc. split; [done|]. right. split; [done|]. left. split; [done|].
      simpl. split; [|done]. by eapply touched_only_trans.
    + eexists _, _, evs. split; [reflexivity|]. split; [done|]. split; [done|].
      exists rc. split; [done|]. right. split; [done|]. right. split; [done|].
      simpl. split; [done|]. by apply Hd1.
Qed.

Lemma committed_after_touch (t o : Path) (n n1 n' : Node) :
  touched_only t n n1 → committed t o n1 n' → committed t o n n'.
Proof.
  intros Ht (C1 & C2 & C3 & C4 & C5).
  split; [done|]. split; [done|]. split; [done|]. split.
  - intros q Hq Hp. destruct (decide (q = t)) as [->|Hne]; [done|].
    apply C4; [|done]. by rewrite Ht.
  - intros q k Hq Hp. apply C5; [|done]. rewrite Ht; [done|].
    intros ->. by apply Hp.
Qed.

(** lines 203-208: promote the artifact or clean up *)
Lemma finish_spec (i o t : Path) (rc : Z) (w1 : World) :
  kind o (fs w1) = None → t ≠ [] →
  ∃ w' r,
    (if rc =? 0 then shutil_move t o ;; ret (i, o, Encoded)
     else unlink_if_exists t ;; ret (i, o, Error rc)) w1 = (w', r) ∧
    log w' = log w1 ∧
    ((rc = 0 ∧ ((r = Ret (i, o, Encoded) ∧ committed t o (fs w1) (fs w')) ∨
                (r = Raise OSError ∧ fs w' = fs w1))) ∨
     (rc ≠ 0 ∧ ((r = Ret (i, o, Error rc) ∧ touched_only t (fs w1) (fs w') ∧
                 kind t (fs w') = None) ∨
                (r = Raise OSError ∧ fs w' = fs w1 ∧ kind t (fs w1) = Some KDir)))).
Proof.
  intros Ho Ht. unfold bind, ret. destruct (rc =? 0) eqn:Erc.
  - apply Z.eqb_eq in Erc. subst rc.
    destruct (shutil_move_spec t o w1 Ho) as [(n' & Em & Hc)|Em]; rewrite Em.
    + eexists _, _. split; [reflexivity|]. split; [done|]. left. split; [done|]. by left.
    + eexists _, _. split; [reflexivity|]. split; [done|]. left. split; [done|]. by right.
  - apply Z.eqb_neq in Erc.
    destruct (unlink_if_exists_spec t w1 Ht) as [(n' & Eu & K & Hu & _)|[Eu K]]; rewrite Eu.
    + eexists _, _. split; [reflexivity|]. split; [done|]. right. split; [done|]. by left.
    + eexists _, _. split; [reflexivity|]. split; [done|]. right. split; [done|]. by right.
Qed.

Lemma full_encode_spec (i o : Path) (w : World) :
  let t := temp_path host (uuid4_hex host (clock w)) in
  kind o (fs w) = None → t ≠ o → t ≠ [] →
  ∃ w' r evs,
    full_encode host i o w = (w', r) ∧ log w' = log w ++ evs ∧
    encode_outcome host i o t (fs w) (fs w') evs r.
Proof.
  intros t Ho Hto Ht.
  unfold full_encode, new_temp_name. fold t.
  unfold bind at 1. unfold bind at 1. unfold encode_outcome, encode_events.
  destruct (truthy_opt (HWACCEL host)) eqn:Ehw.
  - unfold bind at 1.
    destruct (run_cmd_spec host (build_ffmpeg_command i t (HWACCEL host)) t (tick w)
                (output_of_build i t _)) as (rc1 & e1 & n1 & E1 & Hev1 & Ht1 & Hd1).
    fold t. rewrite E1. simpl in Ht1, Hd1.
    set (w1 := {| fs := n1; clock := S (clock (tick w)); log := log (tick w) ++ e1 |}).
    assert (Ho1 : kind o n1 = None) by (rewrite Ht1; done).
    destruct (rc1 =? 0) eqn:Erc1; cbn [negb].
    + apply Z.eqb_eq in Erc1. subst rc1. unfold ret at 1.
      destruct (finish_spec i o t 0 w1 Ho1 Ht) as (w' & r & Ef & Hl & Hf).
      rewrite Ef. exists w', r, e1. split; [done|]. split; [by rewrite Hl|].
      left. exists 0. split; [left; done|].
      destruct Hf as [[_ [[-> Hc]|[-> Hfs]]]|[? _]]; [| |done].
      * left. split; [done|]. left. split; [done|]. by eapply committed_after_touch.
      * left. split; [done|]. right. split; [done|]. by rewrite Hfs.
    + apply Z.eqb_neq in Erc1. unfold bind at 1.
      destruct (unlink_if_exists_spec t w1 Ht) as [(n2 & Eu & K2 & Hu & _)|[Eu K]]; rewrite Eu.
      * destruct (run_cmd_spec host (build_ffmpeg_command i t None) t (set_fs n2 w1)
                    (output_of_build i t _)) as (rc & e2 & n3 & E2 & Hev2 & Ht3 & Hd3).
        rewrite E2. simpl in Ht3, Hd3.
        set (w3 := {| fs := n3; clock := S (clock (set_fs n2 w1));
                      log := log (set_fs n2 w1) ++ e2 |}).
        assert (T3 : touched_only t (fs w) n3).
        { eapply touched_only_trans; [|exact Ht3]. by eapply touched_only_trans. }
        assert (Ho3 : kind o n3 = None) by (rewrite T3; done).
        destruct (finish_spec i o t rc w3 Ho3 Ht) as (w' & r & Ef & Hl & Hf).
        rewrite Ef. exists w', r, (e1 ++ e2).
        split; [done|]. split; [rewrite Hl; simpl; by rewrite app_assoc|].
        left. exists rc. split; [right; by exists rc1, e1, e2|].
        destruct Hf as [[-> [[-> Hc]|[-> Hfs]]]|[Hrc [(-> & Hu' & K')|(-> & Hfs & K')]]].
        -- left. split; [done|]. left. split; [done|]. by eapply committed_after_touch.
        -- left. split; [done|]. right. split; [done|]. by rewrite Hfs.
        -- right. split; [done|]. left. split; [done|]. split; [|done].
           by eapply touched_only_trans.
        -- exfalso. simpl in K'. apply Hd3 in K'. simpl in K'. congruence.
      * exists w1, (Raise OSError), e1. split; [done|]. split; [done|].
        right. exists rc1. split; [done|]. split; [done|]. split; [done|].
        split; [done|]. split; [done|]. simpl in K. by apply Hd1.
  - destruct (run_cmd_spec host (build_ffmpeg_command i t None) t (tick w)
                (output_of_build i t _)) as (rc & e1 & n1 & E1 & Hev1 & Ht1 & Hd1).
    fold t. rewrite E1. simpl in Ht1, Hd1.
    set (w1 := {| fs := n1; clock := S (clock (tick w)); log := log (tick w) ++ e1 |}).
    assert (Ho1 : kind o n1 = None) by (rewrite Ht1; done).
    destruct (finish_spec i o t rc w1 Ho1 Ht) as (w' & r & Ef & Hl & Hf).
    rewrite Ef. exists w', r, e1. split; [done|]. split; [by rewrite Hl|].
    left. exists rc. split; [done|].
    destruct Hf as [[-> [[-> Hc]|[-> Hfs]]]|[Hrc [(-> & Hu' & K')|(-> & Hfs & K')]]].
    + left. split; [done|]. left. split; [done|]. by eapply committed_after_touch.
    + left. split; [done|]. right. split; [done|]. by rewrite Hfs.
    + right. split; [done|]. left. split; [done|]. split; [|done].
      by eapply touched_only_trans.
    + right. split; [done|]. right. split; [done|]. split; [by rewrite Hfs|].
      simpl in K'. by apply Hd1.
Qed.

End Stages.

(** ** The behaviours of [convert_one] *)

Section Conversion.
Variable host : Host.
Variables in_root in_file out_root : Path.

Lemma temp_path_unfold (u : string) :
  temp_path host u = TEMP_DIR host ++ [u +:+ ".tmp.mkv"].
Proof. unfold temp_path. apply join_nonempty. apply append_nonempty. discriminate. Qed.

Lemma temp_path_nonempty (u : string) : temp_path host u ≠ [].
Proof. rewrite temp_path_unfold. by destruct (TEMP_DIR host). Qed.

Lemma temp_path_not_output (u : string) (dir rel : Path) :
  temp_path host u ≠ dir ++ [out_name rel].
Proof.
  rewrite temp_path_unfold. intros E. apply app_inj_tail in E as [_ E].
  by apply temp_name_not_output_name in E.
Qed.

Lemma ffprobe_info_world (path : Path) (w : World) :
  ∃ r, ffprobe_info host path w = (tick (emit (Spawn (ffprobe_command path)) w), r).
Proof.
  unfold ffprobe_info, try_except_Exception, bind, probe_json, lift, ret.
  destruct (ffprobe_run host (clock w) (ffprobe_command path)) as [e|data].
  - destruct (is_Exception e); eauto.
  - destruct (py_get data "streams") as [v|e].
    + destruct (truthy (py_or v (JList []))); [|eauto].
      destruct (py_index0 (py_or v (JList []))) as [x|e]; [eauto|].
      destruct (is_Exception e); eauto.
    + destruct (is_Exception e); eauto.
Qed.

Lemma exists_false_kind (p : Path) (n : Node) : FS.exists_ p n = false → kind p n = None.
Proof. rewrite exists_kind. by destruct (kind p n). Qed.

Lemma convert_one_conversion (w : World) :
  let '(w', r) := convert_one host in_root in_file out_root w in
  conversion host in_root in_file out_root w w' r.
Proof.
  unfold convert_one, bind at 1, make_output_path.
  destruct (PyPath.relative_to in_file in_root) as [rel|] eqn:Erel.
  2: { simpl. apply conv_not_under_root. unfold output_path. by rewrite Erel. }
  fold (out_dir in_root out_root rel).
  assert (Eo : output_path in_file in_root out_root
               = Some (out_dir in_root out_root rel ++ [out_name rel])).
  { unfold output_path. by rewrite Erel. }
  unfold bind at 1, fs_op.
  destruct (FS.mkdir_parents (out_dir in_root out_root rel) (fs w)) as [n0|] eqn:Em.
  2: { simpl. by eapply conv_mkdir_fails. }
  unfold ret at 1. fold (out_name rel).
  rewrite join_nonempty by (apply append_nonempty; discriminate).
  set (o := out_dir in_root out_root rel ++ [out_name rel]) in *.
  unfold bind at 1, get_fs. cbn [fs set_fs].
  destruct (FS.exists_ o n0) eqn:Ex; cbn [OVERWRITE negb andb].
  { unfold ret. simpl. by eapply conv_skip. }
  apply exists_false_kind in Ex.
  cbn [SKIP_IF_ALREADY_480P]. unfold bind at 1. unfold bind at 1.
  destruct (ffprobe_info_world in_file (set_fs n0 w)) as [ri Ei]. rewrite Ei.
  set (w1 := tick (emit (Spawn (ffprobe_command in_file)) (set_fs n0 w))).
  destruct ri as [info|e].
  2: { simpl. by eapply conv_probe_raises. }
  unfold bind at 1. unfold lift at 1.
  destruct (already_satisfies_480p info) as [ok|e].
  2: { simpl. by eapply conv_probe_raises. }
  destruct ok.
  - destruct (try_remux_spec host in_file o w1) as (w2 & r1 & evs1 & E1 & L1 & C1 & R1);
      [done|apply temp_path_not_output|apply temp_path_nonempty|].
    rewrite E1. destruct r1 as [[x|]|e].
    + unfold ret. simpl. eapply conv_remux_done; try done.
      by rewrite L1; simpl; rewrite <- app_assoc.
    + assert (Ho2 : kind o (fs w2) = None).
      { destruct R1 as (rc & _ & [[_ [[? _]|[? _]]]|[_ [(_ & T & _)|[? _]]]]); try done.
        rewrite T; [done|]. intros E. symmetry in E. by apply temp_path_not_output in E. }
      destruct (full_encode_spec host in_file o w2) as (w3 & r & evs2 & E2 & L2 & R2);
        [done|apply temp_path_not_output|apply temp_path_nonempty|].
      rewrite E2. simpl. rewrite C1 in R2. eapply conv_remux_encode; try done.
      by rewrite L2, L1; simpl; rewrite <- !app_assoc.
    + simpl. eapply conv_remux_raises; try done.
      by rewrite L1; simpl; rewrite <- app_assoc.
  - unfold ret at 1.
    destruct (full_encode_spec host in_file o w1) as (w3 & r & evs2 & E2 & L2 & R2);
      [done|apply temp_path_not_output|apply temp_path_nonempty|].
    rewrite E2. simpl. eapply conv_encode; try done.
    by rewrite L2; simpl; rewrite <- app_assoc.
Qed.
End Conversion.

(** ** Skipped tasks and the output directory *)

Lemma set_fs_same (w : World) : set_fs (fs w) w = w.
Proof. by destruct w. Qed.

Lemma parent_snoc (p : Path) (s : string) : PyPath.parent (p ++ [s]) = p.
Proof. unfold PyPath.parent. apply removelast_last. Qed.

Lemma not_prefix_snoc (p : Path) (s : string) : ¬ (p ++ [s]) `prefix_of` p.
Proof.
  intros [r E]. apply (f_equal length) in E. rewrite !length_app in E. simpl in E. lia.
Qed.

(** a skipped task finds its directory in place: nothing changes *)
Lemma skip_changes_nothing (dir : Path) (name : string) (n n0 : Node) :
  FS.mkdir_parents dir n = Some n0 → FS.exists_ (dir ++ [name]) n0 = true → n0 = n.
Proof.
  intros Hm Hx. rewrite exists_kind in Hx.
  destruct (kind (dir ++ [name]) n0) as [k|] eqn:Ek; [|done].
  destruct (mkdir_kind_new _ _ _ _ _ Hm Ek) as [Hk|[Hp _]].
  - assert (Hd : kind dir n = Some KDir).
    { eapply kind_prefix_dir; [by exists [name]| |done].
      intros E. apply (f_equal length) in E. rewrite length_app in E. simpl in E. lia. }
    rewrite (mkdir_id _ _ Hd) in Hm. by injection Hm.
  - by apply not_prefix_snoc in Hp.
Qed.

Section Skip.
Variable host : Host.
Variables in_root in_file out_root : Path.

Lemma conversion_skip_inv (w w' : World) (i o : Path) :
  conversion host in_root in_file out_root w w' (Ret (i, o, ExistsSkip)) →
  w' = w ∧ i = in_file ∧ output_path in_file in_root out_root = Some o ∧
  FS.exists_ o (fs w) = true.
Proof.
  intros H. inversion H as
    [ | | rel o' n0 Hrel Ho Hm Hx | | rel o' n0 w2 r evs Hrel Ho Hm Hk Hl He
      | rel o' n0 w2 x evs Hrel Ho Hm Hk Hl Hr | | rel o' n0 n1 w2 r evs1 evs2 Hrel Ho Hm Hk Hl Hr He ];
    subst.
  - unfold output_path in Ho. rewrite Hrel in Ho. injection Ho as <-.
    assert (n0 = fs w) as -> by (by eapply skip_changes_nothing).
    rewrite set_fs_same. split; [done|]. split; [done|]. split; [|done].
    unfold output_path. by rewrite Hrel.
  - exfalso. destruct He as [(rc & _ & [[_ [[? _]|[? _]]]|[_ [[? _]|[? _]]]])|(rc & _ & _ & _ & ? & _)];
      congruence.
  - exfalso. destruct Hr as (rc & _ & [[_ [[? _]|[? _]]]|[_ [[? _]|[? _]]]]); congruence.
  - exfalso. destruct He as [(rc & _ & [[_ [[? _]|[? _]]]|[_ [[? _]|[? _]]]])|(rc & _ & _ & _ & ? & _)];
      congruence.
Qed.
End Skip.

Lemma make_output_path_dir (in_file in_root out_root : Path) (w w' : World) (p : Path) :
  make_output_path in_file in_root out_root w = (w', Ret p) →
  FS.is_dir (PyPath.parent p) (fs w') = true.
Proof.
  intros H. destruct (PyPath.relative_to in_file in_root) as [rel|] eqn:Erel.
  - pose proof (make_output_path_run _ _ out_root _ Erel w) as D. simpl in D.
    destruct (FS.mkdir_parents _ (fs w)) as [n|] eqn:Em; rewrite D in H; [|done].
    injection H as <- <-. rewrite parent_snoc. simpl.
    rewrite is_dir_kind. by rewrite (mkdir_is_dir _ _ _ Em).
  - unfold make_output_path in H. by rewrite Erel in H.
Qed.

(** C10, as amended: computing the output path leaves the destination
    directory in place, creating it (and its missing ancestors) when it is
    absent, before the existence check of the destination; a task that
    ends as skipped-exists finds the directory there already, and leaves
    the filesystem, the clock and the log as they were. *)
Theorem output_directory_ensured (host : Host) (in_root in_file out_root : Path)
    (w : World) :
  (∀ w' p, make_output_path in_file in_root out_root w = (w', Ret p) →
           FS.is_dir (PyPath.parent p) (fs w') = true) ∧
  (∀ w' i o, convert_one host in_root in_file out_root w = (w', Ret (i, o, ExistsSkip)) →
             w' = w).
Proof.
  split.
  - intros w' p. apply make_output_path_dir.
  - intros w' i o H.
    pose proof (convert_one_conversion host in_root in_file out_root w) as C.
    rewrite H in C. by apply conversion_skip_inv in C as [? _].
Qed.

(** C10 as stated fails: a skipped task creates nothing. *)
Lemma skipped_task_creates_nothing :
  convert_one bare_host ["in"] ["in"; "a.mp4"] ["out"] converted_world
  = (converted_world, Ret (["in"; "a.mp4"], ["out"; "in"; "a_480p.mkv"], ExistsSkip)).
Proof. vm_compute. reflexivity. Qed.

(** ** Artifacts and invocations in the log *)

Lemma has_arg_in (s : string) (cmd : list Arg) : In (Str s) cmd → has_arg s cmd = true.
Proof.
  intros H. unfold has_arg. apply existsb_exists. exists (Str s).
  split; [done|]. apply String.eqb_refl.
Qed.

Lemma classify_remux (i t : Path) : classify (remux_command i t) = Remux.
Proof. reflexivity. Qed.

Lemma classify_build_sw (i t : Path) : classify (build_ffmpeg_command i t None) = EncodeSw.
Proof. reflexivity. Qed.

Lemma classify_build_hw (i t : Path) (h : option string) :
  truthy_opt h = true → classify (build_ffmpeg_command i t h) = EncodeHw.
Proof.
  intros Hh. destruct h as [s|]; [|done]. simpl in Hh.
  destruct (String.eqb s "") eqn:Es; [done|].
  assert (L : has_arg "libx264" (build_ffmpeg_command i t (Some s)) = true).
  { apply has_arg_in. unfold build_ffmpeg_command. rewrite Es. simpl. tauto. }
  assert (A : has_arg "-hwaccel" (build_ffmpeg_command i t (Some s)) = true).
  { apply has_arg_in. unfold build_ffmpeg_command. rewrite Es. simpl. tauto. }
  unfold classify. rewrite L, A. unfold build_ffmpeg_command. by rewrite Es.
Qed.

Lemma classify_build (i t : Path) (h : option string) :
  truthy_opt h = false → classify (build_ffmpeg_command i t h) = EncodeSw.
Proof.
  intros Hh. destruct h as [s|]; [|done]. simpl in Hh.
  destruct (String.eqb s "") eqn:Es; [|done].
  unfold build_ffmpeg_command. rewrite Es. reflexivity.
Qed.

Lemma artifacts_app (a b : list Event) : artifacts (a ++ b) = artifacts a ++ artifacts b.
Proof. apply omap_app. Qed.

Lemma engine_runs_app (a b : list Event) :
  engine_runs (a ++ b) = engine_runs a ++ engine_runs b.
Proof. apply omap_app. Qed.

Lemma artifacts_run (cmd : list Arg) (rc : Z) (evs : list Event) (t : Path) :
  run_events cmd rc evs → classify cmd ≠ Probe → output_of cmd = Some t →
  artifacts evs = [t].
Proof.
  intros [-> | ->] Hc Ho; unfold artifacts; simpl; rewrite Ho;
    by destruct (classify cmd).
Qed.

Lemma engine_runs_run (cmd : list Arg) (rc : Z) (evs : list Event) :
  run_events cmd rc evs → classify cmd ≠ Probe → engine_runs evs = [classify cmd].
Proof.
  intros [-> | ->] Hc; unfold engine_runs; simpl; by destruct (classify cmd).
Qed.

Lemma new_events_app (w w' : World) (evs : list Event) :
  log w' = log w ++ evs → new_events w w' = evs.
Proof. intros H. unfold new_events. rewrite H. by rewrite drop_app_length. Qed.

Lemma kind_none_exists (p : Path) (n : Node) : kind p n = None → FS.exists_ p n = false.
Proof. intros H. by rewrite exists_kind, H. Qed.

Lemma kind_some_exists (p : Path) (n : Node) : is_Some (kind p n) → FS.exists_ p n = true.
Proof. intros [k H]. by rewrite exists_kind, H. Qed.

Lemma remux_artifacts (i o t : Path) (n n' : Node) (evs : list Event)
    (r : result (option Outcome)) :
  remux_outcome i o t n n' evs r → artifacts evs = [t] ∧ engine_runs evs = [Remux].
Proof.
  intros (rc & Hev & _). split.
  - by eapply artifacts_run.
  - by rewrite (engine_runs_run _ _ _ Hev).
Qed.

Section Artifacts.
Variable host : Host.

Lemma encode_events_artifacts (i t : Path) (rc : Z) (evs : list Event) :
  encode_events host i t rc evs →
  (artifacts evs = [t] ∨ artifacts evs = [t; t]) ∧
  (engine_runs evs = [EncodeHw] ∨ engine_runs evs = [EncodeSw] ∨
   engine_runs evs = [EncodeHw; EncodeSw]).
Proof.
  unfold encode_events. destruct (truthy_opt (HWACCEL host)) eqn:Eh.
  - intros [[_ Hev]|(rc1 & e1 & e2 & _ & -> & H1 & H2)].
    + split; [left|left].
      * eapply artifacts_run; [done| |apply output_of_build].
        by rewrite classify_build_hw.
      * rewrite (engine_runs_run _ _ _ Hev); by rewrite classify_build_hw.
    + split; [right|right; right].
      * rewrite artifacts_app.
        rewrite (artifacts_run _ _ _ t H1), (artifacts_run _ _ _ t H2);
          [done|done|apply output_of_build|by rewrite classify_build_hw|apply output_of_build].
      * rewrite engine_runs_app.
        rewrite (engine_runs_run _ _ _ H1), (engine_runs_run _ _ _ H2);
          [by rewrite classify_build_hw|done|by rewrite classify_build_hw].
  - intros Hev. split; [left|right; left].
    + by eapply artifacts_run; [done| |apply output_of_build].
    + by rewrite (engine_runs_run _ _ _ Hev).
Qed.

Lemma encode_artifacts (i o t : Path) (n n' : Node) (evs : list Event) (r : result Outcome) :
  encode_outcome host i o t n n' evs r →
  (artifacts evs = [t] ∨ artifacts evs = [t; t]) ∧
  (engine_runs evs = [EncodeHw] ∨ engine_runs evs = [EncodeSw] ∨
   engine_runs evs = [EncodeHw; EncodeSw]).
Proof.
  intros [(rc & Hev & _)|(rc1 & _ & Eh & Hev & _)].
  - by eapply encode_events_artifacts.
  - split; [left|left].
    + eapply artifacts_run; [done| |apply output_of_build]. by rewrite classify_build_hw.
    + rewrite (engine_runs_run _ _ _ Hev); by rewrite classify_build_hw.
Qed.

Lemma forall_artifacts (P : Path → Prop) (t : Path) (l : list Path) :
  l = [t] ∨ l = [t; t] → P t → Forall P l.
Proof. intros [-> | ->] H; repeat constructor; done. Qed.

(** an absent destination is no ancestor of a sibling of an existing
    artifact *)
Lemma not_prefix_of_sibling (o : Path) (u1 u2 : string) :
  ¬ o `prefix_of` temp_path host u2 → o ≠ temp_path host u1 →
  ¬ o `prefix_of` temp_path host u1.
Proof.
  rewrite !temp_path_unfold. intros H2 Hne [r E].
  destruct (decide (r = [])) as [->|Hr].
  - rewrite app_nil_r in E. by subst.
  - destruct (exists_last Hr) as (r' & x & ->).
    rewrite app_assoc in E. apply app_inj_tail in E as [E _].
    apply H2. exists (r' ++ [u2 +:+ ".tmp.mkv"]). by rewrite app_assoc, <- E.
Qed.
End Artifacts.

(** ** Cleanup of temp artifacts *)

Section Cleanup.
Variable host : Host.
Variables in_root in_file out_root : Path.

Lemma output_path_shape (o : Path) :
  output_path in_file in_root out_root = Some o →
  ∃ dir rel, o = dir ++ [out_name rel].
Proof.
  unfold output_path. destruct (PyPath.relative_to in_file in_root) as [rel|]; [|done].
  intros [= <-]. eauto.
Qed.

Lemma temp_not_output (o : Path) (u : string) :
  output_path in_file in_root out_root = Some o → temp_path host u ≠ o.
Proof. intros (dir & rel & ->)%output_path_shape. apply temp_path_not_output. Qed.

(** what a finished encode stage guarantees *)
Lemma encode_outcome_ret (i o t : Path) (n n' : Node) (evs : list Event) (x : Outcome) :
  encode_outcome host i o t n n' evs (Ret x) →
  (x = (i, o, Encoded) ∧ committed t o n n') ∨
  (∃ rc, x = (i, o, Error rc) ∧ rc ≠ 0 ∧ touched_only t n n' ∧ kind t n' = None).
Proof.
  intros [(rc & _ & [[_ [[E C]|[E _]]]|[Hrc [(E & T & K)|(E & _)]]])|(rc1 & _ & _ & _ & E & _)];
    try done.
  - left. by injection E as ->.
  - right. exists rc. by injection E as ->.
Qed.

Lemma remux_outcome_done (i o t : Path) (n n' : Node) (evs : list Event) (x : Outcome) :
  remux_outcome i o t n n' evs (Ret (Some x)) →
  x = (i, o, RemuxedAudioConverted) ∧ committed t o n n'.
Proof.
  intros (rc & _ & [[_ [[E C]|[E _]]]|[Hrc [(E & T & K)|(E & _)]]]); try done.
  by injection E as ->.
Qed.

Lemma remux_outcome_failed (i o t : Path) (n n' : Node) (evs : list Event) :
  remux_outcome i o t n n' evs (Ret None) →
  touched_only t n n' ∧ kind t n' = None.
Proof.
  by intros (rc & _ & [[_ [[E C]|[E _]]]|[Hrc [(E & T & K)|(E & _)]]]).
Qed.

End Cleanup.


(** ** Temp artifact names *)

Lemma append_inj_r (a b c : string) : a +:+ c = b +:+ c → a = b.
Proof.
  intros E. apply (f_equal PyStr.rev) in E. rewrite !rev_append in E.
  apply (inj (String.append (PyStr.rev c))) in E.
  by rewrite <- (rev_involutive a), E, rev_involutive.
Qed.

Lemma attempts_app (a b : list Event) : attempts (a ++ b) = attempts a ++ attempts b.
Proof. apply omap_app. Qed.

Lemma attempts_run (cmd : list Arg) (rc : Z) (evs : list Event) (t : Path) :
  run_events cmd rc evs → classify cmd ≠ Probe → output_of cmd = Some t →
  attempts evs = [(classify cmd, t)].
Proof.
  intros [-> | ->] Hc Ho; unfold attempts; simpl; rewrite Ho;
    by destruct (classify cmd).
Qed.

Lemma remux_attempts (i o t : Path) (n n' : Node) (evs : list Event)
    (r : result (option Outcome)) :
  remux_outcome i o t n n' evs r → attempts evs = [(Remux, t)].
Proof. intros (rc & Hev & _). by rewrite (attempts_run _ _ _ t Hev). Qed.

Section Attempts.
Variable host : Host.

Lemma encode_attempts_of (i o t : Path) (n n' : Node) (evs : list Event)
    (r : result Outcome) :
  encode_outcome host i o t n n' evs r → encode_attempts t (attempts evs).
Proof.
  unfold encode_outcome, encode_events, encode_attempts.
  destruct (truthy_opt (HWACCEL host)) eqn:Eh.
  - intros [(rc & [[_ Hev]|(rc1 & e1 & e2 & _ & -> & H1 & H2)] & _)|(rc1 & _ & _ & Hev & _)].
    + left. rewrite (attempts_run _ _ _ t Hev);
        [by rewrite classify_build_hw|by rewrite classify_build_hw|apply output_of_build].
    + right; right. rewrite attempts_app.
      rewrite (attempts_run _ _ _ t H1), (attempts_run _ _ _ t H2);
        [by rewrite classify_build_hw|done|apply output_of_build
        |by rewrite classify_build_hw|apply output_of_build].
    + left. rewrite (attempts_run _ _ _ t Hev);
        [by rewrite classify_build_hw|by rewrite classify_build_hw|apply output_of_build].
  - intros [(rc & Hev & _)|(rc1 & _ & ? & _)]; [|done].
    right; left. by rewrite (attempts_run _ _ _ t Hev); [|done|apply output_of_build].
Qed.
End Attempts.

Section TempNames.
Variable host : Host.
Variables in_root in_file out_root : Path.

End TempNames.


(** ** The fallback after a failed remux *)

Lemma after_failed_remux_run (cmd : list Arg) (rc : Z) (e post : list Event) :
  run_events cmd rc e →
  after_failed_remux (e ++ post) =
  match classify cmd with
  | Remux => if rc =? 0 then None else Some post
  | _ => after_failed_remux post
  end.
Proof.
  intros [-> | ->]; simpl; destruct (classify cmd); try done.
Qed.

Section Fallback.
Variable host : Host.

Lemma after_failed_remux_encode (i o t : Path) (n n' : Node) (evs : list Event)
    (r : result Outcome) :
  encode_outcome host i o t n n' evs r → after_failed_remux evs = None.
Proof.
  unfold encode_outcome, encode_events.
  assert (R : ∀ cmd rc e, run_events cmd rc e → classify cmd ≠ Remux →
              after_failed_remux e = None).
  { intros cmd rc e He Hc. rewrite <- (app_nil_r e).
    rewrite (after_failed_remux_run _ _ _ _ He). by destruct (classify cmd). }
  destruct (truthy_opt (HWACCEL host)) eqn:Eh.
  - intros [(rc & [[_ Hev]|(rc1 & e1 & e2 & _ & -> & H1 & H2)] & _)|(rc1 & _ & _ & Hev & _)].
    + eapply R; [done|]. by rewrite classify_build_hw.
    + rewrite (after_failed_remux_run _ _ _ _ H1), classify_build_hw by done.
      by eapply R.
    + eapply R; [done|]. by rewrite classify_build_hw.
  - intros [(rc & Hev & _)|(rc1 & _ & ? & _)]; [|done]. by eapply R.
Qed.

Variables in_root in_file out_root : Path.

End Fallback.



(** ** What survives a conversion *)

Lemma committed_preserves (t o q : Path) (n n' : Node) (k : Kind) :
  committed t o n n' → kind q n = Some k → ¬ t `prefix_of` q → kind q n' = Some k.
Proof. intros (_ & _ & _ & _ & C) Hq Hp. by apply C. Qed.

Lemma touched_only_preserves (t q : Path) (n n' : Node) (k : Kind) :
  touched_only t n n' → kind q n = Some k → ¬ t `prefix_of` q → kind q n' = Some k.
Proof. intros T Hq Hp. rewrite T; [done|]. intros ->. by apply Hp. Qed.

Lemma remux_outcome_preserves (i o t q : Path) (n n' : Node) (evs : list Event)
    (r : result (option Outcome)) (k : Kind) :
  remux_outcome i o t n n' evs r → kind q n = Some k → ¬ t `prefix_of` q →
  kind q n' = Some k.
Proof.
  intros (rc & _ & [[_ [[_ C]|[_ T]]]|[_ [(_ & T & _)|(_ & T & _)]]]) Hq Hp;
    first [by eapply committed_preserves | by eapply touched_only_preserves].
Qed.

Section Persistence.
Variable host : Host.

Lemma encode_outcome_preserves (i o t q : Path) (n n' : Node) (evs : list Event)
    (r : result Outcome) (k : Kind) :
  encode_outcome host i o t n n' evs r → kind q n = Some k → ¬ t `prefix_of` q →
  kind q n' = Some k.
Proof.
  intros [(rc & _ & [[_ [[_ C]|[_ T]]]|[_ [(_ & T & _)|(_ & T & _)]]])
         |(rc1 & _ & _ & _ & _ & T & _)] Hq Hp;
    first [by eapply committed_preserves | by eapply touched_only_preserves].
Qed.

Variable out_root : Path.

(** what exists outside the temp artifacts survives any conversion *)
Lemma conversion_preserves (in_root in_file : Path) (w w' : World) (r : result Outcome)
    (q : Path) (k : Kind) :
  conversion host in_root in_file out_root w w' r →
  (∀ u, ¬ temp_path host u `prefix_of` q) →
  kind q (fs w) = Some k → kind q (fs w') = Some k.
Proof.
  intros C Hq Hk.
  inversion C as
    [ | | rel o' n0 Hrel Ho Hm Hx | rel o' n0 w2 e Hrel Ho Hm Hk0 Hf Hl
      | rel o' n0 w2 r2 evs Hrel Ho Hm Hk0 Hl He
      | rel o' n0 w2 x evs Hrel Ho Hm Hk0 Hl Hr
      | rel o' n0 w2 e evs Hrel Ho Hm Hk0 Hl Hr
      | rel o' n0 n1 w2 r2 evs1 evs2 Hrel Ho Hm Hk0 Hl Hr He ]; subst; try done.
  - simpl. by eapply mkdir_kind_mono.
  - by eapply mkdir_kind_mono.
  - eapply encode_outcome_preserves; [done| |done]. by eapply mkdir_kind_mono.
  - eapply remux_outcome_preserves; [done| |done]. by eapply mkdir_kind_mono.
  - eapply remux_outcome_preserves; [done| |done]. by eapply mkdir_kind_mono.
  - eapply encode_outcome_preserves; [done| |done].
    eapply remux_outcome_preserves; [done| |done]. by eapply mkdir_kind_mono.
Qed.

(** a returned outcome names the source and the output path of the task;
    after a conversion the output exists *)
Lemma conversion_ret (in_root in_file : Path) (w w' : World) (i o : Path) (st : Status) :
  conversion host in_root in_file out_root w w' (Ret (i, o, st)) →
  i = in_file ∧ output_path in_file in_root out_root = Some o ∧
  (st = Encoded ∨ st = RemuxedAudioConverted → is_Some (kind o (fs w'))).
Proof.
  intros C.
  inversion C as
    [ | | rel o' n0 Hrel Ho Hm Hx | 
      | rel o' n0 w2 r2 evs Hrel Ho Hm Hk0 Hl He
      | rel o' n0 w2 x evs Hrel Ho Hm Hk0 Hl Hr
      | 
      | rel o' n0 n1 w2 r2 evs1 evs2 Hrel Ho Hm Hk0 Hl Hr He ]; subst.
  - split; [done|]. split; [done|]. by intros [|].
  - apply encode_outcome_ret in He as [[E Cm]|(rc & E & Hrc & T & K)]; simplify_eq.
    + split; [done|]. split; [done|]. intros _. by destruct Cm.
    + split; [done|]. split; [done|]. by intros [|].
  - apply remux_outcome_done in Hr as [E Cm]. simplify_eq.
    split; [done|]. split; [done|]. intros _. by destruct Cm.
  - apply encode_outcome_ret in He as [[E Cm]|(rc & E & Hrc & T & K)]; simplify_eq.
    + split; [done|]. split; [done|]. intros _. by destruct Cm.
    + split; [done|]. split; [done|]. by intros [|].
Qed.

(** a task whose destination exists is skipped on the spot *)
Lemma skip_when_exists (in_root in_file o : Path) (w : World) :
  output_path in_file in_root out_root = Some o →
  FS.exists_ o (fs w) = true →
  convert_one host in_root in_file out_root w = (w, Ret (in_file, o, ExistsSkip)).
Proof.
  unfold output_path. intros Ho Hx.
  destruct (PyPath.relative_to in_file in_root) as [rel|] eqn:Erel; [|done].
  injection Ho as <-.
  unfold convert_one, bind at 1.
  pose proof (make_output_path_run _ _ out_root _ Erel w) as D. cbv zeta in D.
  change (PyPath.join out_root (PyPath.name in_root) ++ PyPath.parent rel)
    with (out_dir in_root out_root rel) in D.
  assert (Hd : kind (out_dir in_root out_root rel) (fs w) = Some KDir).
  { rewrite exists_kind in Hx.
    destruct (kind (out_dir in_root out_root rel ++ [out_name rel]) (fs w)) as [k|] eqn:Ek;
      [|done].
    eapply kind_prefix_dir; [by exists [out_name rel]| |done].
    intros E. apply (f_equal length) in E. rewrite length_app in E. simpl in E. lia. }
  rewrite (mkdir_id _ _ Hd) in D. rewrite D, set_fs_same.
  assert (E : out_dir in_root out_root rel ++
              [if PyStr.endswith (PyPath.stem rel) "_480p"
               then PyPath.stem rel +:+ ".mkv" else PyPath.stem rel +:+ "_480p.mkv"]
              = out_dir in_root out_root rel ++ [out_name rel]).
  { unfold out_name, base_with_suffix.
    destruct (PyStr.endswith (PyPath.stem rel) "_480p"); [done|]. by rewrite append_assoc. }
  rewrite E. unfold bind, get_fs. rewrite Hx. reflexivity.
Qed.
End Persistence.

(** ** The batch loop *)

Section Batch.
Variable host : Host.
Variable outdir : Path.

Lemma convert_one_preserves (root f : Path) (w : World) (q : Path) (k : Kind) :
  outside_temp host q → kind q (fs w) = Some k →
  kind q (fs (convert_one host root f outdir w).1) = Some k.
Proof.
  intros Hq Hk. pose proof (convert_one_conversion host root f outdir w) as C.
  destruct (convert_one host root f outdir w) as [w' r]. simpl.
  by eapply conversion_preserves.
Qed.

Lemma main_loop_preserves (tasks : list (Path * Path)) (t : Tally) (w : World)
    (q : Path) (k : Kind) :
  outside_temp host q → kind q (fs w) = Some k →
  kind q (fs (main_loop host tasks outdir t w).1.1) = Some k.
Proof.
  intros Hq. revert t w. induction tasks as [|[root f] rest IH]; intros t w Hk; [done|].
  simpl. pose proof (convert_one_preserves root f w q k Hq Hk) as P.
  destruct (convert_one host root f outdir w) as [w' [[[i o] st]|e]]; simpl in P.
  - specialize (IH (count st t) w' P).
    by destruct (main_loop host rest outdir (count st t) w') as [[w'' t'] rs].
  - destruct e; try done;
      specialize (IH (count_exception t) w' P);
      by destruct (main_loop host rest outdir (count_exception t) w') as [[w'' t'] rs].
Qed.

(** the first run: a reported conversion belongs to the task at the same
    position, and its output is there when the run ends *)
Lemma first_run (tasks : list (Path * Path)) (t : Tally) (w : World)
    (i : nat) (inf o : Path) (st : Status) :
  (∀ root f o, (root, f) ∈ tasks → output_path f root outdir = Some o →
               outside_temp host o) →
  (main_loop host tasks outdir t w).2 !! i = Some (Ret (inf, o, st)) →
  st = Encoded ∨ st = RemuxedAudioConverted →
  ∃ root, tasks !! i = Some (root, inf) ∧ output_path inf root outdir = Some o ∧
          is_Some (kind o (fs (main_loop host tasks outdir t w).1.1)).
Proof.
  revert t w i. induction tasks as [|[root f] rest IH]; intros t w i Ht Hi Hst; [done|].
  simpl in Hi |- *.
  pose proof (convert_one_conversion host root f outdir w) as C.
  destruct (convert_one host root f outdir w) as [w' [[[i0 o0] st0]|e]].
  - pose proof (main_loop_preserves rest (count st0 t) w') as P.
    specialize (IH (count st0 t) w').
    destruct (main_loop host rest outdir (count st0 t) w') as [[w'' t'] rs].
    simpl in *. destruct i as [|i].
    + injection Hi as -> -> ->.
      apply conversion_ret in C as (-> & Ho & Hx). destruct (Hx Hst) as [k Hk].
      exists root. split; [done|]. split; [done|]. exists k. apply P; [|done].
      eapply Ht; [|done]. by left.
    + apply IH; [|done|done]. intros root' f' o' Hin. apply Ht. by right.
  - destruct e.
    { by destruct i as [|[|i]]. }
    all: specialize (IH (count_exception t) w');
      destruct (main_loop host rest outdir (count_exception t) w') as [[w'' t'] rs];
      simpl in *; destruct i as [|i]; [done|];
      apply IH; [|done|done]; intros root' f' o' Hin; apply Ht; by right.
Qed.

(** the second run: a task whose output exists is reported as skipped *)
Lemma second_run (tasks : list (Path * Path)) (t : Tally) (w : World)
    (i : nat) (root f o : Path) (k : Kind) (r2 : result Outcome) :
  tasks !! i = Some (root, f) → output_path f root outdir = Some o →
  outside_temp host o → kind o (fs w) = Some k →
  (main_loop host tasks outdir t w).2 !! i = Some r2 →
  r2 = Ret (f, o, ExistsSkip).
Proof.
  revert t w i. induction tasks as [|[root' f'] rest IH]; intros t w i Hi Ho Hq Hk Hr; [done|].
  simpl in Hr. destruct i as [|i].
  - injection Hi as -> ->.
    rewrite (skip_when_exists host outdir root f o w Ho) in Hr
      by (by rewrite exists_kind, Hk).
    destruct (main_loop host rest outdir (count ExistsSkip t) w) as [[w'' t'] rs].
    simpl in Hr. by injection Hr.
  - simpl in Hi.
    pose proof (convert_one_preserves root' f' w o k Hq Hk) as P.
    destruct (convert_one host root' f' outdir w) as [w' [[[i0 o0] st0]|e]]; simpl in P.
    + specialize (IH (count st0 t) w' i Hi Ho Hq P).
      destruct (main_loop host rest outdir (count st0 t) w') as [[w'' t'] rs].
      simpl in *. by apply IH.
    + destruct e.
      { by destruct i. }
      all: specialize (IH (count_exception t) w' i Hi Ho Hq P);
        destruct (main_loop host rest outdir (count_exception t) w') as [[w'' t'] rs];
        simpl in *; by apply IH.
Qed.

(** an uninterrupted run reports on every task *)
Lemma main_loop_complete (tasks : list (Path * Path)) (t : Tally) (w : World) :
  Raise KeyboardInterrupt ∉ (main_loop host tasks outdir t w).2 →
  length (main_loop host tasks outdir t w).2 = length tasks.
Proof.
  revert t w. induction tasks as [|[root f] rest IH]; intros t w H; [done|].
  simpl in *.
  destruct (convert_one host root f outdir w) as [w' [[[i o] st]|e]].
  - specialize (IH (count st t) w').
    destruct (main_loop host rest outdir (count st t) w') as [[w'' t'] rs].
    simpl in *. f_equal. apply IH. intros Hin. apply H. by right.
  - destruct e.
    { exfalso. apply H. by left. }
    all: specialize (IH (count_exception t) w');
      destruct (main_loop host rest outdir (count_exception t) w') as [[w'' t'] rs];
      simpl in *; f_equal; apply IH; intros Hin; apply H; by right.
Qed.

(** C5: with overwrite disabled (as configured), a task whose destination
    exists returns skipped-exists at once, leaving the world, and so the
    log of launched processes, as it was; and when the batch is run twice
    over an output tree that no temp artifact path runs through, every task
    converted (encoded or remuxed) in the first run is reported as
    skipped-exists when the second run reaches it, as it does unless the
    user interrupts that run. *)
Theorem skip_and_idempotence (tasks : list (Path * Path)) (t t' : Tally) (w : World) :
  (∀ root f o, (root, f) ∈ tasks → output_path f root outdir = Some o →
               outside_temp host o) →
  (∀ root f o w0, output_path f root outdir = Some o → FS.exists_ o (fs w0) = true →
     convert_one host root f outdir w0 = (w0, Ret (f, o, ExistsSkip))) ∧
  (let '(w1, _, rs1) := main_loop host tasks outdir t w in
   let '(_, _, rs2) := main_loop host tasks outdir t' w1 in
   ∀ i inf o st,
     rs1 !! i = Some (Ret (inf, o, st)) → st = Encoded ∨ st = RemuxedAudioConverted →
     (∀ r2, rs2 !! i = Some r2 → r2 = Ret (inf, o, ExistsSkip)) ∧
     (Raise KeyboardInterrupt ∉ rs2 → rs2 !! i = Some (Ret (inf, o, ExistsSkip)))).
Proof.
  intros Ht. split.
  - intros root f o w0. apply skip_when_exists.
  - pose proof (first_run tasks t w) as F.
    destruct (main_loop host tasks outdir t w) as [[w1 t1] rs1]. simpl in F.
    pose proof (second_run tasks t' w1) as S.
    pose proof (main_loop_complete tasks t' w1) as L.
    destruct (main_loop host tasks outdir t' w1) as [[w2 t2] rs2]. simpl in S, L.
    intros i inf o st H1 Hst.
    destruct (F i inf o st Ht H1 Hst) as (root & Hi & Ho & [k Hk]).
    assert (Hq : outside_temp host o).
    { eapply Ht; [|done]. by eapply list_elem_of_lookup_2. }
    assert (S' : ∀ r2, rs2 !! i = Some r2 → r2 = Ret (inf, o, ExistsSkip)).
    { intros r2 H2. by eapply S. }
    split; [done|]. intros Hk2.
    destruct (lookup_lt_is_Some_2 rs2 i) as [r2 H2].
    { rewrite (L Hk2). by eapply lookup_lt_Some. }
    rewrite <- (S' r2 H2). exact H2.
Qed.
End Batch.

Lemma skip_and_idempotence_witness :
  let w1 := (main_loop working_host two_tasks ["out"] tally0 two_files_world).1.1 in
  default (Raise OSError) ((main_loop working_host two_tasks ["out"] tally0 w1).2 !! 0%nat)
  = Ret (["in"; "a.mp4"], ["out"; "in"; "a_480p.mkv"], ExistsSkip).
Proof.
  assert (H : ∀ root f o, (root, f) ∈ two_tasks →
                output_path f root ["out"] = Some o → outside_temp working_host o).
  { intros root f o Hin Ho u [r E]. rewrite temp_path_unfold in E.
    unfold two_tasks in Hin. rewrite !elem_of_cons, elem_of_nil in Hin.
    destruct Hin as [[= -> ->]|[[= -> ->]|[]]]; injection Ho as <-; discriminate. }
  destruct (skip_and_idempotence working_host ["out"] two_tasks tally0 tally0
              two_files_world H) as [_ I].
  vm_compute in I.
  destruct (I 0%nat ["in"; "a.mp4"] ["out"; "in"; "a_480p.mkv"] Encoded eq_refl
              (or_introl eq_refl)) as [I1 _].
  apply I1. vm_compute. reflexivity.
Defined.

(** * Further properties of the converter *)

(** ** Output naming and the command builder *)

(** X1: [base_with_suffix] yields a name that ends with the suffix, and
    applying it again changes nothing: a name is never suffixed twice. *)
Theorem base_with_suffix_idempotent (base suffix : string) :
  PyStr.endswith (base_with_suffix base suffix) suffix = true ∧
  base_with_suffix (base_with_suffix base suffix) suffix = base_with_suffix base suffix.
Proof.
  assert (E : PyStr.endswith (base_with_suffix base suffix) suffix = true).
  { apply endswith_spec. apply base_with_suffix_ends. }
  split; [done|]. unfold base_with_suffix at 1. by rewrite E.
Qed.

Lemma endswith_append (a b : string) : PyStr.endswith (a +:+ b) b = true.
Proof. apply endswith_spec. by exists a. Qed.

Lemma name_snoc (p : Path) (s : string) : PyPath.name (p ++ [s]) = s.
Proof. unfold PyPath.name. apply last_last. Qed.


(** X3: for a non-empty backend name the hardware encode command is the
    software encode command with "-hwaccel <name>" put in after its first
    five arguments, that is before the input; nothing else differs. *)
Theorem hardware_command_differs_by_directive (in_file out_file : Path) (h : string) :
  h ≠ "" →
  build_ffmpeg_command in_file out_file (Some h)
  = take 5 (build_ffmpeg_command in_file out_file None)
    ++ [Str "-hwaccel"; Str h]
    ++ drop 5 (build_ffmpeg_command in_file out_file None).
Proof.
  intros Hh. unfold build_ffmpeg_command.
  destruct (String.eqb_spec h ""); [done|]. reflexivity.
Qed.


Lemma tally_eq (a b : Tally) :
  done_ a = done_ b → skipped a = skipped b → remuxed a = remuxed b → errors a = errors b →
  a = b.
Proof. destruct a, b; simpl; congruence. Qed.

(** X5: the summary of the batch loop counts every reported task once: the
    four counters grow by the numbers of encoded, skipped, remuxed and
    failed reports (an exception other than an interrupt counts as a
    failure), their sum grows by the number of reports, and no more tasks
    are reported than were given. *)
Theorem summary_counts_reports (host : Host) (tasks : list (Path * Path)) (outdir : Path)
    (t : Tally) (w : World) :
  let '(_, t', rs) := main_loop host tasks outdir t w in
  t' = tally_add t (tally_of rs) ∧
  total t' = total t + Z.of_nat (length (counted rs)) ∧
  (length rs ≤ length tasks)%nat.
Proof.
  revert t w. induction tasks as [|[root f] rest IH]; intros t w.
  - simpl. split; [|split; [unfold total; lia|done]].
    apply tally_eq; simpl; lia.
  - simpl. destruct (convert_one host root f outdir w) as [w' [[[i o] st]|e]].
    + specialize (IH (count st t) w').
      destruct (main_loop host rest outdir (count st t) w') as [[w'' t'] rs].
      destruct IH as (-> & Ht & Hl). split; [|split].
      * apply tally_eq; destruct st; simpl; lia.
      * rewrite Ht. destruct st; unfold total; simpl; lia.
      * simpl. lia.
    + destruct e.
      { split; [|split; [unfold total; simpl; lia|simpl; lia]].
        apply tally_eq; simpl; lia. }
      all: specialize (IH (count_exception t) w');
        destruct (main_loop host rest outdir (count_exception t) w') as [[w'' t'] rs];
        destruct IH as (-> & Ht & Hl); (split; [|split]);
        [ apply tally_eq; simpl; lia
        | rewrite Ht; unfold total; simpl; lia
        | simpl; lia ].
Qed.

(** ** Return codes and invocations *)

Lemma spawned_app (a b : list Event) : spawned (a ++ b) = spawned a ++ spawned b.
Proof. apply omap_app. Qed.

Lemma spawned_run (cmd : list Arg) (rc : Z) (evs : list Event) :
  run_events cmd rc evs → spawned evs = [cmd].
Proof. by intros [-> | ->]. Qed.

Lemma last_run (cmd : list Arg) (rc : Z) (evs pre : list Event) :
  run_events cmd rc evs → last (pre ++ evs) = Some (Returned rc).
Proof.
  intros [-> | ->].
  - change [Spawn cmd; Returned rc] with ([Spawn cmd] ++ [Returned rc]).
    by rewrite app_assoc, last_snoc.
  - change [Spawn cmd; Terminate; Returned rc] with ([Spawn cmd; Terminate] ++ [Returned rc]).
    by rewrite app_assoc, last_snoc.
Qed.

Lemma remux_outcome_code (i o t : Path) (n n' : Node) (evs pre : list Event) (x : Outcome) :
  remux_outcome i o t n n' evs (Ret (Some x)) → last (pre ++ evs) = Some (Returned 0).
Proof.
  intros (rc & Hev & [[-> _]|[_ [[? _]|[? _]]]]); try done. by eapply last_run.
Qed.

Section Codes.
Variable host : Host.

Lemma encode_events_last (i t : Path) (rc : Z) (evs pre : list Event) :
  encode_events host i t rc evs → last (pre ++ evs) = Some (Returned rc).
Proof.
  unfold encode_events. destruct (truthy_opt (HWACCEL host)).
  - intros [[-> Hev]|(rc1 & e1 & e2 & _ & -> & _ & H2)].
    + by eapply last_run.
    + rewrite app_assoc. by eapply last_run.
  - intros Hev. by eapply last_run.
Qed.

Lemma encode_outcome_code (i o t : Path) (n n' : Node) (evs pre : list Event) (x : Outcome) :
  encode_outcome host i o t n n' evs (Ret x) →
  (x = (i, o, Encoded) ∧ last (pre ++ evs) = Some (Returned 0)) ∨
  (∃ rc, x = (i, o, Error rc) ∧ rc ≠ 0 ∧ last (pre ++ evs) = Some (Returned rc)).
Proof.
  intros [(rc & Hev & [[-> [[E C]|[E _]]]|[Hrc [(E & T & K)|(E & _)]]])|(rc1 & _ & _ & _ & E & _)];
    try done.
  - left. injection E as ->. split; [done|]. by eapply encode_events_last.
  - right. exists rc. injection E as ->. split; [done|]. split; [done|].
    by eapply encode_events_last.
Qed.

Lemma encode_outcome_spawned_sw (i o t : Path) (n n' : Node) (evs : list Event)
    (r : result Outcome) :
  truthy_opt (HWACCEL host) = false → encode_outcome host i o t n n' evs r →
  spawned evs = [build_ffmpeg_command i t None].
Proof.
  intros Eh. unfold encode_outcome, encode_events. rewrite Eh.
  intros [(rc & Hev & _)|(rc1 & _ & ? & _)]; [|done]. by eapply spawned_run.
Qed.

Variables in_root in_file out_root : Path.

(** X6: the outcome of a task reflects the last return code of the engine:
    a skipped task logs nothing; encoded and remuxed follow a return code
    0; error(rc) carries the non-zero code [run_cmd] returned last. *)
Theorem outcome_reflects_last_return_code (w w' : World) (i o : Path) (st : Status) :
  convert_one host in_root in_file out_root w = (w', Ret (i, o, st)) →
  match st with
  | ExistsSkip => log w' = log w
  | Encoded | RemuxedAudioConverted => last (log w') = Some (Returned 0)
  | Error rc => rc ≠ 0 ∧ last (log w') = Some (Returned rc)
  end.
Proof.
  intros H. pose proof (convert_one_conversion host in_root in_file out_root w) as C.
  rewrite H in C. clear H.
  inversion C as
    [ | | rel o' n0 Hrel Ho Hm Hx | | rel o' n0 w2 r evs Hrel Ho Hm Hk Hl He
      | rel o' n0 w2 x evs Hrel Ho Hm Hk Hl Hr | | rel o' n0 n1 w2 r evs1 evs2 Hrel Ho Hm Hk Hl Hr He ];
    subst.
  - done.
  - rewrite Hl.
    change (log w ++ Spawn (ffprobe_command in_file) :: evs)
      with (log w ++ [Spawn (ffprobe_command in_file)] ++ evs).
    rewrite app_assoc.
    apply (encode_outcome_code _ _ _ _ _ _ (log w ++ [Spawn (ffprobe_command in_file)]))
      in He as [[E L]|(rc & E & Hrc & L)]; by simplify_eq.
  - rewrite Hl.
    change (log w ++ Spawn (ffprobe_command in_file) :: evs)
      with (log w ++ [Spawn (ffprobe_command in_file)] ++ evs).
    rewrite app_assoc.
    pose proof (remux_outcome_code _ _ _ _ _ _
                  (log w ++ [Spawn (ffprobe_command in_file)]) _ Hr) as L.
    apply remux_outcome_done in Hr as [E _]. by simplify_eq.
  - rewrite Hl.
    change (log w ++ Spawn (ffprobe_command in_file) :: evs1 ++ evs2)
      with (log w ++ ([Spawn (ffprobe_command in_file)] ++ evs1) ++ evs2).
    rewrite app_assoc.
    apply (encode_outcome_code _ _ _ _ _ _
             (log w ++ [Spawn (ffprobe_command in_file)] ++ evs1))
      in He as [[E L]|(rc & E & Hrc & L)]; by simplify_eq.
Qed.

(** X7: when no acceleration backend was detected, no command line the task
    launches carries the "-hwaccel" directive. *)
Theorem no_backend_no_directive (w : World) :
  truthy_opt (HWACCEL host) = false →
  Forall (λ c, has_arg "-hwaccel" c = false)
    (spawned (new_events w (convert_one host in_root in_file out_root w).1)).
Proof.
  intros Eh.
  pose proof (convert_one_conversion host in_root in_file out_root w) as C.
  destruct (convert_one host in_root in_file out_root w) as [w' r]. simpl.
  inversion C as
    [ | | rel o' n0 Hrel Ho Hm Hx | rel o' n0 w2 e Hrel Ho Hm Hk Hf Hl
      | rel o' n0 w2 r2 evs Hrel Ho Hm Hk Hl He
      | rel o' n0 w2 x evs Hrel Ho Hm Hk Hl Hr
      | rel o' n0 w2 e evs Hrel Ho Hm Hk Hl Hr
      | rel o' n0 n1 w2 r2 evs1 evs2 Hrel Ho Hm Hk Hl Hr He ]; subst.
  - unfold new_events. rewrite drop_all. constructor.
  - unfold new_events. rewrite drop_all. constructor.
  - unfold new_events. simpl. rewrite drop_all. constructor.
  - rewrite (new_events_app _ _ _ Hl). by repeat constructor.
  - rewrite (new_events_app _ _ _ Hl).
    change (Spawn (ffprobe_command in_file) :: evs)
      with ([Spawn (ffprobe_command in_file)] ++ evs).
    rewrite spawned_app, (encode_outcome_spawned_sw _ _ _ _ _ _ _ Eh He).
    by repeat constructor.
  - rewrite (new_events_app _ _ _ Hl).
    change (Spawn (ffprobe_command in_file) :: evs)
      with ([Spawn (ffprobe_command in_file)] ++ evs).
    destruct Hr as (rc & Hev & _).
    rewrite spawned_app, (spawned_run _ _ _ Hev). by repeat constructor.
  - rewrite (new_events_app _ _ _ Hl).
    change (Spawn (ffprobe_command in_file) :: evs)
      with ([Spawn (ffprobe_command in_file)] ++ evs).
    destruct Hr as (rc & Hev & _).
    rewrite spawned_app, (spawned_run _ _ _ Hev). by repeat constructor.
  - rewrite (new_events_app _ _ _ Hl).
    change (Spawn (ffprobe_command in_file) :: evs1 ++ evs2)
      with ([Spawn (ffprobe_command in_file)] ++ evs1 ++ evs2).
    destruct Hr as (rc & Hev & _).
    rewrite !spawned_app, (spawned_run _ _ _ Hev),
      (encode_outcome_spawned_sw _ _ _ _ _ _ _ Eh He).
    by repeat constructor.
Qed.
End Codes.

(** ** The probe decides the path *)

Lemma classifier_raises (info : json) (e : Exc) :
  already_satisfies_480p info = Raise e → e = AttributeError ∨ e = TypeError.
Proof.
  unfold already_satisfies_480p.
  destruct (negb (truthy info)); [done|].
  destruct info as [| | | | |d]; simpl; try (intros [= <-]; by left).
  destruct (py_lower _) as [pix|e1] eqn:E1.
  2: { intros [= <-]. left. unfold py_lower in E1. by repeat case_match; simplify_eq. }
  destruct (py_lower (py_or (default JNull (d !! "codec_name")) _)) as [codec|e2] eqn:E2.
  2: { intros [= <-]. left. unfold py_lower in E2. by repeat case_match; simplify_eq. }
  destruct (is_not_None _); [|done]. simpl.
  destruct (is_not_None _); [|done]. simpl.
  destruct (py_le _ 854) as [[|]|e3] eqn:E3; try done.
  2: { intros [= <-]. right. unfold py_le in E3. by repeat case_match; simplify_eq. }
  destruct (py_le _ 480) as [[|]|e4] eqn:E4; try done.
  2: { intros [= <-]. right. unfold py_le in E4. by repeat case_match; simplify_eq. }
  by destruct (negb _).
Qed.

Section Branches.
Variable host : Host.
Variables in_root in_file out_root : Path.

Lemma ffprobe_info_probed (w : World) :
  ffprobe_info host in_file w
  = (tick (emit (Spawn (ffprobe_command in_file)) w), probed host in_file (clock w)).
Proof.
  unfold probed, ffprobe_info, try_except_Exception, bind, probe_json, lift, ret. simpl.
  destruct (ffprobe_run host (clock w) (ffprobe_command in_file)) as [e|data].
  - by destruct (is_Exception e).
  - destruct (py_get data "streams") as [v|e]; simpl.
    + destruct (truthy (py_or v (JList []))); [|done].
      destruct (py_index0 (py_or v (JList []))) as [x|e]; [done|].
      by destruct (is_Exception e).
    + by destruct (is_Exception e).
Qed.

Lemma py_get_raises (v : json) (k : string) (e : Exc) :
  py_get v k = Raise e → is_Exception e = true.
Proof. destruct v; simpl; intros [= <-]; done. Qed.

Lemma py_index0_raises (v : json) (e : Exc) :
  py_index0 v = Raise e → is_Exception e = true.
Proof.
  destruct v as [| | |s|l|d]; simpl; try (intros [= <-]; done).
  - destruct s; [intros [= <-]; done|done].
  - destruct l; [intros [= <-]; done|done].
Qed.

Lemma probed_raises (c : nat) (e : Exc) :
  probed host in_file c = Raise e →
  e = KeyboardInterrupt ∧
  ffprobe_run host c (ffprobe_command in_file) = ProbeRaised KeyboardInterrupt.
Proof.
  unfold probed, ffprobe_info, try_except_Exception, bind, probe_json, lift, ret. simpl.
  destruct (ffprobe_run host c (ffprobe_command in_file)) as [e'|data].
  - destruct e'; simpl; try done. by intros [= <-].
  - destruct (py_get data "streams") as [v|e'] eqn:Eg; simpl.
    + destruct (truthy (py_or v (JList []))); [|done].
      destruct (py_index0 (py_or v (JList []))) as [x|e'] eqn:Ei; [done|].
      by rewrite (py_index0_raises _ _ Ei).
    + by rewrite (py_get_raises _ _ _ Eg).
Qed.

(** [convert_one] past the existence check, stage by stage *)
Lemma convert_one_stages (w : World) (rel : Path) (n0 : Node) :
  PyPath.relative_to in_file in_root = Some rel →
  FS.mkdir_parents (out_dir in_root out_root rel) (fs w) = Some n0 →
  let o := out_dir in_root out_root rel ++ [out_name rel] in
  FS.exists_ o n0 = false →
  let w1 := tick (emit (Spawn (ffprobe_command in_file)) (set_fs n0 w)) in
  convert_one host in_root in_file out_root w =
  match probed host in_file (clock w) with
  | Ret info =>
      match already_satisfies_480p info with
      | Ret true =>
          match try_remux host in_file o w1 with
          | (w2, Ret (Some x)) => (w2, Ret x)
          | (w2, Ret None) => full_encode host in_file o w2
          | (w2, Raise e) => (w2, Raise e)
          end
      | Ret false => full_encode host in_file o w1
      | Raise e => (w1, Raise e)
      end
  | Raise e => (w1, Raise e)
  end.
Proof.
  intros Erel Em o Ex w1.
  unfold convert_one, bind at 1, make_output_path. rewrite Erel.
  fold (out_dir in_root out_root rel).
  unfold bind at 1, fs_op. rewrite Em.
  unfold ret at 1. fold (out_name rel).
  rewrite join_nonempty by (apply append_nonempty; discriminate).
  fold o. unfold bind at 1, get_fs. cbn [fs set_fs]. rewrite Ex.
  cbn [OVERWRITE negb andb SKIP_IF_ALREADY_480P].
  unfold bind at 1. unfold bind at 1.
  rewrite ffprobe_info_probed. cbn [clock set_fs]. fold w1.
  destruct (probed host in_file (clock w)) as [info|e]; [|done].
  unfold bind at 1, lift at 1.
  destruct (already_satisfies_480p info) as [[|]|e]; [| |done].
  - destruct (try_remux host in_file o w1) as [w2 [[x|]|e]]; done.
  - unfold ret at 1. by destruct (full_encode host in_file o w1).
Qed.
End Branches.

Lemma remux_outcome_raise (i o t : Path) (n n' : Node) (evs : list Event) (e : Exc) :
  remux_outcome i o t n n' evs (Raise e) → e = OSError.
Proof.
  intros (rc & _ & [[_ [[? _]|[E _]]]|[_ [[? _]|[E _]]]]); try done; by injection E.
Qed.

Section Decision.
Variable host : Host.
Variables in_root in_file out_root : Path.

Lemma encode_outcome_raise (i o t : Path) (n n' : Node) (evs : list Event) (e : Exc) :
  encode_outcome host i o t n n' evs (Raise e) → e = OSError.
Proof.
  intros [(rc & _ & [[_ [[? _]|[E _]]]|[_ [[? _]|[E _]]]])|(rc1 & _ & _ & _ & E & _)];
    try done; by injection E.
Qed.

Lemma new_events_same (w : World) : new_events w w = [].
Proof. unfold new_events. by rewrite drop_all. Qed.

Lemma new_events_set_fs (w : World) (n : Node) : new_events w (set_fs n w) = [].
Proof. unfold new_events. simpl. by rewrite drop_all. Qed.

(** the possible runs past the existence check, with what they log *)
Lemma stages_cases (w : World) (rel : Path) (n0 : Node) :
  PyPath.relative_to in_file in_root = Some rel →
  FS.mkdir_parents (out_dir in_root out_root rel) (fs w) = Some n0 →
  let o := out_dir in_root out_root rel ++ [out_name rel] in
  FS.exists_ o n0 = false →
  let t1 := temp_path host (uuid4_hex host (S (clock w))) in
  let w' := (convert_one host in_root in_file out_root w).1 in
  let r := (convert_one host in_root in_file out_root w).2 in
  let l := attempts (new_events w w') in
  match probed host in_file (clock w) with
  | Ret info =>
      match already_satisfies_480p info with
      | Ret true => (∃ l', l = (Remux, t1) :: l') ∧ (∀ e, r = Raise e → e = OSError)
      | Ret false => encode_attempts t1 l ∧ (∀ e, r = Raise e → e = OSError)
      | Raise e => l = [] ∧ r = Raise e
      end
  | Raise e => l = [] ∧ r = Raise e
  end.
Proof.
  intros Erel Em o Ex t1 w' r l. subst w' r l.
  rewrite (convert_one_stages host in_root in_file out_root w rel n0 Erel Em Ex).
  fold o. set (w1 := tick (emit (Spawn (ffprobe_command in_file)) (set_fs n0 w))).
  assert (L1 : log w1 = log w ++ [Spawn (ffprobe_command in_file)]) by done.
  assert (Ko : kind o (fs w1) = None) by (by apply exists_false_kind).
  destruct (probed host in_file (clock w)) as [info|e].
  2: { simpl. by rewrite (new_events_app _ _ _ L1). }
  destruct (already_satisfies_480p info) as [[|]|e].
  3: { simpl. by rewrite (new_events_app _ _ _ L1). }
  - destruct (try_remux_spec host in_file o w1) as (w2 & r1 & evs1 & E1 & L2 & C1 & R1);
      [done|apply temp_path_not_output|apply temp_path_nonempty|].
    rewrite E1. change (clock w1) with (S (clock w)) in R1. fold t1 in R1.
    pose proof (remux_attempts _ _ _ _ _ _ _ R1) as A1.
    destruct r1 as [[x|]|e].
    + simpl. split; [|done]. exists [].
      rewrite (new_events_app w w2 (Spawn (ffprobe_command in_file) :: evs1))
        by (by rewrite L2, L1, <- app_assoc).
      by change (attempts (Spawn (ffprobe_command in_file) :: evs1)) with (attempts evs1).
    + assert (Ho2 : kind o (fs w2) = None).
      { apply remux_outcome_failed in R1 as [T _]. rewrite T; [done|].
        intros E. symmetry in E. by apply temp_path_not_output in E. }
      destruct (full_encode_spec host in_file o w2) as (w3 & r & evs2 & E2 & L3 & R2);
        [done|apply temp_path_not_output|apply temp_path_nonempty|].
      rewrite E2. simpl. split.
      * exists (attempts evs2).
        rewrite (new_events_app w w3 (Spawn (ffprobe_command in_file) :: evs1 ++ evs2))
          by (by rewrite L3, L2, L1, <- !app_assoc).
        change (attempts (Spawn (ffprobe_command in_file) :: evs1 ++ evs2))
          with (attempts (evs1 ++ evs2)).
        by rewrite attempts_app, A1.
      * intros e ->. by eapply encode_outcome_raise.
    + simpl. split.
      * exists [].
        rewrite (new_events_app w w2 (Spawn (ffprobe_command in_file) :: evs1))
          by (by rewrite L2, L1, <- app_assoc).
        by change (attempts (Spawn (ffprobe_command in_file) :: evs1)) with (attempts evs1).
      * intros e' [= <-]. by eapply remux_outcome_raise.
  - destruct (full_encode_spec host in_file o w1) as (w3 & r & evs2 & E2 & L3 & R2);
      [done|apply temp_path_not_output|apply temp_path_nonempty|].
    rewrite E2. simpl. change (clock w1) with (S (clock w)) in R2. fold t1 in R2. split.
    + rewrite (new_events_app w w3 (Spawn (ffprobe_command in_file) :: evs2))
        by (by rewrite L3, L1, <- app_assoc).
      change (attempts (Spawn (ffprobe_command in_file) :: evs2)) with (attempts evs2).
      by eapply encode_attempts_of.
    + intros e ->. by eapply encode_outcome_raise.
Qed.

(** the three ways to stop before the probe *)
Lemma early_cases (w : World) :
  (∃ e, convert_one host in_root in_file out_root w = (w, Raise e) ∧
        (e = ValueError ∨ e = OSError)) ∨
  (∃ rel n0, PyPath.relative_to in_file in_root = Some rel ∧
     FS.mkdir_parents (out_dir in_root out_root rel) (fs w) = Some n0 ∧
     ((FS.exists_ (out_dir in_root out_root rel ++ [out_name rel]) n0 = true ∧
       convert_one host in_root in_file out_root w
       = (set_fs n0 w, Ret (in_file, out_dir in_root out_root rel ++ [out_name rel],
                            ExistsSkip))) ∨
      FS.exists_ (out_dir in_root out_root rel ++ [out_name rel]) n0 = false)).
Proof.
  destruct (PyPath.relative_to in_file in_root) as [rel|] eqn:Erel.
  2: { left. exists ValueError. split; [|by left].
       unfold convert_one, bind, make_output_path. by rewrite Erel. }
  destruct (FS.mkdir_parents (out_dir in_root out_root rel) (fs w)) as [n0|] eqn:Em.
  2: { left. exists OSError. split; [|by right].
       unfold convert_one, bind at 1, make_output_path. rewrite Erel.
       fold (out_dir in_root out_root rel). unfold bind, fs_op. by rewrite Em. }
  right. exists rel, n0. split; [done|]. split; [done|].
  destruct (FS.exists_ (out_dir in_root out_root rel ++ [out_name rel]) n0) eqn:Ex; [|by right].
  left. split; [done|].
  unfold convert_one, bind at 1, make_output_path. rewrite Erel.
  fold (out_dir in_root out_root rel). unfold bind at 1, fs_op. rewrite Em.
  unfold ret at 1. fold (out_name rel).
  rewrite join_nonempty by (apply append_nonempty; discriminate).
  unfold bind, get_fs. cbn [fs set_fs]. by rewrite Ex.
Qed.

(** X8: the probe decides the path of a task. With a compliant profile the
    first engine attempt, if there is one, is the remux into a new temp
    path; with a non-compliant profile (the empty profile of a failed
    probe included) no remux is ever attempted, only the encode stage
    runs; when the prober or the classifier raises, the engine is not run
    at all. *)
Theorem compliance_decides_first_attempt (w : World) :
  let l := attempts (new_events w (convert_one host in_root in_file out_root w).1) in
  let t1 := temp_path host (uuid4_hex host (S (clock w))) in
  match probed host in_file (clock w) with
  | Ret info =>
      match already_satisfies_480p info with
      | Ret true => l = [] ∨ ∃ l', l = (Remux, t1) :: l'
      | Ret false => l = [] ∨ encode_attempts t1 l
      | Raise _ => l = []
      end
  | Raise _ => l = []
  end.
Proof.
  intros l t1. subst l.
  destruct (early_cases w) as [(e & E & _)|(rel & n0 & Erel & Em & [[Ex E]|Ex])].
  - rewrite E. simpl. rewrite new_events_same. by repeat case_match; try left.
  - rewrite E. simpl. rewrite new_events_set_fs. by repeat case_match; try left.
  - pose proof (stages_cases w rel n0 Erel Em Ex) as S. cbv zeta in S. fold t1 in S.
    destruct (probed host in_file (clock w)) as [info|e]; [|by destruct S].
    destruct (already_satisfies_480p info) as [[|]|e]; [| |by destruct S].
    + right. by destruct S.
    + right. by destruct S.
Qed.

End Decision.

(** ** What a failed task leaves behind *)

Lemma mkdir_kind_cases (p q : Path) (n n' : Node) :
  FS.mkdir_parents p n = Some n' →
  kind q n' = kind q n ∨ (kind q n = None ∧ kind q n' = Some KDir ∧ q `prefix_of` p).
Proof.
  intros Hm. destruct (kind q n') as [k|] eqn:E'.
  - destruct (mkdir_kind_new _ _ _ _ _ Hm E') as [->|[Hp ->]]; [by left|].
    destruct (kind q n) as [k0|] eqn:E0; [|by right].
    left. by rewrite (mkdir_kind_mono _ _ _ _ _ Hm E0) in E'.
  - left. destruct (kind q n) as [k0|] eqn:E0; [|done].
    by rewrite (mkdir_kind_mono _ _ _ _ _ Hm E0) in E'.
Qed.

Section Frame.
Variable host : Host.
Variables in_root in_file out_root : Path.

(** X10: a task that ends in error(rc) leaves every path other than temp
    artifact paths as it was, apart from the directories created on the way
    to the output directory. *)
Theorem failed_task_leaves_the_rest (w w' : World) (i o : Path) (rc : Z) :
  convert_one host in_root in_file out_root w = (w', Ret (i, o, Error rc)) →
  ∀ q, (∀ u, q ≠ temp_path host u) →
    kind q (fs w') = kind q (fs w) ∨
    (kind q (fs w) = None ∧ kind q (fs w') = Some KDir ∧ q `prefix_of` PyPath.parent o).
Proof.
  intros H q Hq. pose proof (convert_one_conversion host in_root in_file out_root w) as C.
  rewrite H in C. clear H.
  assert (P : ∀ rel, output_path in_file in_root out_root = Some o →
              PyPath.relative_to in_file in_root = Some rel →
              PyPath.parent o = out_dir in_root out_root rel).
  { intros rel Ho Hrel. unfold output_path in Ho. rewrite Hrel in Ho.
    injection Ho as <-. apply parent_snoc. }
  inversion C as
    [ | | | | rel o' n0 w2 r evs Hrel Ho Hm Hk Hl He
      | rel o' n0 w2 x evs Hrel Ho Hm Hk Hl Hr | | rel o' n0 n1 w2 r evs1 evs2 Hrel Ho Hm Hk Hl Hr He ];
    subst.
  - apply encode_outcome_ret in He as [[E _]|(rc' & E & _ & T & _)]; [done|].
    injection E as -> -> ->. rewrite (P rel Ho Hrel), (T q (Hq _)).
    by apply mkdir_kind_cases.
  - by apply remux_outcome_done in Hr as [E _].
  - apply remux_outcome_failed in Hr as [T1 _].
    apply encode_outcome_ret in He as [[E _]|(rc' & E & _ & T & _)]; [done|].
    injection E as -> -> ->. rewrite (P rel Ho Hrel), (T q (Hq _)), (T1 q (Hq _)).
    by apply mkdir_kind_cases.
Qed.
End Frame.

(** ** Sample runs *)


Lemma hardware_command_differs_by_directive_witness :
  build_ffmpeg_command ["in"; "a.mp4"] ["tmp"; "x.tmp.mkv"] (Some "vaapi")
  = take 5 (build_ffmpeg_command ["in"; "a.mp4"] ["tmp"; "x.tmp.mkv"] None)
    ++ [Str "-hwaccel"; Str "vaapi"]
    ++ drop 5 (build_ffmpeg_command ["in"; "a.mp4"] ["tmp"; "x.tmp.mkv"] None).
Proof.
  apply (hardware_command_differs_by_directive ["in"; "a.mp4"] ["tmp"; "x.tmp.mkv"] "vaapi").
  discriminate.
Defined.

Lemma outside_temp_in (host : Host) (x : string) (q : Path) :
  TEMP_DIR host = ["tmp"; "Temp"] → x ≠ "tmp" → outside_temp host (x :: q).
Proof.
  intros Ht Hx u [r E]. rewrite temp_path_unfold, Ht in E. simpl in E. by injection E.
Qed.


Lemma outcome_reflects_last_return_code_witness :
  (1 ≠ 0) ∧
  last (log (convert_one bare_host ["in"] ["in"; "a.mp4"] ["out"] two_files_world).1)
  = Some (Returned 1).
Proof.
  apply (outcome_reflects_last_return_code bare_host ["in"] ["in"; "a.mp4"] ["out"]
           two_files_world _ ["in"; "a.mp4"] ["out"; "in"; "a_480p.mkv"] (Error 1)).
  vm_compute. reflexivity.
Defined.

Lemma no_backend_no_directive_witness :
  Forall (λ c, has_arg "-hwaccel" c = false)
    (spawned (new_events two_files_world
                (convert_one working_host ["in"] ["in"; "a.mp4"] ["out"] two_files_world).1)).
Proof.
  apply (no_backend_no_directive working_host ["in"] ["in"; "a.mp4"] ["out"] two_files_world).
  reflexivity.
Defined.


Lemma failed_task_leaves_the_rest_witness :
  let w' := (convert_one bare_host ["in"] ["in"; "a.mp4"] ["out"] two_files_world).1 in
  kind ["out"; "in"] (fs w') = kind ["out"; "in"] (fs two_files_world) ∨
  (kind ["out"; "in"] (fs two_files_world) = None ∧ kind ["out"; "in"] (fs w') = Some KDir ∧
   ["out"; "in"] `prefix_of` PyPath.parent ["out"; "in"; "a_480p.mkv"]).
Proof.
  apply (failed_task_leaves_the_rest bare_host ["in"] ["in"; "a.mp4"] ["out"] two_files_world
           _ ["in"; "a.mp4"] ["out"; "in"; "a_480p.mkv"] 1).
  - vm_compute. reflexivity.
  - intros u E. rewrite temp_path_unfold in E. discriminate.
Defined.

(** * The surroundings of the converter *)

(** ** The capability detector *)

Lemma find_first {A} (f : A → bool) (l : list A) (x : A) :
  List.find f l = Some x →
  f x = true ∧ ∃ pre post, l = pre ++ x :: post ∧ ∀ y, y ∈ pre → f y = false.
Proof.
  induction l as [|a l IH]; [done|]. simpl. destruct (f a) eqn:Efa.
  - intros [= ->]. split; [done|]. exists [], l. split; [done|].
    intros y Hy. by apply elem_of_nil in Hy.
  - intros H. destruct (IH H) as (Hx & pre & post & -> & Hpre). split; [done|].
    exists (a :: pre), post. split; [done|]. intros y [->|Hy]%elem_of_cons; auto.
Qed.

Lemma find_none_iff {A} (f : A → bool) (l : list A) :
  List.find f l = None ↔ ∀ y, y ∈ l → f y = false.
Proof.
  induction l as [|a l IH]; simpl.
  - split; [|done]. intros _ y Hy. by apply elem_of_nil in Hy.
  - destruct (f a) eqn:Efa.
    + split; [done|]. intros H. rewrite H in Efa; [done|]. by left.
    + rewrite IH. split.
      * intros H y [->|Hy]%elem_of_cons; auto.
      * intros H y Hy. apply H. by right.
Qed.

Lemma preference_same_names (p : string) :
  p ∈ hwaccel_preference true ↔ p ∈ hwaccel_preference false.
Proof.
  unfold hwaccel_preference. rewrite !elem_of_cons, !elem_of_nil. tauto.
Qed.



Lemma detect_hwaccel_none (win : bool) (out : list string) :
  detect_hwaccel win (Ret out) = Ret None ↔
  ∀ q, q ∈ hwaccel_preference win → q ∉ hwaccels_found out.
Proof.
  unfold detect_hwaccel.
  set (f := λ p : string, bool_decide (p ∈ hwaccels_found out)).
  set (l := hwaccel_preference win). clearbody l. split.
  - intros H q Hq. assert (E : List.find f l = None) by congruence.
    apply (proj1 (find_none_iff _ _) E) in Hq. by apply bool_decide_eq_false in Hq.
  - intros H. f_equal. apply find_none_iff. intros y Hy.
    apply bool_decide_eq_false. by apply H.
Qed.

(** X11: the capability detector returns the first name of the platform's
    preference order that the engine's listing contains, and that name is
    a non-empty string, so the converter's truth test on it succeeds; it
    returns no backend exactly when the listing contains none of the
    eight names, which does not depend on the platform; any ordinary
    exception while querying the engine gives no backend, and a keyboard
    interrupt is passed on. *)
Theorem detect_hwaccel_first_preference (win : bool) (out : list string) :
  (∃ r, detect_hwaccel win (Ret out) = Ret r ∧
     match r with
     | Some p =>
         p ∈ hwaccels_found out ∧ truthy_opt (Some p) = true ∧
         ∃ pre post, hwaccel_preference win = pre ++ p :: post ∧
                     ∀ q, q ∈ pre → q ∉ hwaccels_found out
     | None => ∀ q, q ∈ hwaccel_preference win → q ∉ hwaccels_found out
     end) ∧
  (detect_hwaccel true (Ret out) = Ret None ↔ detect_hwaccel false (Ret out) = Ret None) ∧
  (∀ e, detect_hwaccel win (Raise e) =
        if is_Exception e then Ret None else Raise e) ∧
  detect_hwaccel win (Raise KeyboardInterrupt) = Raise KeyboardInterrupt.
Proof.
  split; [|split; [|split]]; [| | done | done].
  - eexists. split; [reflexivity|].
    destruct (List.find _ (hwaccel_preference win)) as [p|] eqn:Ef.
    + apply find_first in Ef as (Hp & pre & post & E & Hpre).
      apply bool_decide_eq_true in Hp. split; [done|]. split.
      * assert (Hin : p ∈ hwaccel_preference win) by (rewrite E; set_solver).
        destruct win; unfold hwaccel_preference in Hin;
          rewrite !elem_of_cons, elem_of_nil in Hin;
          by repeat destruct Hin as [->|Hin].
      * exists pre, post. split; [done|]. intros q Hq.
        specialize (Hpre q Hq). by apply bool_decide_eq_false in Hpre.
    + intros q Hq. apply (proj1 (find_none_iff _ _) Ef) in Hq.
      by apply bool_decide_eq_false in Hq.
  - rewrite !detect_hwaccel_none. split; intros H q Hq; apply H;
      by apply preference_same_names.
Qed.

(** ** Collecting the sources *)

Lemma node_size_child (m : gmap string Node) (k : string) (c : Node) :
  m !! k = Some c → (node_size c < node_size (Dir m))%nat.
Proof.
  simpl. revert k c.
  apply (map_fold_weak_ind
           (λ r m, ∀ k c, m !! k = Some c → (node_size c < S r)%nat)).
  - intros k c E. by rewrite lookup_empty in E.
  - intros i x m' r Hi IH k c E. destruct (decide (k = i)) as [->|Hne].
    + rewrite lookup_insert_eq in E. injection E as ->. lia.
    + rewrite lookup_insert_ne in E by done. specialize (IH k c E). lia.
Qed.

Lemma Node_tree_ind (P : Node → Prop) :
  P File →
  (∀ m, (∀ k c, m !! k = Some c → P c) → P (Dir m)) →
  ∀ n, P n.
Proof.
  intros HF HD n. remember (node_size n) as s eqn:Hs. revert n Hs.
  induction (lt_wf s) as [s _ IH]. intros [|m] ->; [done|].
  apply HD. intros k c E. eapply IH; [|done]. by eapply node_size_child.
Qed.

Lemma map_fold_entries {B} (f : string → Node → B) (m : gmap string Node) (k : string) (v : B) :
  (k, v) ∈ map_fold (λ k c acc, (k, f k c) :: acc) [] m ↔
  ∃ c, m !! k = Some c ∧ v = f k c.
Proof.
  revert k v.
  apply (map_fold_weak_ind
           (λ r m, ∀ k v, (k, v) ∈ r ↔ ∃ c, m !! k = Some c ∧ v = f k c)).
  - intros k v. split.
    + intros H. by apply elem_of_nil in H.
    + intros (c & E & _). by rewrite lookup_empty in E.
  - intros i x m' r Hi IH k v. rewrite elem_of_cons, IH. split.
    + intros [[= -> ->]|(c & E & ->)].
      * exists x. by rewrite lookup_insert_eq.
      * exists c. split; [|done]. rewrite lookup_insert_ne; [done|]. congruence.
    + intros (c & E & ->). destruct (decide (k = i)) as [->|Hne].
      * rewrite lookup_insert_eq in E. injection E as ->. by left.
      * rewrite lookup_insert_ne in E by done. right. by exists c.
Qed.

Section WalkFacts.

Variable scandir_order : ∀ A : Type, list (string * A) → list (string * A).
Hypothesis scandir_order_perm : ∀ A (l : list (string * A)), scandir_order A l ≡ₚ l.

Lemma entries_elem top m k kd r :
  (k, (kd, r)) ∈ entries scandir_order top m ↔
  ∃ c, m !! k = Some c ∧ kd = kind_of c ∧ r = walk scandir_order (top ++ [k]) c.
Proof.
  unfold entries. rewrite scandir_order_perm.
  rewrite (map_fold_entries (λ k c, (kind_of c, walk scandir_order (top ++ [k]) c))).
  split; intros (c & E & H); exists c; (split; [done|]).
  - by injection H as -> ->.
  - by destruct H as [-> ->].
Qed.

Lemma walk_Dir top m :
  walk scandir_order top (Dir m) =
  (top,
   omap (λ e : string * (Kind * list (Path * list string * list string)),
           match e.2.1 with KDir => Some e.1 | KFile => None end) (entries scandir_order top m),
   omap (λ e : string * (Kind * list (Path * list string * list string)),
           match e.2.1 with KFile => Some e.1 | KDir => None end) (entries scandir_order top m))
    :: flat_map (λ e : string * (Kind * list (Path * list string * list string)),
                   match e.2.1 with KDir => e.2.2 | KFile => [] end) (entries scandir_order top m).
Proof. reflexivity. Qed.

Lemma nondirs_elem top m k :
  k ∈ omap (λ e : string * (Kind * list (Path * list string * list string)),
              match e.2.1 with KFile => Some e.1 | KDir => None end) (entries scandir_order top m)
  ↔ m !! k = Some File.
Proof.
  rewrite list_elem_of_omap. split.
  - intros ([k' [kd r]] & Hin & E). simpl in E. destruct kd; [|done].
    injection E as ->. apply entries_elem in Hin as (c & Ec & Hk & _).
    by destruct c.
  - intros E. exists (k, (KFile, walk scandir_order (top ++ [k]) File)). split; [|done].
    apply entries_elem. by exists File.
Qed.

Lemma subwalk_elem top m x :
  x ∈ flat_map (λ e : string * (Kind * list (Path * list string * list string)),
                  match e.2.1 with KDir => e.2.2 | KFile => [] end) (entries scandir_order top m)
  ↔ ∃ k m', m !! k = Some (Dir m') ∧ x ∈ walk scandir_order (top ++ [k]) (Dir m').
Proof.
  rewrite list_elem_of_In, in_flat_map. split.
  - intros ([k [kd r]] & Hin & Hx). apply list_elem_of_In in Hin.
    apply entries_elem in Hin as (c & Ec & -> & ->). simpl in Hx.
    destruct c as [|m']; [done|]. exists k, m'. split; [done|].
    by apply list_elem_of_In.
  - intros (k & m' & E & Hx).
    exists (k, (KDir, walk scandir_order (top ++ [k]) (Dir m'))). split.
    + apply list_elem_of_In, entries_elem. by exists (Dir m').
    + by apply list_elem_of_In.
Qed.

Lemma walk_sound n : ∀ top d ds fl,
  (d, ds, fl) ∈ walk scandir_order top n →
  ∃ rel m, d = top ++ rel ∧ FS.lookup rel n = Some (Dir m) ∧
           ∀ k, k ∈ fl ↔ m !! k = Some File.
Proof.
  induction n as [|m IH] using Node_tree_ind; intros top d ds fl H.
  - by apply elem_of_nil in H.
  - rewrite walk_Dir in H. apply elem_of_cons in H as [E|H].
    + injection E as -> -> ->. exists [], m. rewrite app_nil_r.
      split; [done|]. split; [done|]. intros k. apply nondirs_elem.
    + apply subwalk_elem in H as (k & m' & E & H).
      destruct (IH k (Dir m') E _ _ _ _ H) as (rel & m2 & -> & L & Hfl).
      exists (k :: rel), m2. rewrite <- app_assoc. split; [done|].
      split; [|done]. simpl. by rewrite E.
Qed.

Lemma walk_complete rel : ∀ top n m,
  FS.lookup rel n = Some (Dir m) →
  ∃ ds fl, (top ++ rel, ds, fl) ∈ walk scandir_order top n ∧
           ∀ k, k ∈ fl ↔ m !! k = Some File.
Proof.
  induction rel as [|k rel IH]; intros top n m L.
  - simpl in L. injection L as ->. rewrite app_nil_r, walk_Dir.
    eexists _, _. split; [by left|]. intros k. apply nondirs_elem.
  - simpl in L. destruct n as [|m0]; [done|].
    destruct (m0 !! k) as [c|] eqn:E; [|done].
    destruct (IH (top ++ [k]) c m L) as (ds & fl & Hin & Hfl).
    exists ds, fl. split; [|done]. rewrite walk_Dir. right.
    apply subwalk_elem. destruct c as [|m'].
    + by apply elem_of_nil in Hin.
    + exists k, m'. split; [done|]. by rewrite <- app_assoc in Hin.
Qed.

End WalkFacts.

Lemma is_file_kind (p : Path) (n : Node) :
  is_file p n = true ↔ kind p n = Some KFile.
Proof.
  unfold is_file, kind. destruct (FS.lookup p n) as [[|m]|]; simpl; split; congruence.
Qed.

Lemma video_file_named (p : Path) (n : Node) :
  is_video_file p n = true → PyPath.name p ≠ "".
Proof.
  unfold is_video_file, suffix. intros [_ H]%andb_true_iff E. rewrite E in H.
  vm_compute in H. discriminate.
Qed.

Lemma relative_to_app (root rel : Path) :
  PyPath.relative_to (root ++ rel) root = Some rel.
Proof.
  induction root as [|r root IH]; simpl; [by destruct rel|]. by rewrite decide_True.
Qed.

Lemma snoc_cases {A} (l : list A) : l = [] ∨ ∃ l' x, l = l' ++ [x].
Proof.
  induction l as [|a l IH] using rev_ind; [by left|]. right. by exists l, a.
Qed.

Section Collect.

Variable scandir_order : ∀ A : Type, list (string * A) → list (string * A).
Hypothesis scandir_order_perm : ∀ A (l : list (string * A)), scandir_order A l ≡ₚ l.

Lemma collect_exact (roots : list Path) (n : Node) (root p : Path) :
  (root, p) ∈ collect_video_files scandir_order roots n ↔
  root ∈ roots ∧ ∃ rel, rel ≠ [] ∧ p = root ++ rel ∧ is_video_file p n = true.
Proof.
  unfold collect_video_files. rewrite list_elem_of_In, in_flat_map. split.
  - intros (root' & Hr & H). apply in_flat_map in H as ([[d ds] fl] & Hw & H).
    apply list_elem_of_In, list_elem_of_omap in H as (fn & Hfn & E).
    cbv zeta in E. destruct (is_video_file (PyPath.join d fn) n) eqn:Ev; [|done].
    injection E as -> <-. apply list_elem_of_In in Hr. split; [done|].
    apply list_elem_of_In in Hw. unfold os_walk in Hw.
    destruct (FS.lookup root n) as [c|] eqn:Ec; [|by apply elem_of_nil in Hw].
    apply (walk_sound _ scandir_order_perm) in Hw as (rel & m & -> & L & Hfl).
    assert (Hn : fn ≠ "").
    { intros ->. unfold PyPath.join in Ev. simpl in Ev.
      apply andb_true_iff in Ev as [Ev _]. apply is_file_kind in Ev.
      rewrite kind_app, Ec in Ev. simpl in Ev. unfold kind in Ev. by rewrite L in Ev. }
    rewrite join_nonempty in * by done. exists (rel ++ [fn]).
    split; [by destruct rel|]. by rewrite app_assoc.
  - intros (Hr & rel & Hrel & -> & Ev). exists root.
    split; [by apply list_elem_of_In|].
    pose proof (video_file_named _ _ Ev) as Hname.
    pose proof Ev as Ef. apply andb_true_iff in Ef as [Ef _]. apply is_file_kind in Ef.
    destruct (snoc_cases rel) as [->|(rel' & fn & ->)]; [done|].
    rewrite app_assoc, name_snoc in Hname.
    rewrite kind_app in Ef. destruct (FS.lookup root n) as [c|] eqn:Ec; [|done].
    simpl in Ef. rewrite kind_app in Ef.
    destruct (FS.lookup rel' c) as [c'|] eqn:Ec'; [|done]. simpl in Ef.
    destruct c' as [|m]; [done|]. unfold kind in Ef. simpl in Ef.
    destruct (m !! fn) as [x|] eqn:Ex; [|done]. destruct x; [|done].
    destruct (walk_complete _ scandir_order_perm rel' root c m Ec') as (ds & fl & Hin & Hfl).
    apply in_flat_map. exists (root ++ rel', ds, fl). split.
    + apply list_elem_of_In. unfold os_walk. by rewrite Ec.
    + apply list_elem_of_In, list_elem_of_omap. exists fn. split; [by apply Hfl|].
      cbv zeta. rewrite join_nonempty by done. rewrite <- app_assoc.
      by rewrite Ev.
Qed.

End Collect.

Lemma is_video_file_true (p : Path) (n : Node) :
  is_video_file p n = true ↔
  kind p n = Some KFile ∧ PyStr.lower (suffix p) ∈ VIDEO_EXTS.
Proof.
  unfold is_video_file. by rewrite andb_true_iff, is_file_kind, bool_decide_eq_true.
Qed.

(** X12: [collect_video_files] lists exactly the regular files strictly
    below one of the roots whose last suffix, lowercased, is one of the
    video extensions, whatever the order in which directories list their
    entries; each is paired with the root it was found under. A root that
    is missing or is not a directory contributes nothing, and a name that
    is only an extension (".mkv") has no suffix and is not listed. *)
Theorem collect_video_files_exact
    (scandir_order : ∀ A : Type, list (string * A) → list (string * A))
    (roots : list Path) (n : Node) (root p : Path) :
  (∀ A (l : list (string * A)), scandir_order A l ≡ₚ l) →
  ((root, p) ∈ collect_video_files scandir_order roots n ↔
   root ∈ roots ∧
   ∃ rel, rel ≠ [] ∧ p = root ++ rel ∧
          kind p n = Some KFile ∧ PyStr.lower (suffix p) ∈ VIDEO_EXTS).
Proof.
  intros Hperm. rewrite (collect_exact _ Hperm).
  split; intros (Hr & rel & H1 & H2 & H3); (split; [done|]); exists rel;
    (split; [done|]); (split; [done|]); by apply is_video_file_true.
Qed.

Lemma convert_one_raises (host : Host) (in_root in_file out_root : Path) (w : World) (e : Exc) :
  (convert_one host in_root in_file out_root w).2 = Raise e →
  (e = ValueError ∧ PyPath.relative_to in_file in_root = None) ∨
  (PyPath.relative_to in_file in_root ≠ None ∧
   (e = OSError ∨ e = AttributeError ∨ e = TypeError ∨ e = KeyboardInterrupt)).
Proof.
  destruct (PyPath.relative_to in_file in_root) as [rel|] eqn:Erel.
  2: { unfold convert_one, bind, make_output_path. rewrite Erel. simpl.
       intros [= <-]. by left. }
  intros H. right. split; [done|].
  destruct (FS.mkdir_parents (out_dir in_root out_root rel) (fs w)) as [n0|] eqn:Em.
  2: { revert H. unfold convert_one, bind at 1, make_output_path. rewrite Erel.
       fold (out_dir in_root out_root rel). unfold bind, fs_op. rewrite Em. simpl.
       intros [= <-]. by left. }
  destruct (FS.exists_ (out_dir in_root out_root rel ++ [out_name rel]) n0) eqn:Ex.
  { revert H. unfold convert_one, bind at 1, make_output_path. rewrite Erel.
    fold (out_dir in_root out_root rel). unfold bind at 1, fs_op. rewrite Em.
    unfold ret at 1. fold (out_name rel).
    rewrite join_nonempty by (apply append_nonempty; discriminate).
    unfold bind, get_fs. cbn [fs set_fs]. by rewrite Ex. }
  pose proof (stages_cases host in_root in_file out_root w rel n0 Erel Em Ex) as S.
  cbv zeta in S.
  destruct (probed host in_file (clock w)) as [info|e1] eqn:Ep.
  - destruct (already_satisfies_480p info) as [[|]|e1] eqn:Ea.
    + destruct S as [_ S]. left. by apply S.
    + destruct S as [_ S]. left. by apply S.
    + destruct S as [_ S]. rewrite S in H. injection H as ->.
      destruct (classifier_raises _ _ Ea) as [-> | ->]; auto.
  - destruct S as [_ S]. rewrite S in H. injection H as ->.
    apply probed_raises in Ep as [-> _]. auto.
Qed.

(** X13: every task that [collect_video_files] lists lies strictly below
    its root, so its relative path and its output path are defined: the
    converter never raises [ValueError] on it (which it does exactly for a
    file that is not under its root), and the exceptions it can raise are
    [OSError], [AttributeError], [TypeError] and [KeyboardInterrupt]. *)
Theorem collected_tasks_lie_under_their_root
    (scandir_order : ∀ A : Type, list (string * A) → list (string * A))
    (roots : list Path) (n : Node) (root p : Path) :
  (∀ A (l : list (string * A)), scandir_order A l ≡ₚ l) →
  (root, p) ∈ collect_video_files scandir_order roots n →
  (∃ rel, rel ≠ [] ∧ PyPath.relative_to p root = Some rel ∧
          ∀ out_root, output_path p root out_root
                      = Some (out_dir root out_root rel ++ [out_name rel])) ∧
  ∀ host out_root w e,
    (convert_one host root p out_root w).2 = Raise e →
    e = OSError ∨ e = AttributeError ∨ e = TypeError ∨ e = KeyboardInterrupt.
Proof.
  intros Hperm Hin. apply (collect_exact _ Hperm) in Hin as (_ & rel & Hrel & -> & _).
  pose proof (relative_to_app root rel) as E. split.
  - exists rel. split; [done|]. split; [done|]. intros out_root.
    unfold output_path. by rewrite E.
  - intros host out_root w e H. apply convert_one_raises in H as [[_ H]|[_ H]]; [|done].
    by rewrite E in H.
Qed.

Lemma collect_video_files_exact_witness :
  (["in"], ["in"; "s1"; "e1.mp4"])
    ∈ collect_video_files (λ _ l, reverse l) [["nowhere"]; ["in"]] sample_tree.
Proof.
  apply (collect_video_files_exact (λ _ l, reverse l) [["nowhere"]; ["in"]] sample_tree
           ["in"] ["in"; "s1"; "e1.mp4"]).
  - intros A l. apply reverse_Permutation.
  - split; [by right; left|]. exists ["s1"; "e1.mp4"].
    split; [done|]. split; [reflexivity|]. split; [reflexivity|].
    vm_compute. by right; left.
Defined.

Lemma collected_tasks_lie_under_their_root_witness :
  ∃ rel, rel ≠ [] ∧ PyPath.relative_to ["in"; "a.MKV"] ["in"] = Some rel ∧
         ∀ out_root, output_path ["in"; "a.MKV"] ["in"] out_root
                     = Some (out_dir ["in"] out_root rel ++ [out_name rel]).
Proof.
  apply (collected_tasks_lie_under_their_root (λ _ l, l) [["in"]] sample_tree
           ["in"] ["in"; "a.MKV"]).
  - intros A l. reflexivity.
  - vm_compute. left.
Defined.

(** ** The prompts and the whole run *)

Lemma is_dir_exists (p : Path) (n : Node) :
  (FS.exists_ p n && FS.is_dir p n)%bool = FS.is_dir p n.
Proof. unfold FS.exists_, FS.is_dir. by destruct (FS.lookup p n) as [[|m]|]. Qed.

Section Prompts.

Variable cwd : Path.
Variable to_path : string → Path.

Lemma read_input_dirs_spec (stdin : list string) (n : Node) :
  ∀ inputs first, (first = true → inputs = []) →
  ∃ typed,
    Forall (λ l, unquote l ≠ "") typed ∧
    (read_input_dirs cwd to_path stdin inputs first n).1
    = (if inputs ++ typed_dirs to_path typed n is [] then [cwd] else inputs ++ typed_dirs to_path typed n) ∧
    ((stdin = typed ∧ (read_input_dirs cwd to_path stdin inputs first n).2 = []) ∨
     ∃ blank, unquote blank = "" ∧
              stdin = typed ++ blank :: (read_input_dirs cwd to_path stdin inputs first n).2).
Proof.
  induction stdin as [|raw rest IH]; intros inputs first Hf.
  - exists []. split; [constructor|]. simpl. rewrite app_nil_r. split; [done|]. by left.
  - simpl. destruct (String.eqb (unquote raw) "") eqn:Eb.
    + apply String.eqb_eq in Eb. exists []. split; [constructor|].
      unfold typed_dirs. simpl. rewrite app_nil_r. split.
      * destruct first; [|done]. by rewrite Hf.
      * right. exists raw. split; [done|]. by destruct first.
    + apply String.eqb_neq in Eb. rewrite is_dir_exists.
      set (p := to_path (unquote raw)).
      destruct (IH (if FS.is_dir p n then inputs ++ [p] else inputs) false)
        as (typed & Ht & E1 & E2); [done|].
      exists (raw :: typed). split; [by constructor|]. split.
      * rewrite E1. unfold typed_dirs. simpl. fold p.
        destruct (FS.is_dir p n); [|done]. by rewrite <- app_assoc.
      * destruct E2 as [[-> E2]|(blank & Hb & E2)]; [by left|].
        right. exists blank. split; [done|]. by rewrite E2 at 1.
Qed.

End Prompts.

Lemma main_loop_reports (host : Host) (outdir : Path) (tasks : list (Path * Path))
    (t : Tally) (w : World) (r : result Outcome) :
  r ∈ (main_loop host tasks outdir t w).2 →
  ∃ root f w', (root, f) ∈ tasks ∧ r = (convert_one host root f outdir w').2.
Proof.
  revert t w. induction tasks as [|[root f] rest IH]; intros t w H.
  - by apply elem_of_nil in H.
  - simpl in H.
    destruct (convert_one host root f outdir w) as [w' r0] eqn:E.
    assert (E0 : r0 = (convert_one host root f outdir w).2) by by rewrite E.
    destruct r0 as [[[i o] st]|e].
    + destruct (main_loop host rest outdir (count st t) w') as [[w'' t'] rs] eqn:El.
      simpl in H. apply elem_of_cons in H as [->|H].
      * exists root, f, w. split; [by left|done].
      * destruct (IH (count st t) w') as (root' & f' & w1 & Hin & Hr); [by rewrite El|].
        exists root', f', w1. split; [by right|done].
    + assert (Hhere : r = Raise e → ∃ root0 f0 w0, (root0, f0) ∈ (root, f) :: rest ∧
                      r = (convert_one host root0 f0 outdir w0).2).
      { intros ->. exists root, f, w. split; [by left|done]. }
      destruct e.
      { simpl in H. apply list_elem_of_singleton in H. by apply Hhere. }
      all: destruct (main_loop host rest outdir (count_exception t) w') as [[w'' t'] rs] eqn:El;
        simpl in H; apply elem_of_cons in H as [->|H]; [by apply Hhere|];
        destruct (IH (count_exception t) w') as (root' & f' & w1 & Hin & Hr); [by rewrite El|];
        exists root', f', w1; (split; [by right|done]).
Qed.

Lemma main_loop_nonempty (host : Host) (outdir : Path) (tasks : list (Path * Path))
    (t : Tally) (w : World) :
  tasks ≠ [] → (main_loop host tasks outdir t w).2 ≠ [].
Proof.
  destruct tasks as [|[root f] rest]; [done|]. intros _. simpl.
  destruct (convert_one host root f outdir w) as [w' [[[i o] st]|e]].
  - by destruct (main_loop host rest outdir (count st t) w') as [[w'' t'] rs].
  - destruct e; [done|..];
      by destruct (main_loop host rest outdir (count_exception t) w') as [[w'' t'] rs].
Qed.



Lemma mkdir_fails_iff (p : Path) (n : Node) :
  FS.mkdir_parents p n = None ↔ ∃ q, q `prefix_of` p ∧ kind q n = Some KFile.
Proof.
  revert n. induction p as [|k p IH]; intros n.
  - destruct n as [|m]; simpl.
    + split; [|done]. intros _. by exists [].
    + split; [done|]. intros (q & Hq & Hk). apply prefix_nil_inv in Hq. by subst.
  - destruct n as [|m]; simpl.
    + split; [|done]. intros _. exists []. split; [apply prefix_nil|done].
    + destruct (m !! k) as [c|] eqn:Ek.
      * destruct (FS.mkdir_parents p c) as [c'|] eqn:Em.
        -- split; [done|]. intros (q & Hq & Hk). destruct q as [|j q]; [done|].
           pose proof (prefix_cons_inv_1 _ _ _ _ Hq) as ->.
           apply prefix_cons_inv_2 in Hq. rewrite kind_cons, Ek in Hk.
           assert (FS.mkdir_parents p c = None) as E by (apply IH; by exists q).
           by rewrite E in Em.
        -- split; [|done]. intros _. apply IH in Em as (q & Hq & Hk).
           exists (k :: q). split; [by apply prefix_cons|]. by rewrite kind_cons, Ek.
      * split; [done|]. intros (q & Hq & Hk). destruct q as [|j q]; [done|].
        pose proof (prefix_cons_inv_1 _ _ _ _ Hq) as ->. by rewrite kind_cons, Ek in Hk.
Qed.




(** ** The scale filter, once more *)

Lemma twice_half_even (z : Z) : Z.even z = true → 2 * (z / 2) = z.
Proof.
  intros H. apply Z.even_spec in H as [k ->].
  rewrite (Z.mul_comm 2 k), Z.div_mul by lia. lia.
Qed.

Lemma twice_half_ge (z : Z) : z - 1 ≤ 2 * (z / 2).
Proof. pose proof (Z.div_mod z 2). pose proof (Z.mod_pos_bound z 2). lia. Qed.

Lemma spec_out_even iw ih :
  Z.even (spec_out_w iw ih) = true ∧ Z.even (spec_out_h iw ih) = true.
Proof. unfold spec_out_w, spec_out_h. by rewrite !Z.even_mul. Qed.

Lemma spec_out_fixed (iw ih : Z) :
  0 < iw → 0 < ih → 0 < spec_out_w iw ih → 0 < spec_out_h iw ih →
  spec_out_w (spec_out_w iw ih) (spec_out_h iw ih) = spec_out_w iw ih ∧
  spec_out_h (spec_out_w iw ih) (spec_out_h iw ih) = spec_out_h iw ih.
Proof.
  intros Hw Hh Pw Ph.
  destruct (spec_out_even iw ih) as [Ew Eh].
  destruct (spec_out_closed iw ih Hw Hh) as [(C & Ow & Oh)|(C & Ow & Oh)].
  - assert (B : spec_out_h iw ih ≤ 480).
    { rewrite Oh.
      assert ((854 * ih) / (2 * iw) ≤ 240); [|lia].
      apply Z.div_le_upper_bound; lia. }
    destruct (spec_out_closed _ _ Pw Ph) as [(C' & Ow' & Oh')|(C' & Ow' & Oh')].
    + rewrite Ow', Oh'. split; [by rewrite Ow|]. rewrite Ow.
      rewrite (Z.mul_comm 2 854), Z.div_mul_cancel_l by lia. by apply twice_half_even.
    + rewrite Ow in C'. lia.
  - assert (B : spec_out_w iw ih < 854).
    { rewrite Ow.
      assert ((480 * iw) / (2 * ih) < 427); [|lia].
      apply Z.div_lt_upper_bound; lia. }
    destruct (spec_out_closed _ _ Pw Ph) as [(C' & Ow' & Oh')|(C' & Ow' & Oh')].
    + rewrite Oh in C'. lia.
    + rewrite Ow', Oh'. split; [|by rewrite Oh]. rewrite Oh.
      rewrite (Z.mul_comm 2 480), Z.div_mul_cancel_l by lia. by apply twice_half_even.
Qed.

Lemma spec_out_enlarges (iw ih : Z) :
  0 < iw ≤ 854 → 0 < ih ≤ 480 →
  iw - 1 ≤ spec_out_w iw ih ∧ ih - 1 ≤ spec_out_h iw ih ∧
  (spec_out_w iw ih = 854 ∨ spec_out_h iw ih = 480).
Proof.
  intros [Hw Bw] [Hh Bh].
  destruct (spec_out_closed iw ih Hw Hh) as [(C & Ow & Oh)|(C & Ow & Oh)].
  - split; [lia|]. split; [|by left]. rewrite Oh.
    pose proof (twice_half_ge ih).
    assert (ih / 2 ≤ (854 * ih) / (2 * iw)); [|lia].
    rewrite <- (Z.div_mul_cancel_l ih 2 iw) by lia.
    rewrite (Z.mul_comm iw 2). apply Z.div_le_mono; nia.
  - split; [|split; [lia|by right]]. rewrite Ow.
    pose proof (twice_half_ge iw).
    assert (iw / 2 ≤ (480 * iw) / (2 * ih)); [|lia].
    rewrite <- (Z.div_mul_cancel_l iw 2 ih) by lia.
    rewrite (Z.mul_comm ih 2). apply Z.div_le_mono; nia.
Qed.



(** ** Sources that share an output *)

Lemma output_present_after (host : Host) (outdir root f : Path) (w : World)
    (inf o : Path) (st : Status) :
  (convert_one host root f outdir w).2 = Ret (inf, o, st) →
  st = Encoded ∨ st = RemuxedAudioConverted ∨ st = ExistsSkip →
  is_Some (kind o (fs (convert_one host root f outdir w).1)).
Proof.
  intros E Hst. pose proof (convert_one_conversion host root f outdir w) as C.
  destruct (convert_one host root f outdir w) as [w' r]. simpl in *. subst r.
  destruct Hst as [-> | [-> | ->]].
  - apply conversion_ret in C as (_ & _ & C). apply C. by left.
  - apply conversion_ret in C as (_ & _ & C). apply C. by right.
  - apply conversion_skip_inv in C as (-> & _ & _ & Hx).
    rewrite exists_kind in Hx. by destruct (kind o (fs w)).
Qed.

(** X19: once a task of a batch has produced its output, or found it
    present, every later task of the batch with the same output path is
    reported as skipped and is never converted. *)
Theorem later_task_with_same_output_is_skipped (host : Host) (outdir : Path)
    (tasks : list (Path * Path)) (t : Tally) (w : World) (i j : nat)
    (root f inf o : Path) (st : Status) (r : result Outcome) :
  (i < j)%nat →
  tasks !! j = Some (root, f) → output_path f root outdir = Some o →
  outside_temp host o →
  (main_loop host tasks outdir t w).2 !! i = Some (Ret (inf, o, st)) →
  st = Encoded ∨ st = RemuxedAudioConverted ∨ st = ExistsSkip →
  (main_loop host tasks outdir t w).2 !! j = Some r →
  r = Ret (f, o, ExistsSkip).
Proof.
  intros Hij Hj Ho Hq Hi Hst Hr. revert t w i j Hij Hj Hi Hr.
  induction tasks as [|[root0 f0] rest IH]; intros t w i j Hij Hj Hi Hr; [done|].
  destruct j as [|j]; [lia|]. simpl in Hj. simpl in Hi, Hr.
  pose proof (output_present_after host outdir root0 f0 w inf o st) as P.
  destruct (convert_one host root0 f0 outdir w) as [w' [[[i0 o0] st0]|e]]; simpl in P.
  - destruct (main_loop host rest outdir (count st0 t) w') as [[w'' t'] rs] eqn:El.
    simpl in Hi, Hr. destruct i as [|i].
    + simpl in Hi. injection Hi as -> -> ->. destruct (P eq_refl Hst) as [k Hk].
      apply (second_run host outdir rest (count st t) w' j root f o k r); try done.
      by rewrite El.
    + simpl in Hi. apply (IH (count st0 t) w' i j); [lia|done|by rewrite El|by rewrite El].
  - destruct e.
    { simpl in Hr. by destruct j. }
    all: destruct (main_loop host rest outdir (count_exception t) w') as [[w'' t'] rs] eqn:El;
      simpl in Hi, Hr; (destruct i as [|i]; [done|]); simpl in Hi;
      apply (IH (count_exception t) w' i j); [lia|done|by rewrite El|by rewrite El].
Qed.

Lemma take_drop_string (i : nat) (s : string) : PyStr.take i s +:+ str_drop i s = s.
Proof.
  revert s. induction i as [|i IH]; intros s; [done|].
  destruct s as [|c s]; [done|]. simpl. by rewrite append_cons, IH.
Qed.

Lemma rfind_dot_append (s e : string) :
  PyStr.rfind_dot e = Some 0%nat → PyStr.rfind_dot (s +:+ e) = Some (String.length s).
Proof.
  intros He. induction s as [|c s IH]; [done|].
  rewrite append_cons. simpl. by rewrite IH.
Qed.

Lemma take_append (s e : string) : PyStr.take (String.length s) (s +:+ e) = s.
Proof.
  induction s as [|c s IH]; [by destruct e|]. rewrite append_cons. simpl. by rewrite IH.
Qed.

Lemma drop_append (s e : string) : str_drop (String.length s) (s +:+ e) = e.
Proof. induction s as [|c s IH]; [done|]. by rewrite append_cons. Qed.

Lemma length_append (s e : string) :
  String.length (s +:+ e) = (String.length s + String.length e)%nat.
Proof. induction s as [|c s IH]; [done|]. rewrite append_cons. simpl. by rewrite IH. Qed.

Lemma video_ext_shape (e : string) :
  e ∈ VIDEO_EXTS → PyStr.rfind_dot e = Some 0%nat ∧ (2 ≤ String.length e)%nat ∧
                   PyStr.lower e = e.
Proof.
  unfold VIDEO_EXTS. rewrite !elem_of_cons, elem_of_nil. intros H.
  repeat (destruct H as [->|H]; [by (split; [|split]; [reflexivity|simpl; lia|reflexivity])|]).
  done.
Qed.

Lemma stem_suffix_of_name (p : Path) (s e : string) :
  PyPath.name p = s +:+ e → s ≠ "" → PyStr.rfind_dot e = Some 0%nat →
  (2 ≤ String.length e)%nat →
  PyPath.stem p = s ∧ suffix p = e.
Proof.
  intros Hn Hs He Hl. unfold PyPath.stem, suffix. rewrite Hn.
  rewrite (rfind_dot_append s e He), length_append.
  assert (0 < String.length s)%nat by (destruct s; [done|simpl; lia]).
  replace (Nat.ltb 0 (String.length s)) with true by (symmetry; apply Nat.ltb_lt; lia).
  replace (Nat.ltb (String.length s) (String.length s + String.length e - 1)) with true
    by (symmetry; apply Nat.ltb_lt; lia).
  simpl. by rewrite take_append, drop_append.
Qed.

(** X20: a file name is its stem followed by its suffix. For a source
    named s followed by a video extension the stem is s, so the file is a
    video file as soon as it is a regular file, and its output path does
    not depend on the extension: sources of one directory that differ in
    the extension only share one output path. *)
Theorem same_stem_same_output (p root dir out_root : Path) (s e : string) :
  PyPath.stem p +:+ suffix p = PyPath.name p ∧
  (s ≠ "" → e ∈ VIDEO_EXTS →
   let f := root ++ dir ++ [s +:+ e] in
   PyPath.stem f = s ∧ suffix f = e ∧
   (∀ n, is_video_file f n = true ↔ kind f n = Some KFile) ∧
   output_path f root out_root
   = Some (PyPath.join out_root (PyPath.name root) ++ dir
           ++ [base_with_suffix s "_480p" +:+ ".mkv"])).
Proof.
  split.
  - unfold PyPath.stem, suffix. destruct (PyStr.rfind_dot (PyPath.name p)) as [i|]; [|by rewrite append_nil_r].
    destruct (Nat.ltb 0 i && Nat.ltb i (String.length (PyPath.name p) - 1))%bool;
      [apply take_drop_string|by rewrite append_nil_r].
  - intros Hs He f. destruct (video_ext_shape e He) as (Hd & Hl & Hlow).
    assert (Hname : PyPath.name f = s +:+ e).
    { unfold f. by rewrite app_assoc, name_snoc. }
    destruct (stem_suffix_of_name f s e Hname Hs Hd Hl) as [Est Esu].
    split; [done|]. split; [done|]. split.
    + intros n. rewrite is_video_file_true, Esu, Hlow. tauto.
    + unfold output_path, f. rewrite relative_to_app. f_equal.
      unfold out_dir, out_name, PyPath.join_path. rewrite parent_snoc.
      rewrite <- app_assoc. do 3 f_equal.
      assert (Hn2 : PyPath.name (dir ++ [s +:+ e]) = s +:+ e) by apply name_snoc.
      by destruct (stem_suffix_of_name (dir ++ [s +:+ e]) s e Hn2 Hs Hd Hl) as [-> _].
Qed.

Lemma later_task_with_same_output_is_skipped_witness :
  default (Raise OSError)
    ((main_loop working_host same_stem_tasks ["out"] tally0 same_stem_world).2 !! 1%nat)
  = Ret (["in"; "a.mkv"], ["out"; "in"; "a_480p.mkv"], ExistsSkip).
Proof.
  apply (later_task_with_same_output_is_skipped working_host ["out"] same_stem_tasks tally0
           same_stem_world 0 1 ["in"] ["in"; "a.mkv"] ["in"; "a.mp4"]
           ["out"; "in"; "a_480p.mkv"] Encoded).
  - lia.
  - reflexivity.
  - vm_compute. reflexivity.
  - by apply outside_temp_in.
  - vm_compute. reflexivity.
  - by left.
  - vm_compute. reflexivity.
Defined.

(** ** Where a conversion writes *)

Lemma stage_frame (t o q : Path) (n n' : Node) :
  committed t o n n' ∨ touched_only t n n' →
  ¬ t `prefix_of` q →
  kind q n' = kind q n ∨ (kind q n = None ∧ o `prefix_of` q).
Proof.
  intros [(_ & _ & _ & Cn & Cs)|T] Hq.
  - destruct (kind q n) as [k|] eqn:Ek.
    + left. by apply Cs.
    + destruct (decide (o `prefix_of` q)) as [Hp|Hp]; [by right|].
      left. by apply Cn.
  - left. apply T. intros ->. by apply Hq.
Qed.

Lemma encode_outcome_frame (host : Host) (i o t : Path) (n n' : Node) (evs : list Event)
    (r : result Outcome) :
  encode_outcome host i o t n n' evs r → committed t o n n' ∨ touched_only t n n'.
Proof.
  intros [(rc & _ & [[_ [[_ C]|[_ T]]]|[_ [(_ & T & _)|(_ & T & _)]]])|(rc1 & _ & _ & _ & _ & T & _)];
    auto.
Qed.

Lemma remux_outcome_frame (i o t : Path) (n n' : Node) (evs : list Event)
    (r : result (option Outcome)) :
  remux_outcome i o t n n' evs r → committed t o n n' ∨ touched_only t n n'.
Proof.
  intros (rc & _ & [[_ [[_ C]|[_ T]]]|[_ [(_ & T & _)|(_ & T & _)]]]); auto.
Qed.

Lemma frame_after_mkdir (p o q : Path) (n n0 n' : Node) :
  FS.mkdir_parents p n = Some n0 →
  kind q n' = kind q n0 ∨ (kind q n0 = None ∧ o `prefix_of` q) →
  kind q n' = kind q n ∨
  (kind q n = None ∧ ((kind q n' = Some KDir ∧ q `prefix_of` p) ∨ o `prefix_of` q)).
Proof.
  intros Hm [E|[E Hp]].
  - rewrite E. destruct (mkdir_kind_cases p q n n0 Hm) as [?|(? & ? & ?)]; auto.
  - right. split; [|by right].
    destruct (kind q n) as [k|] eqn:Ek; [|done].
    by rewrite (mkdir_kind_mono _ _ _ _ _ Hm Ek) in E.
Qed.

Lemma convert_one_frame (host : Host) (in_root in_file out_root : Path)
    (w : World) (q : Path) :
  outside_temp host q →
  let w' := (convert_one host in_root in_file out_root w).1 in
  kind q (fs w') = kind q (fs w) ∨
  (kind q (fs w) = None ∧
   ∃ o, output_path in_file in_root out_root = Some o ∧
        ((kind q (fs w') = Some KDir ∧ q `prefix_of` PyPath.parent o) ∨ o `prefix_of` q)).
Proof.
  intros Hq. cbv zeta.
  pose proof (convert_one_conversion host in_root in_file out_root w) as C.
  destruct (convert_one host in_root in_file out_root w) as [w' r]. simpl.
  assert (P : ∀ rel o, output_path in_file in_root out_root = Some o →
              PyPath.relative_to in_file in_root = Some rel →
              PyPath.parent o = out_dir in_root out_root rel).
  { intros rel o Ho Hrel. unfold output_path in Ho. rewrite Hrel in Ho.
    injection Ho as <-. apply parent_snoc. }
  assert (G : ∀ rel o n0,
              PyPath.relative_to in_file in_root = Some rel →
              output_path in_file in_root out_root = Some o →
              FS.mkdir_parents (out_dir in_root out_root rel) (fs w) = Some n0 →
              kind q (fs w') = kind q n0 ∨ (kind q n0 = None ∧ o `prefix_of` q) →
              kind q (fs w') = kind q (fs w) ∨
              (kind q (fs w) = None ∧
               ∃ o, output_path in_file in_root out_root = Some o ∧
                    ((kind q (fs w') = Some KDir ∧ q `prefix_of` PyPath.parent o)
                     ∨ o `prefix_of` q))).
  { intros rel o n0 Hrel Ho Hm H.
    destruct (frame_after_mkdir _ o q _ _ _ Hm H) as [?|[? ?]]; [by left|].
    right. split; [done|]. exists o. split; [done|]. by rewrite (P rel o Ho Hrel). }
  inversion C as
    [ | | rel o n0 Hrel Ho Hm Hx | rel o n0 w2 e Hrel Ho Hm Hk Hf Hl
      | rel o n0 w2 r2 evs Hrel Ho Hm Hk Hl He
      | rel o n0 w2 x evs Hrel Ho Hm Hk Hl Hr
      | rel o n0 w2 e evs Hrel Ho Hm Hk Hl Hr
      | rel o n0 n1 w2 r2 evs1 evs2 Hrel Ho Hm Hk Hl Hr He ]; subst.
  - by left.
  - by left.
  - apply (G rel o n0 Hrel Ho Hm). by left.
  - apply (G rel o (fs w') Hrel Ho Hm). by left.
  - apply (G rel o n0 Hrel Ho Hm).
    eapply stage_frame; [by eapply encode_outcome_frame|apply Hq].
  - apply (G rel o n0 Hrel Ho Hm).
    eapply stage_frame; [by eapply remux_outcome_frame|apply Hq].
  - apply (G rel o n0 Hrel Ho Hm).
    eapply stage_frame; [by eapply remux_outcome_frame|apply Hq].
  - apply (G rel o n0 Hrel Ho Hm).
    apply remux_outcome_failed in Hr as [T1 _].
    rewrite <- (T1 q) by (intros ->; by apply (Hq (uuid4_hex host (S (clock w))))).
    eapply stage_frame; [by eapply encode_outcome_frame|apply Hq].
Qed.


(** ** Each source once *)

Lemma flat_map_bind {A B} (f : A → list B) (l : list A) : flat_map f l = l ≫= f.
Proof. induction l as [|x l IH]; [done|]. simpl. by rewrite IH. Qed.

Lemma fmap_flat_map {A B C} (f : B → C) (g : A → list B) (l : list A) :
  f <$> flat_map g l = l ≫= (λ x, f <$> g x).
Proof.
  induction l as [|x l IH]; [done|]. simpl. by rewrite fmap_app, IH.
Qed.

Lemma NoDup_omap_inj {A B} (f : A → option B) (l : list A) :
  NoDup l →
  (∀ x1 x2 y, x1 ∈ l → x2 ∈ l → f x1 = Some y → f x2 = Some y → x1 = x2) →
  NoDup (omap f l).
Proof.
  intros Hl Hf. induction Hl as [|x l Hx Hl IH]; simpl; [constructor|].
  assert (IH' : NoDup (omap f l)).
  { apply IH. intros x1 x2 y H1 H2. apply Hf; by right. }
  destruct (f x) as [y|] eqn:E; [|done]. constructor; [|done].
  intros Hin. apply list_elem_of_omap in Hin as (x' & Hx' & E').
  rewrite (Hf x x' y) in Hx; [done|by left|by right|done|done].
Qed.

Lemma NoDup_fmap_eq {A B} `{EqDecision B} (f : A → B) (l : list A) (x y : A) :
  NoDup (f <$> l) → x ∈ l → y ∈ l → f x = f y → x = y.
Proof.
  induction l as [|a l IH]; intros Hn Hx Hy E; [by apply elem_of_nil in Hx|].
  rewrite fmap_cons in Hn. apply NoDup_cons in Hn as [Ha Hn].
  apply elem_of_cons in Hx as [->|Hx]; apply elem_of_cons in Hy as [->|Hy].
  - done.
  - exfalso. apply Ha. rewrite E. by apply list_elem_of_fmap_2.
  - exfalso. apply Ha. rewrite <- E. by apply list_elem_of_fmap_2.
  - by apply IH.
Qed.

Lemma map_fold_keys {B} (f : string → Node → B) (m : gmap string Node) :
  NoDup (map_fold (λ k c acc, (k, f k c) :: acc) [] m).*1.
Proof.
  apply (map_fold_weak_ind
           (λ r m, NoDup r.*1 ∧ ∀ k, k ∈ r.*1 → is_Some (m !! k))).
  - split; [constructor|]. intros k Hk. by apply elem_of_nil in Hk.
  - intros i x m' r Hi [Hn Hk]. split.
    + rewrite fmap_cons. simpl. constructor; [|done].
      intros Hin. apply Hk in Hin. rewrite Hi in Hin. by destruct Hin.
    + intros k. rewrite fmap_cons. simpl. intros [->|Hin]%elem_of_cons.
      * by rewrite lookup_insert_eq.
      * destruct (decide (k = i)) as [->|Hne]; [by rewrite lookup_insert_eq|].
        rewrite lookup_insert_ne by done. by apply Hk.
Qed.

Section WalkOnce.

Variable scandir_order : ∀ A : Type, list (string * A) → list (string * A).
Hypothesis scandir_order_perm : ∀ A (l : list (string * A)), scandir_order A l ≡ₚ l.

Lemma entries_keys (top : Path) (m : gmap string Node) :
  NoDup (entries scandir_order top m).*1.
Proof.
  unfold entries. rewrite scandir_order_perm.
  apply (map_fold_keys (λ k c, (kind_of c, walk scandir_order (top ++ [k]) c))).
Qed.

Lemma entries_NoDup (top : Path) (m : gmap string Node) :
  NoDup (entries scandir_order top m).
Proof. eapply NoDup_fmap_1, entries_keys. Qed.

Lemma nondirs_NoDup (top : Path) (m : gmap string Node) :
  NoDup (omap (λ e : string * (Kind * list (Path * list string * list string)),
                 match e.2.1 with KFile => Some e.1 | KDir => None end)
           (entries scandir_order top m)).
Proof.
  apply NoDup_omap_inj; [apply entries_NoDup|].
  intros [k1 [kd1 r1]] [k2 [kd2 r2]] y H1 H2 E1 E2. simpl in *.
  destruct kd1, kd2; try done. injection E1 as ->. injection E2 as ->.
  by eapply (NoDup_fmap_eq fst); [apply entries_keys| | |].
Qed.

Lemma walk_dirs_NoDup (n : Node) : ∀ top, NoDup (walk scandir_order top n).*1.*1.
Proof.
  induction n as [|m IH] using Node_tree_ind; intros top; [constructor|].
  rewrite walk_Dir, !fmap_cons. simpl. rewrite <- list_fmap_compose. constructor.
  - intros Hin. apply list_elem_of_fmap in Hin as ([[d ds] fl] & E & Hin).
    simpl in E. subst d.
    apply (subwalk_elem _ scandir_order_perm) in Hin as (k & m' & E & Hin).
    apply (walk_sound _ scandir_order_perm) in Hin as (rel & m2 & Hd & _).
    simpl in Hd. apply (f_equal length) in Hd. rewrite !length_app in Hd. simpl in Hd. lia.
  - rewrite fmap_flat_map. apply NoDup_bind; [| |apply entries_NoDup].
    + intros [k1 [kd1 r1]] [k2 [kd2 r2]] d H1 H2 Hd1 Hd2. cbn [fst snd] in Hd1, Hd2.
      pose proof H1 as H1'. pose proof H2 as H2'.
      apply (entries_elem _ scandir_order_perm) in H1 as (c1 & Ec1 & -> & ->).
      apply (entries_elem _ scandir_order_perm) in H2 as (c2 & Ec2 & -> & ->).
      destruct c1 as [|m1]; [by apply elem_of_nil in Hd1|].
      destruct c2 as [|m2]; [by apply elem_of_nil in Hd2|]. cbn [kind_of] in Hd1, Hd2.
      apply list_elem_of_fmap in Hd1 as ([[d1 ds1] fl1] & E1 & Hd1).
      apply list_elem_of_fmap in Hd2 as ([[d2 ds2] fl2] & E2 & Hd2).
      simpl in E1, E2. subst d1 d2.
      apply (walk_sound _ scandir_order_perm) in Hd1 as (rel1 & ? & Hd1 & _).
      apply (walk_sound _ scandir_order_perm) in Hd2 as (rel2 & ? & Hd2 & _).
      rewrite Hd1, <- !app_assoc in Hd2. apply app_inv_head in Hd2. simpl in Hd2.
      injection Hd2 as Hk _.
      by eapply (NoDup_fmap_eq fst); [apply entries_keys| | |].
    + intros [k [kd r]] Hin. cbn [fst snd].
      apply (entries_elem _ scandir_order_perm) in Hin as (c & Ec & -> & ->).
      destruct c as [|m']; [constructor|]. cbn [kind_of].
      rewrite list_fmap_compose. by eapply IH.
Qed.

Lemma walk_files_NoDup (n : Node) : ∀ top d ds fl,
  (d, ds, fl) ∈ walk scandir_order top n → NoDup fl.
Proof.
  induction n as [|m IH] using Node_tree_ind; intros top d ds fl H.
  - by apply elem_of_nil in H.
  - rewrite walk_Dir in H. apply elem_of_cons in H as [E|H].
    + injection E as -> -> ->. apply nondirs_NoDup.
    + apply (subwalk_elem _ scandir_order_perm) in H as (k & m' & E & H). by eapply IH.
Qed.

Lemma join_inj (d1 d2 : Path) (f1 f2 : string) (n : Node) :
  PyPath.join d1 f1 = PyPath.join d2 f2 →
  is_video_file (PyPath.join d1 f1) n = true →
  FS.is_dir d1 n = true → FS.is_dir d2 n = true →
  d1 = d2 ∧ f1 = f2.
Proof.
  intros E Hv H1 H2.
  assert (N : ∀ d f, FS.is_dir d n = true → is_video_file (PyPath.join d f) n = true → f ≠ "").
  { intros d f Hd Hf ->. unfold PyPath.join in Hf. simpl in Hf.
    apply andb_true_iff in Hf as [Hf _]. unfold is_file in Hf. unfold FS.is_dir in Hd.
    by destruct (FS.lookup d n) as [[|?]|]. }
  pose proof (N d1 f1 H1 Hv) as N1. rewrite E in Hv. pose proof (N d2 f2 H2 Hv) as N2.
  rewrite !join_nonempty in E by done. by apply app_inj_tail in E.
Qed.

Lemma os_walk_dirs (root : Path) (n : Node) (d : Path) (ds fl : list string) :
  (d, ds, fl) ∈ os_walk scandir_order root n → FS.is_dir d n = true.
Proof.
  unfold os_walk. destruct (FS.lookup root n) as [c|] eqn:Ec; [|by intros ?%elem_of_nil].
  intros H. apply (walk_sound _ scandir_order_perm) in H as (rel & m & -> & L & _).
  unfold FS.is_dir. by rewrite lookup_app, Ec; simpl; rewrite L.
Qed.

Lemma collect_NoDup (roots : list Path) (n : Node) :
  NoDup roots → NoDup (collect_video_files scandir_order roots n).
Proof.
  intros Hr. unfold collect_video_files. rewrite flat_map_bind.
  apply NoDup_bind; [| |done].
  - intros r1 r2 [r p] _ _ H1 H2.
    apply list_elem_of_In, in_flat_map in H1 as ([[d1 ds1] fl1] & _ & H1).
    apply list_elem_of_In, in_flat_map in H2 as ([[d2 ds2] fl2] & _ & H2).
    apply list_elem_of_In, list_elem_of_omap in H1 as (f1 & _ & E1).
    apply list_elem_of_In, list_elem_of_omap in H2 as (f2 & _ & E2).
    cbv zeta in E1, E2.
    destruct (is_video_file (PyPath.join d1 f1) n); [|done].
    destruct (is_video_file (PyPath.join d2 f2) n); [|done]. congruence.
  - intros root _. rewrite flat_map_bind. apply NoDup_bind.
    + intros [[d1 ds1] fl1] [[d2 ds2] fl2] [r p] H1 H2 Hp1 Hp2.
      apply list_elem_of_omap in Hp1 as (f1 & _ & E1).
      apply list_elem_of_omap in Hp2 as (f2 & _ & E2). cbv zeta in E1, E2.
      destruct (is_video_file (PyPath.join d1 f1) n) eqn:V1; [|done].
      destruct (is_video_file (PyPath.join d2 f2) n) eqn:V2; [|done].
      injection E1 as <- <-. injection E2 as E2.
      destruct (join_inj d1 d2 f1 f2 n (eq_sym E2) V1) as [Ed _];
        [by eapply os_walk_dirs|by eapply os_walk_dirs|].
      unfold os_walk in H1, H2.
      destruct (FS.lookup root n) as [c|]; [|by apply elem_of_nil in H1].
      by apply (NoDup_fmap_eq (fst ∘ fst) (walk scandir_order root c));
        [rewrite list_fmap_compose; apply walk_dirs_NoDup| | |].
    + intros [[d ds] fl] Hin. apply NoDup_omap_inj.
      * unfold os_walk in Hin.
        destruct (FS.lookup root n) as [c|]; [|by apply elem_of_nil in Hin].
        by eapply walk_files_NoDup.
      * intros f1 f2 [r p] _ _ E1 E2. cbv zeta in E1, E2.
        destruct (is_video_file (PyPath.join d f1) n) eqn:V1; [|done].
        destruct (is_video_file (PyPath.join d f2) n) eqn:V2; [|done].
        injection E1 as <- <-. injection E2 as E2.
        apply (join_inj d d f1 f2 n (eq_sym E2) V1); by eapply os_walk_dirs.
    + unfold os_walk. destruct (FS.lookup root n) as [c|]; [|constructor].
      apply (NoDup_fmap_1 (fst ∘ fst)). rewrite list_fmap_compose. apply walk_dirs_NoDup.
Qed.

End WalkOnce.

(** X22: [collect_video_files] lists no task twice when no root is given
    twice: the walk visits each directory once and names each of its
    files once, whatever the order of the listings. *)
Theorem collect_video_files_lists_once
    (scandir_order : ∀ A : Type, list (string * A) → list (string * A))
    (roots : list Path) (n : Node) :
  (∀ A (l : list (string * A)), scandir_order A l ≡ₚ l) →
  NoDup roots →
  NoDup (collect_video_files scandir_order roots n) ∧
  ∀ root, NoDup ((os_walk scandir_order root n).*1.*1).
Proof.
  intros Hperm Hr. split; [by apply collect_NoDup|].
  intros root. unfold os_walk. destruct (FS.lookup root n) as [c|]; [|constructor].
  by apply walk_dirs_NoDup.
Qed.


Lemma collect_video_files_lists_once_witness :
  NoDup (collect_video_files (λ _ l, reverse l) [["in"]; ["nowhere"]] sample_tree) ∧
  ∀ root, NoDup ((os_walk (λ _ l, reverse l) root sample_tree).*1.*1).
Proof.
  apply (collect_video_files_lists_once (λ _ l, reverse l) [["in"]; ["nowhere"]] sample_tree).
  - intros A l. apply reverse_Permutation.
  - apply NoDup_cons. split; [|apply NoDup_singleton].
    intros H. apply list_elem_of_singleton in H. discriminate.
Defined.

(** ** Where a whole run writes *)

Lemma output_under_outdir (f root outdir o : Path) :
  output_path f root outdir = Some o → outdir `prefix_of` PyPath.parent o.
Proof.
  unfold output_path. destruct (PyPath.relative_to f root) as [rel|]; [|done].
  intros [= <-]. rewrite parent_snoc. unfold out_dir, PyPath.join_path, PyPath.join.
  destruct (decide (PyPath.name root = "")).
  - by apply prefix_app_r.
  - rewrite <- app_assoc. by apply prefix_app_r.
Qed.

Lemma off_the_output (q outdir p : Path) :
  ¬ q `prefix_of` outdir → ¬ outdir `prefix_of` q → outdir `prefix_of` p →
  ¬ q `prefix_of` p ∧ ¬ p `prefix_of` q.
Proof.
  intros H1 H2 Hp. split.
  - intros Hq. destruct (prefix_weak_total _ _ _ Hq Hp); auto.
  - intros Hq. apply H2. by etrans.
Qed.

Lemma convert_one_off_outdir (host : Host) (outdir root f : Path) (w : World) (q : Path) :
  outside_temp host q → ¬ q `prefix_of` outdir → ¬ outdir `prefix_of` q →
  kind q (fs (convert_one host root f outdir w).1) = kind q (fs w).
Proof.
  intros Hq H1 H2.
  destruct (convert_one_frame host root f outdir w q Hq) as [E|(_ & o & Ho & [[_ Hp]|Hp])];
    [done| |].
  - apply output_under_outdir in Ho.
    by destruct (off_the_output q outdir _ H1 H2 Ho).
  - apply output_under_outdir in Ho.
    assert (Ho' : outdir `prefix_of` o).
    { etrans; [done|]. unfold PyPath.parent.
      destruct o as [|x o] using rev_ind; [done|]. rewrite removelast_last.
      by apply prefix_app_r. }
    by destruct (off_the_output q outdir _ H1 H2 Ho').
Qed.

Lemma main_loop_off_outdir (host : Host) (outdir : Path) (tasks : list (Path * Path))
    (t : Tally) (w : World) (q : Path) :
  outside_temp host q → ¬ q `prefix_of` outdir → ¬ outdir `prefix_of` q →
  kind q (fs (main_loop host tasks outdir t w).1.1) = kind q (fs w).
Proof.
  intros Hq H1 H2. revert t w. induction tasks as [|[root f] rest IH]; intros t w; [done|].
  simpl. pose proof (convert_one_off_outdir host outdir root f w q Hq H1 H2) as P.
  destruct (convert_one host root f outdir w) as [w' [[[i o] st]|e]]; simpl in P.
  - specialize (IH (count st t) w').
    destruct (main_loop host rest outdir (count st t) w') as [[w'' t'] rs].
    simpl in *. by rewrite IH.
  - destruct e; [done|..];
      specialize (IH (count_exception t) w');
      destruct (main_loop host rest outdir (count_exception t) w') as [[w'' t'] rs];
      simpl in *; by rewrite IH.
Qed.


